(** * The stream handler of the wandb core service

    A shallow embedding of [core/pkg/server/handler.go]: the handler state is
    a record, every method of [*Handler] is a function that takes the state
    and returns the next one, and a Go panic (a fatal log call, a
    dereference of a nil collaborator) is an explicit [Panic] outcome.

    Channels are the lists of what was sent on them, in order.  Go maps
    are [gmap]s, except where the order of the entries is part of the
    behaviour. *)

From Stdlib Require Import ZArith String Ascii List Bool Lia DecimalString QArith_base.
From stdpp Require Import base option gmap strings list fin_maps.

Open Scope string_scope.
Open Scope list_scope.
Open Scope Z_scope.

(** ** Outcomes *)

Inductive outcome (A : Type) : Type :=
| Ok (a : A)
| Panic (msg : string).
Arguments Ok {A} a.
Arguments Panic {A} msg.

#[global] Instance outcome_ret : MRet outcome := fun _ a => Ok a.
#[global] Instance outcome_bind : MBind outcome := fun _ _ f r =>
  match r with
  | Ok a => f a
  | Panic m => Panic m
  end.

(** Dereference of a pointer that may be nil. *)
Definition deref {A} (what : string) (p : option A) : outcome A :=
  match p with
  | Some a => Ok a
  | None => Panic ("nil pointer dereference: " +:+ what)
  end.

(** ** Machine integers and formatting *)

Definition wrap64 (z : Z) : Z := (z + 2 ^ 63) mod 2 ^ 64 - 2 ^ 63.
Definition wrap32 (z : Z) : Z := (z + 2 ^ 31) mod 2 ^ 32 - 2 ^ 31.
Definition int64_range (z : Z) : Prop := - 2 ^ 63 <= z < 2 ^ 63.

(** [fmt.Sprintf("%d", z)] *)
Definition Sprintf_d (z : Z) : string := NilEmpty.string_of_int (Z.to_int z).

(** [strings.HasPrefix] *)
Definition HasPrefix (s pre : string) : bool := String.prefix pre s.

(** ** What the handler takes from the Go runtime and its libraries

    Floating point, JSON decoding, glob matching, the random choice inside
    the reservoir and the version constants are not part of the handler.
    The development is parametric in them. *)

Class Platform : Type := {
  float64 : Type;
  float32 : Type;
  (** the float64 constant [0] *)
  f64_zero : float64;
  (** float64 subtraction *)
  f64_sub : float64 -> float64 -> float64;
  (** [strconv.ParseFloat(s, 64)]; [None] is a non-nil error *)
  ParseFloat : string -> option float64;
  (** [fmt.Sprintf("%f", x)] *)
  Sprintf_f : float64 -> string;
  (** [json.Unmarshal([]byte(s), &value)] with [value] a [float32];
      [None] is a non-nil error *)
  Unmarshal_float32 : string -> option float32;
  (** [float64(t.UnixMicro()) / 1e6] for a time given in microseconds *)
  micros_to_seconds : Z -> float64;
  (** [filepath.Match(pattern, name)]; [None] is a malformed pattern *)
  Match : string -> string -> option bool;
  (** the conversion [float32(x)] *)
  f64_to_f32 : float64 -> float32;
  (** the values a reservoir of the given capacity and weight holds after
      it was offered the given values, in that order *)
  reservoir : nat -> Q -> list float32 -> list float32;
  (** [version.Version] and [version.MinServerVersion] of
      [core/internal/version] *)
  Version : string;
  MinServerVersion : string
}.

(** ** Messages ([core/pkg/service]) *)

Record Control := {
  ReqResp : bool; Local : bool; AlwaysSend : bool;
  MailboxSlot : string
}.

Definition Control_zero : Control :=
  {| ReqResp := false; Local := false; AlwaysSend := false; MailboxSlot := "" |}.

Definition set_AlwaysSend (b : bool) (c : Control) : Control :=
  {| ReqResp := ReqResp c; Local := Local c; AlwaysSend := b;
     MailboxSlot := MailboxSlot c |}.
Definition set_Local (b : bool) (c : Control) : Control :=
  {| ReqResp := ReqResp c; Local := b; AlwaysSend := AlwaysSend c;
     MailboxSlot := MailboxSlot c |}.

Record HistoryItem := { hi_Key : string; hi_ValueJson : string }.
Record SummaryItem := { si_Key : string; si_ValueJson : string }.

(** The constraint [genericItem] of [corelib.ConsolidateSummaryItems]. *)
Class genericItem (T : Type) := {
  GetKey : T -> string;
  GetValueJson : T -> string
}.
#[global] Instance HistoryItem_genericItem : genericItem HistoryItem :=
  {| GetKey := hi_Key; GetValueJson := hi_ValueJson |}.
#[global] Instance SummaryItem_genericItem : genericItem SummaryItem :=
  {| GetKey := si_Key; GetValueJson := si_ValueJson |}.

Record HistoryStep := { Num : Z }.
Record HistoryAction := { Flush : bool }.

(** A repeated field with no element is the nil slice: [hr_Item = []] is
    [history.GetItem() == nil]. *)
Record HistoryRecord := {
  hr_Step : option HistoryStep;
  hr_Item : list HistoryItem
}.

Record PartialHistoryRequest := {
  ph_Item : list HistoryItem;
  ph_Step : option HistoryStep;
  ph_Action : option HistoryAction
}.

Record MetricOptions := { StepSync : bool; Hidden : bool; Defined : bool }.

Record MetricRecord := {
  Name : string;
  GlobName : string;
  StepMetric : string;
  Options : option MetricOptions
}.

Record SummaryRecord := { Update : list SummaryItem }.

Record RunExitRecord := { ExitCode : Z; Runtime : Z }.

Record GitRepoRecord := { RemoteUrl : string; Commit : string }.

Record RunRecord := {
  RunId : string;
  StartingStep : Z;
  (** microseconds since the epoch *)
  StartTime : Z;
  Git : option GitRepoRecord
}.

Inductive DeferState :=
| BEGIN | FLUSH_RUN | FLUSH_STATS | FLUSH_PARTIAL_HISTORY | FLUSH_TB
| FLUSH_SUM | FLUSH_DEBOUNCER | FLUSH_OUTPUT | FLUSH_JOB | FLUSH_DIR
| FLUSH_FP | JOIN_FP | FLUSH_FS | FLUSH_FINAL | END
(** any other number on the wire *)
| DeferState_other (n : Z).

Record DeferRequest := { State : DeferState }.

(** Nil-safe getters generated for the messages. *)
Definition GetNum (s : option HistoryStep) : Z :=
  match s with Some s => Num s | None => 0 end.
Definition GetFlush (a : option HistoryAction) : bool :=
  match a with Some a => Flush a | None => false end.
Definition GetStepMetric (m : option MetricRecord) : string :=
  match m with Some m => StepMetric m | None => "" end.
Definition GetOptions (m : option MetricRecord) : option MetricOptions :=
  match m with Some m => Options m | None => None end.
Definition GetStepSync (o : option MetricOptions) : bool :=
  match o with Some o => StepSync o | None => false end.
Definition GetStartingStep (r : option RunRecord) : Z :=
  match r with Some r => StartingStep r | None => 0 end.

Record FilesItem := { Path : string; IsWandbFile : bool }.
Record FilesRecord := { Files : list FilesItem }.

Record VersionInfo := { Producer : string; MinConsumer : string }.
Record HeaderRecord := { GetVersionInfo : option VersionInfo }.

Record RunStartRequest := { Run : option RunRecord }.
Record PythonPackage := { pkg_Name : string; pkg_Version : string }.
Record PythonPackagesRequest := { Package : list PythonPackage }.
Record CancelRequest := { CancelSlot : string }.

Inductive RequestType :=
| Request_Login | Request_CheckVersion | Request_RunStatus
| Request_Metadata | Request_SummaryRecord | Request_TelemetryRecord
| Request_TestInject | Request_JobInfo | Request_Status
| Request_SenderMark | Request_StatusReport | Request_Keepalive
| Request_Shutdown
| Request_Defer (d : DeferRequest)
| Request_GetSummary | Request_NetworkStatus
| Request_PartialHistory (p : PartialHistoryRequest)
| Request_PollExit
| Request_RunStart (r : RunStartRequest)
| Request_SampledHistory | Request_ServerInfo
| Request_PythonPackages (p : PythonPackagesRequest)
| Request_StopStatus | Request_LogArtifact | Request_DownloadArtifact
| Request_Attach | Request_Pause | Request_Resume
| Request_Cancel (c : CancelRequest)
| Request_GetSystemMetrics | Request_InternalMessages | Request_Sync
| Request_SenderRead | Request_JobInput
(** a request type outside the switch of [handleRequest] *)
| Request_other (type_name : string).

Inductive RecordType :=
| Record_Alert | Record_Artifact | Record_Config
| Record_Exit (e : RunExitRecord)
| Record_Files (f : option FilesRecord)
| Record_Final | Record_Footer
| Record_Header (hd : HeaderRecord)
| Record_History (hr : HistoryRecord)
| Record_LinkArtifact
| Record_Metric (m : MetricRecord)
| Record_Output | Record_OutputRaw | Record_Preempting
| Record_Request (r : option RequestType)
| Record_Run | Record_Stats
| Record_Summary (s : SummaryRecord)
| Record_Tbrecord | Record_Telemetry | Record_UseArtifact
(** a record type outside the switch of [handleRecord] *)
| Record_other (type_name : string).

(** [service.Record] *)
Record ServiceRecord := {
  GetRecordType : option RecordType;
  GetControl : option Control;
  Uuid : string
}.

Definition set_Control (c : option Control) (r : ServiceRecord) : ServiceRecord :=
  {| GetRecordType := GetRecordType r; GetControl := c; Uuid := Uuid r |}.
Definition set_RecordType (t : option RecordType) (r : ServiceRecord) : ServiceRecord :=
  {| GetRecordType := t; GetControl := GetControl r; Uuid := Uuid r |}.

(** [&service.Record{RecordType: t, Control: c}] *)
Definition newRecord (t : RecordType) (c : option Control) : ServiceRecord :=
  {| GetRecordType := Some t; GetControl := c; Uuid := "" |}.

Definition GetReqResp (c : option Control) : bool :=
  match c with Some c => ReqResp c | None => false end.

Record FilePusherStats := { UploadedBytes : Z; TotalBytes : Z; DedupedBytes : Z }.
Record FileCounts := { WandbCount : Z; MediaCount : Z; ArtifactCount : Z; OtherCount : Z }.

Record PollExitResponse := {
  PusherStats : option FilePusherStats;
  GetFileCounts_ : option FileCounts;
  Done : bool
}.

Record GetSummaryResponse := { gs_Item : list SummaryItem }.
Record InternalMessages := { Warning : list string }.

(** ** The logger and the printer ([core/pkg/observability]) *)

Inductive LogLevel :=
| LevelDebug | LevelInfo | LevelWarn | LevelError
| LevelCaptureWarn | LevelCaptureError.

Record LogEntry := {
  log_level : LogLevel;
  log_msg : string;
  log_args : list (string * string)
}.

(** ** Collaborators outside the handler

    Each one is the list of the calls the handler made on it, oldest first. *)

Inductive MonitorCall := Monitor_Do | Monitor_Stop.
Inductive TBCall := TB_Handle (r : ServiceRecord) | TB_Close.
Inductive UploaderCall := UploadNow (path : string) | UploadRemaining.

(** What the handler wrote below [settings.files_dir]. *)
Record MetadataRequest := {
  md_Os : string; md_Python : string; md_Host : string; md_Cuda : string;
  md_Program : string; md_CodePath : string; md_CodePathLocal : string;
  md_Email : string; md_Root : string; md_Username : string;
  md_Docker : string; md_Executable : string; md_Args : list string;
  md_Colab : string; md_StartedAt : Z; md_Git : option GitRepoRecord
}.

Inductive FileContent :=
(** [protojson] of the metadata, after [proto.Merge] with the probe *)
| MetadataJson (m : MetadataRequest) (probe : option MetadataRequest)
(** [json.MarshalIndent] of the consolidated summary *)
| SummaryJson (summary : gmap string string)
(** one [name==version] line per package *)
| RequirementsTxt (lines : list string)
(** a copy of the program file *)
| ProgramCopy (from : string)
(** the patch [git] wrote against a reference *)
| GitPatch (ref : string).

Record FileWrite := { fw_path : string; fw_content : FileContent }.

(** ** Settings *)

Record Settings := {
  s_RunId : string;
  XSync : bool; XShared : bool; XDisableStats : bool; XDisableMeta : bool;
  SaveCode : bool; DisableGit : bool;
  FilesDir : string; RootDir : string;
  ProgramRelpath : string; ProgramAbspath : string;
  XOs : string; XPython : string; Host : string; XCuda : string;
  Program : string; XCodePathLocal : string; Email : string;
  Username : string; Docker : string; XExecutable : string;
  XArgs : list string; ColabUrl : string
}.

(** [filepath.Join(a, b)] on two clean, non-empty path fragments *)
Definition Join (a b : string) : string := a +:+ "/" +:+ b.

Section Model.
Context {P : Platform}.

(** ** What the handler reads from outside while it handles one record

    The wall clock, the rate limiter of the summary debouncer, the file
    system and [git] answer differently from one call to the next; their
    answers during one call of [handleRecord] are an input of the model. *)

Record World := {
  (** [time.Now()], in nanoseconds *)
  now : Z;
  (** [limiter.Allow()] of the summary debouncer *)
  limiter_allow : bool;
  (** [tbHandler.Handle] returned an error *)
  tb_handle_fails : bool;
  (** [systemMonitor.Probe()] *)
  probe : option MetadataRequest;
  (** [systemMonitor.GetBuffer()]: per key, (timestamp, value) samples *)
  monitor_buffer : list (string * list (Z * float64));
  (** [os.Stat(programAbsolute)] succeeds *)
  program_exists : bool;
  (** [os.MkdirAll] of the code directory succeeds *)
  mkdir_ok : bool;
  (** [os.Stat(savedProgram)] succeeds *)
  saved_program_exists : bool;
  (** [utils.CopyFile] succeeds *)
  copy_ok : bool;
  (** [git.IsAvailable()] *)
  git_available : bool;
  (** [git.SavePatch("HEAD", file)] succeeds *)
  patch_head_ok : bool;
  (** [git.LatestCommit("@{u}")] *)
  latest_commit : option string;
  (** [git.SavePatch("@{u}", file)] succeeds *)
  patch_upstream_ok : bool;
  (** marshalling the metadata succeeds *)
  marshal_metadata_ok : bool;
  (** [os.WriteFile] of the metadata succeeds *)
  write_metadata_ok : bool;
  (** [os.Create] of the requirements file succeeds *)
  create_requirements_ok : bool;
  (** how many lines of the requirements file can be written before
      [WriteString] fails; [None] when none fails *)
  requirements_fail_at : option nat;
  (** [json.MarshalIndent] of the summary succeeds *)
  marshal_summary_ok : bool;
  (** [os.WriteFile] of the summary succeeds *)
  write_summary_ok : bool
}.

(** ** The reservoir sampler ([core/internal/sampler]) *)

(** Modelled from the spec: the sampler of [core/internal/sampler] (not
    among the sources) is a per-key fixed-capacity reservoir with a capacity
    and a weight parameter; which of the offered values it keeps is left to
    [reservoir]. *)
Record ReservoirSampler := {
  rs_k : nat;
  rs_delta : Q;
  rs_offered : list float32
}.

(** Modelled from the spec: [sampler.NewReservoirSampler[float32](k, delta)],
    an empty reservoir of capacity [k] and weight parameter [delta]. *)
Definition NewReservoirSampler (k : nat) (delta : Q) : ReservoirSampler :=
  {| rs_k := k; rs_delta := delta; rs_offered := [] |}.

(** Modelled from the spec: [ReservoirSampler.Add], which offers one more
    value to the reservoir. *)
Definition ReservoirSampler_Add (s : ReservoirSampler) (v : float32)
  : ReservoirSampler :=
  {| rs_k := rs_k s; rs_delta := rs_delta s; rs_offered := rs_offered s ++ [v] |}.

(** Modelled from the spec: [ReservoirSampler.Sample], the current
    sampled values. *)
Definition ReservoirSampler_Sample (s : ReservoirSampler) : list float32 :=
  reservoir (rs_k s) (rs_delta s) (rs_offered s).

Record SampledHistoryItem := {
  sh_Key : string;
  ValuesFloat : list float32
}.

Record SystemMetricSample := { sample_Timestamp : Z; sample_Value : float32 }.

Inductive ResponseType :=
| Response_AttachResponse (run : option RunRecord)
| Response_PollExitResponse (r : PollExitResponse)
| Response_GetSummaryResponse (r : GetSummaryResponse)
| Response_GetSystemMetricsResponse
    (metrics : list (string * list SystemMetricSample))
| Response_InternalMessagesResponse (m : InternalMessages)
| Response_SampledHistoryResponse (items : list SampledHistoryItem).

(** [service.Response]: [None] is the empty response. *)
Record Response := { GetResponseType : option ResponseType }.

(** [service.Result] *)
Record Result := {
  res_Response : Response;
  res_Control : option Control;
  res_Uuid : string
}.

(** ** The run timer *)

(** Modelled from the spec: the timer of [timer.go] (not among the sources)
    is a monotonic elapsed clock with [start(t0)], [pause()], [resume()],
    paused intervals do not accrue.  Times and durations are in
    nanoseconds. *)
Record Timer := {
  startTime : Z;
  resumeTime : Z;
  accumulated : Z;
  isStarted : bool;
  isPaused : bool
}.

(** [Timer{}] *)
Definition Timer_zero : Timer :=
  {| startTime := 0; resumeTime := 0; accumulated := 0;
     isStarted := false; isPaused := false |}.

(** Modelled from the spec: [start(t0)] starts the clock from [t0]. *)
Definition Timer_Start (t : Timer) (t0 : Z) : Timer :=
  {| startTime := t0; resumeTime := t0; accumulated := accumulated t;
     isStarted := true; isPaused := isPaused t |}.

(** Modelled from the spec: [pause()] stops the clock; the time since the
    last resume is added once. *)
Definition Timer_Pause (w : World) (t : Timer) : Timer :=
  if isPaused t then t
  else {| startTime := startTime t; resumeTime := resumeTime t;
          accumulated := accumulated t + (now w - resumeTime t);
          isStarted := isStarted t; isPaused := true |}.

(** Modelled from the spec: [resume()] lets the clock run again. *)
Definition Timer_Resume (w : World) (t : Timer) : Timer :=
  if isPaused t
  then {| startTime := startTime t; resumeTime := now w;
          accumulated := accumulated t;
          isStarted := isStarted t; isPaused := false |}
  else t.

(** Modelled from the spec: [elapsed()], the time the clock has run. *)
Definition Timer_Elapsed (w : World) (t : Timer) : Z :=
  if negb (isStarted t) then 0
  else if isPaused t then accumulated t
  else accumulated t + (now w - resumeTime t).

(** Modelled from the spec: [start_time_micros()], the start time in
    seconds as a float64 of microsecond resolution. *)
Definition Timer_GetStartTimeMicro (t : Timer) : float64 :=
  micros_to_seconds (startTime t / 1000).

(** [int32(d.Seconds())] for a duration [d]: the whole seconds of the
    duration, towards zero. *)
Definition Seconds_int32 (d : Z) : Z := wrap32 (Z.quot d 1000000000).

(** ** The active history ([history.go]) *)

(** The two closures passed to [WithFlush]: the one of
    [handlePartialHistorySync] builds a record that carries the step, the
    one of [handlePartialHistoryAsync] a record without step. *)
Inductive FlushCallback := FlushWithStep | FlushWithoutStep.

(** Modelled from the spec: the active history of [history.go] (not among
    the sources) is the per-step accumulator of history items with a flush
    callback; an item is stored under its key, so that [GetItem] finds the
    item of a key. *)
Record ActiveHistory := {
  values : gmap string HistoryItem;
  step : option HistoryStep;
  flush : option FlushCallback
}.

(** Modelled from the spec: [NewActiveHistory(opts...)] with the options
    [WithStep] and [WithFlush], each given or not. *)
Definition NewActiveHistory (withStep : option Z)
    (withFlush : option FlushCallback) : ActiveHistory :=
  {| values := ∅; step := Build_HistoryStep <$> withStep; flush := withFlush |}.

(** Modelled from the spec: [UpdateValues] puts the items into the
    accumulator, a later item of a key replacing an earlier one. *)
Definition UpdateValues (ah : ActiveHistory) (items : list HistoryItem)
  : ActiveHistory :=
  {| values := fold_left (fun m it => <[hi_Key it := it]> m) items (values ah);
     step := step ah; flush := flush ah |}.

(** Modelled from the spec: [UpdateStep] sets the current step. *)
Definition UpdateStep (ah : ActiveHistory) (n : Z) : ActiveHistory :=
  {| values := values ah; step := Some {| Num := n |}; flush := flush ah |}.

(** Modelled from the spec: [GetStep], the current step, nil when the
    accumulator was made without one. *)
Definition GetStep (ah : ActiveHistory) : option HistoryStep := step ah.

(** Modelled from the spec: [GetItem], the item stored under a key. *)
Definition GetItem (ah : ActiveHistory) (key : string) : option HistoryItem :=
  values ah !! key.

(** Modelled from the spec: [GetValues], the items of the accumulator; the
    nil slice when there is none. *)
Definition GetValues (ah : ActiveHistory) : list HistoryItem :=
  snd <$> map_to_list (values ah).

(** Modelled from the spec: [Clear] empties the accumulator and keeps its
    step and callback. *)
Definition Clear (ah : ActiveHistory) : ActiveHistory :=
  {| values := ∅; step := step ah; flush := flush ah |}.

(** ** The summary handler ([summary.go]) and [corelib] *)

(** Modelled from the spec: the summary handler (not among the sources)
    holds the consolidated summary and the summary delta. *)
Record SummaryHandler := {
  consolidatedSummary : gmap string string;
  summaryDelta : gmap string string
}.

(** Modelled from the spec: [corelib.ConsolidateSummaryItems] merges the
    items into the consolidated summary, last writer wins, and returns the
    pairs it wrote as a summary record. *)
Definition ConsolidateSummaryItems {T} `{genericItem T}
    (consolidated : gmap string string) (items : list T)
  : gmap string string * SummaryRecord :=
  (fold_left (fun m it => <[GetKey it := GetValueJson it]> m) items consolidated,
   {| Update := map (fun it => {| si_Key := GetKey it;
                                  si_ValueJson := GetValueJson it |}) items |}).

(** Modelled from the spec: [updateSummaryDelta] records the pairs of a
    summary record in the delta. *)
Definition updateSummaryDelta (delta : gmap string string) (r : SummaryRecord)
  : gmap string string :=
  fold_left (fun m it => <[si_Key it := si_ValueJson it]> m) (Update r) delta.

(** ** The metric handler ([metric.go]) *)

(** Modelled from the spec: the metric registry (not among the sources) has
    the defined metrics by name and the glob metrics by pattern; the globs
    are kept in insertion order, which is the order of matching. *)
Record MetricHandler := {
  definedMetrics : gmap string MetricRecord;
  globMetrics : list (string * MetricRecord)
}.

(** Insert or update in an insertion-ordered map. *)
Fixpoint assoc_put {V} (key : string) (v : V) (l : list (string * V))
  : list (string * V) :=
  match l with
  | [] => [(key, v)]
  | (k, x) :: l' =>
      if String.eqb k key then (key, v) :: l' else (k, x) :: assoc_put key v l'
  end.

(** Modelled from the spec: [createMatchingGlobMetric]: the first glob, in
    insertion order, whose pattern matches the key gives a new defined
    metric that inherits the glob's options, with the key as its name.  A
    malformed pattern is passed over. *)
Fixpoint firstMatchingGlob (globs : list (string * MetricRecord)) (key : string)
  : option MetricRecord :=
  match globs with
  | [] => None
  | (pattern, globMetric) :: rest =>
      match Match pattern key with
      | Some true =>
          Some {| Name := key; GlobName := "";
                  StepMetric := StepMetric globMetric;
                  Options := Options globMetric |}
      | _ => firstMatchingGlob rest key
      end
  end.

Definition createMatchingGlobMetric (mh : MetricHandler) (key : string)
  : option MetricRecord :=
  firstMatchingGlob (globMetrics mh) key.

(** ** File-transfer statistics ([core/internal/filetransfer]) *)

(** Modelled from the spec: the file-transfer statistics (not among the
    sources) answer [GetFilesStats], [GetFileCounts] and [IsDone], and
    [SetDone] marks them done. *)
Record FileTransferStats := {
  GetFilesStats : FilePusherStats;
  GetFileCounts : FileCounts;
  IsDone : bool
}.

Definition SetDone (s : FileTransferStats) : FileTransferStats :=
  {| GetFilesStats := GetFilesStats s; GetFileCounts := GetFileCounts s;
     IsDone := true |}.

(** ** The handler *)

Record Handler := {
  (** the value of [observability.Commit] in the context *)
  commit : string;
  settings : Settings;
  (** what was logged, oldest first *)
  logger : list LogEntry;
  (** what was sent to the writer, oldest first *)
  fwdChan : list ServiceRecord;
  (** what was sent to the client, oldest first *)
  outChan : list Result;
  timer : Timer;
  runRecord : option RunRecord;
  summaryHandler : option SummaryHandler;
  activeHistory : option ActiveHistory;
  (** [None] is the nil map *)
  samplers : option (gmap string ReservoirSampler);
  metricHandler : option MetricHandler;
  systemMonitor : list MonitorCall;
  tbHandler : list TBCall;
  runfilesUploaderOrNil : option (list UploaderCall);
  fileTransferStats : option FileTransferStats;
  (** the messages queued for the user *)
  internalPrinter : list string;
  (** the slots cancelled so far *)
  mailbox : list string;
  (** the files written so far, oldest first *)
  files : list FileWrite
}.

Definition set_commit (x : string) (h : Handler) : Handler :=
  {| commit := x; settings := settings h; logger := logger h; fwdChan :=
     fwdChan h; outChan := outChan h; timer := timer h; runRecord :=
     runRecord h; summaryHandler := summaryHandler h; activeHistory :=
     activeHistory h; samplers := samplers h; metricHandler := metricHandler
     h; systemMonitor := systemMonitor h; tbHandler := tbHandler h;
     runfilesUploaderOrNil := runfilesUploaderOrNil h; fileTransferStats :=
     fileTransferStats h; internalPrinter := internalPrinter h; mailbox :=
     mailbox h; files := files h |}.

Definition set_settings (x : Settings) (h : Handler) : Handler :=
  {| commit := commit h; settings := x; logger := logger h; fwdChan :=
     fwdChan h; outChan := outChan h; timer := timer h; runRecord :=
     runRecord h; summaryHandler := summaryHandler h; activeHistory :=
     activeHistory h; samplers := samplers h; metricHandler := metricHandler
     h; systemMonitor := systemMonitor h; tbHandler := tbHandler h;
     runfilesUploaderOrNil := runfilesUploaderOrNil h; fileTransferStats :=
     fileTransferStats h; internalPrinter := internalPrinter h; mailbox :=
     mailbox h; files := files h |}.

Definition set_logger (x : list LogEntry) (h : Handler) : Handler :=
  {| commit := commit h; settings := settings h; logger := x; fwdChan :=
     fwdChan h; outChan := outChan h; timer := timer h; runRecord :=
     runRecord h; summaryHandler := summaryHandler h; activeHistory :=
     activeHistory h; samplers := samplers h; metricHandler := metricHandler
     h; systemMonitor := systemMonitor h; tbHandler := tbHandler h;
     runfilesUploaderOrNil := runfilesUploaderOrNil h; fileTransferStats :=
     fileTransferStats h; internalPrinter := internalPrinter h; mailbox :=
     mailbox h; files := files h |}.

Definition set_fwdChan (x : list ServiceRecord) (h : Handler) : Handler :=
  {| commit := commit h; settings := settings h; logger := logger h; fwdChan
     := x; outChan := outChan h; timer := timer h; runRecord := runRecord h;
     summaryHandler := summaryHandler h; activeHistory := activeHistory h;
     samplers := samplers h; metricHandler := metricHandler h; systemMonitor
     := systemMonitor h; tbHandler := tbHandler h; runfilesUploaderOrNil :=
     runfilesUploaderOrNil h; fileTransferStats := fileTransferStats h;
     internalPrinter := internalPrinter h; mailbox := mailbox h; files :=
     files h |}.

Definition set_outChan (x : list Result) (h : Handler) : Handler :=
  {| commit := commit h; settings := settings h; logger := logger h; fwdChan
     := fwdChan h; outChan := x; timer := timer h; runRecord := runRecord h;
     summaryHandler := summaryHandler h; activeHistory := activeHistory h;
     samplers := samplers h; metricHandler := metricHandler h; systemMonitor
     := systemMonitor h; tbHandler := tbHandler h; runfilesUploaderOrNil :=
     runfilesUploaderOrNil h; fileTransferStats := fileTransferStats h;
     internalPrinter := internalPrinter h; mailbox := mailbox h; files :=
     files h |}.

Definition set_timer (x : Timer) (h : Handler) : Handler :=
  {| commit := commit h; settings := settings h; logger := logger h; fwdChan
     := fwdChan h; outChan := outChan h; timer := x; runRecord := runRecord
     h; summaryHandler := summaryHandler h; activeHistory := activeHistory
     h; samplers := samplers h; metricHandler := metricHandler h;
     systemMonitor := systemMonitor h; tbHandler := tbHandler h;
     runfilesUploaderOrNil := runfilesUploaderOrNil h; fileTransferStats :=
     fileTransferStats h; internalPrinter := internalPrinter h; mailbox :=
     mailbox h; files := files h |}.

Definition set_runRecord (x : option RunRecord) (h : Handler) : Handler :=
  {| commit := commit h; settings := settings h; logger := logger h; fwdChan
     := fwdChan h; outChan := outChan h; timer := timer h; runRecord := x;
     summaryHandler := summaryHandler h; activeHistory := activeHistory h;
     samplers := samplers h; metricHandler := metricHandler h; systemMonitor
     := systemMonitor h; tbHandler := tbHandler h; runfilesUploaderOrNil :=
     runfilesUploaderOrNil h; fileTransferStats := fileTransferStats h;
     internalPrinter := internalPrinter h; mailbox := mailbox h; files :=
     files h |}.

Definition set_summaryHandler (x : option SummaryHandler) (h : Handler) : Handler :=
  {| commit := commit h; settings := settings h; logger := logger h; fwdChan
     := fwdChan h; outChan := outChan h; timer := timer h; runRecord :=
     runRecord h; summaryHandler := x; activeHistory := activeHistory h;
     samplers := samplers h; metricHandler := metricHandler h; systemMonitor
     := systemMonitor h; tbHandler := tbHandler h; runfilesUploaderOrNil :=
     runfilesUploaderOrNil h; fileTransferStats := fileTransferStats h;
     internalPrinter := internalPrinter h; mailbox := mailbox h; files :=
     files h |}.

Definition set_activeHistory (x : option ActiveHistory) (h : Handler) : Handler :=
  {| commit := commit h; settings := settings h; logger := logger h; fwdChan
     := fwdChan h; outChan := outChan h; timer := timer h; runRecord :=
     runRecord h; summaryHandler := summaryHandler h; activeHistory := x;
     samplers := samplers h; metricHandler := metricHandler h; systemMonitor
     := systemMonitor h; tbHandler := tbHandler h; runfilesUploaderOrNil :=
     runfilesUploaderOrNil h; fileTransferStats := fileTransferStats h;
     internalPrinter := internalPrinter h; mailbox := mailbox h; files :=
     files h |}.

Definition set_samplers (x : option (gmap string ReservoirSampler)) (h : Handler) : Handler :=
  {| commit := commit h; settings := settings h; logger := logger h; fwdChan
     := fwdChan h; outChan := outChan h; timer := timer h; runRecord :=
     runRecord h; summaryHandler := summaryHandler h; activeHistory :=
     activeHistory h; samplers := x; metricHandler := metricHandler h;
     systemMonitor := systemMonitor h; tbHandler := tbHandler h;
     runfilesUploaderOrNil := runfilesUploaderOrNil h; fileTransferStats :=
     fileTransferStats h; internalPrinter := internalPrinter h; mailbox :=
     mailbox h; files := files h |}.

Definition set_metricHandler (x : option MetricHandler) (h : Handler) : Handler :=
  {| commit := commit h; settings := settings h; logger := logger h; fwdChan
     := fwdChan h; outChan := outChan h; timer := timer h; runRecord :=
     runRecord h; summaryHandler := summaryHandler h; activeHistory :=
     activeHistory h; samplers := samplers h; metricHandler := x;
     systemMonitor := systemMonitor h; tbHandler := tbHandler h;
     runfilesUploaderOrNil := runfilesUploaderOrNil h; fileTransferStats :=
     fileTransferStats h; internalPrinter := internalPrinter h; mailbox :=
     mailbox h; files := files h |}.

Definition set_systemMonitor (x : list MonitorCall) (h : Handler) : Handler :=
  {| commit := commit h; settings := settings h; logger := logger h; fwdChan
     := fwdChan h; outChan := outChan h; timer := timer h; runRecord :=
     runRecord h; summaryHandler := summaryHandler h; activeHistory :=
     activeHistory h; samplers := samplers h; metricHandler := metricHandler
     h; systemMonitor := x; tbHandler := tbHandler h; runfilesUploaderOrNil
     := runfilesUploaderOrNil h; fileTransferStats := fileTransferStats h;
     internalPrinter := internalPrinter h; mailbox := mailbox h; files :=
     files h |}.

Definition set_tbHandler (x : list TBCall) (h : Handler) : Handler :=
  {| commit := commit h; settings := settings h; logger := logger h; fwdChan
     := fwdChan h; outChan := outChan h; timer := timer h; runRecord :=
     runRecord h; summaryHandler := summaryHandler h; activeHistory :=
     activeHistory h; samplers := samplers h; metricHandler := metricHandler
     h; systemMonitor := systemMonitor h; tbHandler := x;
     runfilesUploaderOrNil := runfilesUploaderOrNil h; fileTransferStats :=
     fileTransferStats h; internalPrinter := internalPrinter h; mailbox :=
     mailbox h; files := files h |}.

Definition set_runfilesUploaderOrNil (x : option (list UploaderCall)) (h : Handler) : Handler :=
  {| commit := commit h; settings := settings h; logger := logger h; fwdChan
     := fwdChan h; outChan := outChan h; timer := timer h; runRecord :=
     runRecord h; summaryHandler := summaryHandler h; activeHistory :=
     activeHistory h; samplers := samplers h; metricHandler := metricHandler
     h; systemMonitor := systemMonitor h; tbHandler := tbHandler h;
     runfilesUploaderOrNil := x; fileTransferStats := fileTransferStats h;
     internalPrinter := internalPrinter h; mailbox := mailbox h; files :=
     files h |}.

Definition set_fileTransferStats (x : option FileTransferStats) (h : Handler) : Handler :=
  {| commit := commit h; settings := settings h; logger := logger h; fwdChan
     := fwdChan h; outChan := outChan h; timer := timer h; runRecord :=
     runRecord h; summaryHandler := summaryHandler h; activeHistory :=
     activeHistory h; samplers := samplers h; metricHandler := metricHandler
     h; systemMonitor := systemMonitor h; tbHandler := tbHandler h;
     runfilesUploaderOrNil := runfilesUploaderOrNil h; fileTransferStats :=
     x; internalPrinter := internalPrinter h; mailbox := mailbox h; files :=
     files h |}.

Definition set_internalPrinter (x : list string) (h : Handler) : Handler :=
  {| commit := commit h; settings := settings h; logger := logger h; fwdChan
     := fwdChan h; outChan := outChan h; timer := timer h; runRecord :=
     runRecord h; summaryHandler := summaryHandler h; activeHistory :=
     activeHistory h; samplers := samplers h; metricHandler := metricHandler
     h; systemMonitor := systemMonitor h; tbHandler := tbHandler h;
     runfilesUploaderOrNil := runfilesUploaderOrNil h; fileTransferStats :=
     fileTransferStats h; internalPrinter := x; mailbox := mailbox h; files
     := files h |}.

Definition set_mailbox (x : list string) (h : Handler) : Handler :=
  {| commit := commit h; settings := settings h; logger := logger h; fwdChan
     := fwdChan h; outChan := outChan h; timer := timer h; runRecord :=
     runRecord h; summaryHandler := summaryHandler h; activeHistory :=
     activeHistory h; samplers := samplers h; metricHandler := metricHandler
     h; systemMonitor := systemMonitor h; tbHandler := tbHandler h;
     runfilesUploaderOrNil := runfilesUploaderOrNil h; fileTransferStats :=
     fileTransferStats h; internalPrinter := internalPrinter h; mailbox :=
     x; files := files h |}.

Definition set_files (x : list FileWrite) (h : Handler) : Handler :=
  {| commit := commit h; settings := settings h; logger := logger h; fwdChan
     := fwdChan h; outChan := outChan h; timer := timer h; runRecord :=
     runRecord h; summaryHandler := summaryHandler h; activeHistory :=
     activeHistory h; samplers := samplers h; metricHandler := metricHandler
     h; systemMonitor := systemMonitor h; tbHandler := tbHandler h;
     runfilesUploaderOrNil := runfilesUploaderOrNil h; fileTransferStats :=
     fileTransferStats h; internalPrinter := internalPrinter h; mailbox :=
     mailbox h; files := x |}.

(** *** Logging, forwarding and responding *)

Definition log (lvl : LogLevel) (msg : string) (args : list (string * string))
    (h : Handler) : Handler :=
  set_logger (logger h ++ [{| log_level := lvl; log_msg := msg; log_args := args |}]) h.

(** [internalPrinter.Write(msg)] *)
Definition Printer_Write (msg : string) (h : Handler) : Handler :=
  set_internalPrinter (internalPrinter h ++ [msg]) h.

Definition respond (record : ServiceRecord) (response : Response) (h : Handler)
  : Handler :=
  set_outChan (outChan h ++ [{| res_Response := response;
                                res_Control := GetControl record;
                                res_Uuid := Uuid record |}]) h.

(** [None] is the nil record. *)
Definition fwdRecord (record : option ServiceRecord) (h : Handler) : Handler :=
  match record with
  | None => h
  | Some record => set_fwdChan (fwdChan h ++ [record]) h
  end.

(** The control of the record, made if there is none, after the options
    were applied to it in order. *)
Definition withControl (record : ServiceRecord)
    (controlOptions : list (Control -> Control)) : ServiceRecord :=
  let control := match GetControl record with
                 | None => Control_zero
                 | Some c => c
                 end in
  set_Control (Some (fold_left (fun c opt => opt c) controlOptions control)) record.

Definition fwdRecordWithControl (record : option ServiceRecord)
    (controlOptions : list (Control -> Control)) (h : Handler) : Handler :=
  match record with
  | None => h
  | Some record => fwdRecord (Some (withControl record controlOptions)) h
  end.

(** *** Metrics *)

(** Modelled from the spec: [addMetric(arg, key, target)] inserts or updates
    the metric under the key and returns it; [arg] is a metric or the name
    of one.  [None] is the error of an argument of another type, which the
    handler never passes. *)
Definition addMetric (arg : string + MetricRecord) (key : string)
    (target : gmap string MetricRecord)
  : option (MetricRecord * gmap string MetricRecord) :=
  let metric := match arg with
                | inl name => {| Name := name; GlobName := "";
                                 StepMetric := ""; Options := None |}
                | inr m => m
                end in
  Some (metric, <[key := metric]> target).

(** Modelled from the spec: [addMetric] on the glob metrics. *)
Definition addGlobMetric (metric : MetricRecord) (key : string)
    (target : list (string * MetricRecord))
  : option (MetricRecord * list (string * MetricRecord)) :=
  Some (metric, assoc_put key metric target).

Definition set_definedMetrics (d : gmap string MetricRecord) (mh : MetricHandler)
  : MetricHandler :=
  {| definedMetrics := d; globMetrics := globMetrics mh |}.
Definition set_globMetrics (g : list (string * MetricRecord)) (mh : MetricHandler)
  : MetricHandler :=
  {| definedMetrics := definedMetrics mh; globMetrics := g |}.

Definition localControl : Control := set_Local true Control_zero.

Definition handleStepMetric (key : string) (h : Handler) : outcome Handler :=
  if String.eqb key "" then Ok h
  else
    mh ← deref "metricHandler" (metricHandler h);
    match definedMetrics mh !! key with
    | Some _ => Ok h
    | None =>
        match addMetric (inl key) key (definedMetrics mh) with
        | None => Ok (log LevelCaptureError "error adding metric to map" [] h)
        | Some (metric, defined) =>
            let h := set_metricHandler (Some (set_definedMetrics defined mh)) h in
            let stepRecord := newRecord (Record_Metric metric) (Some localControl) in
            Ok (fwdRecord (Some stepRecord) h)
        end
    end.

Definition handleMetric (record : ServiceRecord) (metric : MetricRecord)
    (h : Handler) : outcome Handler :=
  if negb (String.eqb (GlobName metric) "") then
    mh ← deref "metricHandler" (metricHandler h);
    match addGlobMetric metric (GlobName metric) (globMetrics mh) with
    | None => Ok (log LevelCaptureError "error adding metric to map" [] h)
    | Some (_, globs) =>
        let h := set_metricHandler (Some (set_globMetrics globs mh)) h in
        Ok (fwdRecord (Some record) h)
    end
  else if negb (String.eqb (Name metric) "") then
    mh ← deref "metricHandler" (metricHandler h);
    match addMetric (inr metric) (Name metric) (definedMetrics mh) with
    | None => Ok (log LevelCaptureError "error adding metric to map" [] h)
    | Some (_, defined) =>
        let h := set_metricHandler (Some (set_definedMetrics defined mh)) h in
        h ← handleStepMetric (StepMetric metric) h;
        Ok (fwdRecord (Some record) h)
    end
  else Ok (log LevelCaptureError "invalid metric" [] h).

(** *** History *)

Definition matchHistoryItemMetric (item : HistoryItem) (h : Handler)
  : outcome (option MetricRecord * Handler) :=
  if HasPrefix (hi_Key item) "_" then Ok (None, h)
  else
    mh ← deref "metricHandler" (metricHandler h);
    match definedMetrics mh !! hi_Key item with
    | Some metric => Ok (Some metric, h)
    | None =>
        match createMatchingGlobMetric mh (hi_Key item) with
        | Some metric =>
            let record := newRecord (Record_Metric metric) (Some localControl) in
            h ← handleMetric record metric h;
            Ok (Some metric, h)
        | None => Ok (None, h)
        end
    end.

Definition imputeStepMetric (item : HistoryItem) (h : Handler)
  : outcome (option HistoryItem * Handler) :=
  '(metric, h) ← matchHistoryItemMetric item h;
  let key := GetStepMetric metric in
  if negb (GetStepSync (GetOptions metric) && negb (String.eqb key "")) then
    Ok (None, h)
  else
    ah ← deref "activeHistory" (activeHistory h);
    match GetItem ah key with
    | Some _ => Ok (None, h)
    | None =>
        sh ← deref "summaryHandler" (summaryHandler h);
        match consolidatedSummary sh !! key with
        | Some value =>
            let hi := {| hi_Key := key; hi_ValueJson := value |} in
            Ok (Some hi, set_activeHistory (Some (UpdateValues ah [hi])) h)
        | None => Ok (None, h)
        end
    end.

Definition appendItems (history : HistoryRecord) (items : list HistoryItem)
  : HistoryRecord :=
  {| hr_Step := hr_Step history; hr_Item := hr_Item history ++ items |}.

(** One pass of the loop body of [sampleHistory]. *)
Definition sampleItem (samplers : gmap string ReservoirSampler)
    (item : HistoryItem) : gmap string ReservoirSampler :=
  match Unmarshal_float32 (hi_ValueJson item) with
  | None => samplers
  | Some value =>
      let samplers :=
        match samplers !! hi_Key item with
        | Some _ => samplers
        | None => <[hi_Key item := NewReservoirSampler 48 (Qmake 5 10000)]> samplers
        end in
      alter (fun s => ReservoirSampler_Add s value) (hi_Key item) samplers
  end.

Definition sampleHistory (history : HistoryRecord) (h : Handler) : Handler :=
  let samplers := match samplers h with
                  | None => ∅
                  | Some s => s
                  end in
  set_samplers (Some (fold_left sampleItem (hr_Item history) samplers)) h.

(** The loop of [flushHistory] over the items the record has when the loop
    starts; what it appends to the record is not visited. *)
Fixpoint imputeStepMetrics (items : list HistoryItem) (history : HistoryRecord)
    (h : Handler) : outcome (HistoryRecord * Handler) :=
  match items with
  | [] => Ok (history, h)
  | item :: rest =>
      '(step, h) ← imputeStepMetric item h;
      let history := match step with
                     | Some step => appendItems history [step]
                     | None => history
                     end in
      imputeStepMetrics rest history h
  end.

Definition flushHistory (history : HistoryRecord) (h : Handler)
  : outcome Handler :=
  match hr_Item history with
  | [] => Ok h
  | _ =>
      ah ← deref "activeHistory" (activeHistory h);
      let '(runTime, h) :=
        match GetItem ah "_timestamp" with
        | Some item =>
            match ParseFloat (hi_ValueJson item) with
            | None => (f64_zero, log LevelCaptureError "error parsing timestamp" [] h)
            | Some val => (f64_sub val (Timer_GetStartTimeMicro (timer h)), h)
            end
        | None => (f64_zero, h)
        end in
      let history :=
        appendItems history
          [{| hi_Key := "_runtime"; hi_ValueJson := Sprintf_f runTime |}] in
      let history :=
        if negb (XShared (settings h)) then
          appendItems history
            [{| hi_Key := "_step";
                hi_ValueJson := Sprintf_d (GetNum (hr_Step history)) |}]
        else history in
      '(history, h) ←
        match metricHandler h with
        | Some _ => imputeStepMetrics (hr_Item history) history h
        | None => Ok (history, h)
        end;
      let h := sampleHistory history h in
      let record := newRecord (Record_History history) None in
      let h := fwdRecord (Some record) h in
      match summaryHandler h with
      | None => Ok h
      | Some sh =>
          let '(consolidated, summary) :=
            ConsolidateSummaryItems (consolidatedSummary sh) (hr_Item history) in
          Ok (set_summaryHandler
                (Some {| consolidatedSummary := consolidated;
                         summaryDelta := updateSummaryDelta (summaryDelta sh) summary |})
                h)
      end
  end.

(** Modelled from the spec: [ActiveHistory.Flush] hands the step and the
    items to the flush callback, if there is one, and clears the
    accumulator; on the nil accumulator it does nothing. *)
Definition ActiveHistory_Flush (h : Handler) : outcome Handler :=
  match activeHistory h with
  | None => Ok h
  | Some ah =>
      h ← match flush ah with
          | None => Ok h
          | Some FlushWithStep =>
              flushHistory {| hr_Step := step ah; hr_Item := GetValues ah |} h
          | Some FlushWithoutStep =>
              flushHistory {| hr_Step := None; hr_Item := GetValues ah |} h
          end;
      Ok (set_activeHistory (Clear <$> activeHistory h) h)
  end.

Definition handleHistory (history : HistoryRecord) (h : Handler)
  : outcome Handler :=
  let ah := NewActiveHistory (Some (GetNum (hr_Step history))) None in
  let h := set_activeHistory (Some (UpdateValues ah (hr_Item history))) h in
  h ← flushHistory history h;
  ActiveHistory_Flush h.

Definition handlePartialHistoryAsync (request : PartialHistoryRequest)
    (h : Handler) : outcome Handler :=
  let h := match activeHistory h with
           | None =>
               set_activeHistory
                 (Some (NewActiveHistory None (Some FlushWithoutStep))) h
           | Some _ => h
           end in
  ah ← deref "activeHistory" (activeHistory h);
  let h := set_activeHistory (Some (UpdateValues ah (ph_Item request))) h in
  if bool_decide (ph_Action request = None) || GetFlush (ph_Action request)
  then ActiveHistory_Flush h
  else Ok h.

(** The message [handlePartialHistorySync] prints for a step that is
    behind the current one. *)
Definition stepRegressionMessage (step current : Z) : string :=
  "steps must be monotonically increasing, received history record for a step ("
  +:+ Sprintf_d step +:+ ") "
  +:+ "that is less than the current step (" +:+ Sprintf_d current
  +:+ ") this data will be ignored. if you need to log data out of order, "
  +:+ "please see: https://wandb.me/define-metric".

(** How the first block of [handlePartialHistorySync] ends: the function
    goes on, or it returns. *)
Inductive flow (A : Type) := Continue (a : A) | Return (a : A).
Arguments Continue {A} a.
Arguments Return {A} a.

(** [h.activeHistory.GetStep().Num] *)
Definition currentStep (h : Handler) : outcome Z :=
  ah ← deref "activeHistory" (activeHistory h);
  s ← deref "activeHistory.step" (GetStep ah);
  Ok (Num s).

(** [h.activeHistory.UpdateStep(step)] *)
Definition updateStep (n : Z) (h : Handler) : outcome Handler :=
  ah ← deref "activeHistory" (activeHistory h);
  Ok (set_activeHistory (Some (UpdateStep ah n)) h).

(** [h.activeHistory.UpdateValues(items)] *)
Definition updateValues (items : list HistoryItem) (h : Handler)
  : outcome Handler :=
  ah ← deref "activeHistory" (activeHistory h);
  Ok (set_activeHistory (Some (UpdateValues ah items)) h).

(** The accumulator of the synchronous mode is made on first use. *)
Definition ensureActiveHistorySync (h : Handler) : Handler :=
  match activeHistory h with
  | None =>
      set_activeHistory
        (Some (NewActiveHistory (Some (GetStartingStep (runRecord h)))
                 (Some FlushWithStep))) h
  | Some _ => h
  end.

(** The flush condition at the end of [handlePartialHistorySync]. *)
Definition flushRequested (request : PartialHistoryRequest) : bool :=
  (bool_decide (ph_Step request = None) && bool_decide (ph_Action request = None))
  || GetFlush (ph_Action request).

Definition handlePartialHistorySync (request : PartialHistoryRequest)
    (h : Handler) : outcome Handler :=
  let h := ensureActiveHistorySync h in
  r ← match ph_Step request with
      | Some s =>
          let step := Num s in
          current ← currentStep h;
          if step >? current then
            h ← ActiveHistory_Flush h;
            h ← updateStep step h;
            Ok (Continue h)
          else if step <? current then
            let h := log LevelCaptureWarn
                       "handlePartialHistorySync: ignoring history record"
                       [("step", Sprintf_d step); ("current", Sprintf_d current)] h in
            let msg := stepRegressionMessage step current in
            Ok (Return (Printer_Write msg h))
          else Ok (Continue h)
      | None => Ok (Continue h)
      end;
  match r with
  | Return h => Ok h
  | Continue h =>
      h ← updateValues (ph_Item request) h;
      if flushRequested request then
        h ← ActiveHistory_Flush h;
        current ← currentStep h;
        updateStep (wrap64 (current + 1)) h
      else Ok h
  end.

Definition handleRequestPartialHistory (request : PartialHistoryRequest)
    (h : Handler) : outcome Handler :=
  if XShared (settings h) then handlePartialHistoryAsync request h
  else handlePartialHistorySync request h.

(** *** Summary *)

Definition fwdSummary (h : Handler) : outcome Handler :=
  sh ← deref "summaryHandler" (summaryHandler h);
  let summaryRecord :=
    {| Update := map (fun kv => {| si_Key := fst kv; si_ValueJson := snd kv |})
                     (map_to_list (summaryDelta sh)) |} in
  let record := newRecord (Record_Summary summaryRecord) None in
  let h := fwdRecord (Some record) h in
  Ok (set_summaryHandler
        (Some {| consolidatedSummary := consolidatedSummary sh; summaryDelta := ∅ |})
        h).

(** Modelled from the spec: [summaryHandler.Debounce(f)] runs the flush
    action when the rate limiter has capacity. *)
Definition SummaryHandler_Debounce (w : World) (h : Handler) : outcome Handler :=
  _ ← deref "summaryHandler" (summaryHandler h);
  if limiter_allow w then fwdSummary h else Ok h.

(** Modelled from the spec: [summaryHandler.Flush(f)] runs the flush action
    unconditionally. *)
Definition SummaryHandler_Flush (h : Handler) : outcome Handler :=
  _ ← deref "summaryHandler" (summaryHandler h);
  fwdSummary h.

(** [fmt.Sprintf(`{"runtime": %d}`, runtime)] *)
Definition runtimeJson (runtime : Z) : string :=
  "{" +:+ String (Ascii.ascii_of_nat 34) "runtime"
  +:+ String (Ascii.ascii_of_nat 34) ": " +:+ Sprintf_d runtime +:+ "}".

Definition wandbRuntimeItem (runtime : Z) : SummaryItem :=
  {| si_Key := "_wandb"; si_ValueJson := runtimeJson runtime |}.

(** [ConsolidateSummaryItems] on the consolidated summary of the handler,
    followed by [updateSummaryDelta]. *)
Definition consolidateAndUpdateDelta {T} `{genericItem T} (items : list T)
    (h : Handler) : outcome Handler :=
  sh ← deref "summaryHandler" (summaryHandler h);
  let '(consolidated, summaryRecord) :=
    ConsolidateSummaryItems (consolidatedSummary sh) items in
  Ok (set_summaryHandler
        (Some {| consolidatedSummary := consolidated;
                 summaryDelta := updateSummaryDelta (summaryDelta sh) summaryRecord |})
        h).

Definition handleSummary (w : World) (summary : SummaryRecord) (h : Handler)
  : outcome Handler :=
  if XSync (settings h) then Ok h
  else
    let runtime := Seconds_int32 (Timer_Elapsed w (timer h)) in
    let update := Update summary ++ [wandbRuntimeItem runtime] in
    consolidateAndUpdateDelta update h.

Definition SummaryFileName : string := "wandb-summary.json".
Definition MetaFileName : string := "wandb-metadata.json".
Definition DiffFileName : string := "diff.patch".
Definition RequirementsFileName : string := "requirements.txt".

(** A call on the uploader, when there is one. *)
Definition uploaderCall (c : UploaderCall) (h : Handler) : Handler :=
  match runfilesUploaderOrNil h with
  | None => h
  | Some calls => set_runfilesUploaderOrNil (Some (calls ++ [c])) h
  end.

Definition writeFile (path : string) (content : FileContent) (h : Handler)
  : Handler :=
  set_files (files h ++ [{| fw_path := path; fw_content := content |}]) h.

Definition writeAndSendSummaryFile (w : World) (h : Handler) : outcome Handler :=
  if XSync (settings h) then Ok h
  else
    let summaryFile := Join (FilesDir (settings h)) SummaryFileName in
    sh ← deref "summaryHandler" (summaryHandler h);
    if negb (marshal_summary_ok w) then
      Ok (log LevelError
            "handler: writeAndSendSummaryFile: error marshalling summary" [] h)
    else
      let h :=
        if write_summary_ok w
        then writeFile summaryFile (SummaryJson (consolidatedSummary sh)) h
        else log LevelError
               "handler: writeAndSendSummaryFile: failed to write config file" [] h in
      Ok (uploaderCall (UploadNow SummaryFileName) h).

(** *** Final, footer and exit *)

Definition handleFinal (h : Handler) : Handler :=
  if XSync (settings h) then h
  else
    let record := newRecord Record_Final None in
    fwdRecordWithControl (Some record) [set_AlwaysSend false] h.

Definition handleFooter (h : Handler) : Handler :=
  if XSync (settings h) then h
  else
    let record := newRecord Record_Footer None in
    fwdRecordWithControl (Some record) [set_AlwaysSend false] h.

Definition handleExit (w : World) (record : ServiceRecord) (exit : RunExitRecord)
    (h : Handler) : outcome Handler :=
  let h := set_timer (Timer_Pause w (timer h)) h in
  let runtime := Seconds_int32 (Timer_Elapsed w (timer h)) in
  let exit := {| ExitCode := ExitCode exit; Runtime := runtime |} in
  let record := set_RecordType (Some (Record_Exit exit)) record in
  h ← (if negb (XSync (settings h))
       then consolidateAndUpdateDelta [wandbRuntimeItem runtime] h
       else Ok h);
  Ok (fwdRecordWithControl (Some record)
        [fun control =>
           let control := set_AlwaysSend true control in
           if XSync (settings h) then set_Local true control else control]
        h).

(** *** Defer *)

Definition monitorCall (c : MonitorCall) (h : Handler) : Handler :=
  set_systemMonitor (systemMonitor h ++ [c]) h.

Definition tbCall (c : TBCall) (h : Handler) : Handler :=
  set_tbHandler (tbHandler h ++ [c]) h.

(** The [switch] of [handleRequestDefer]: what the handler does for a state
    before it forwards the request. *)
Definition deferSideEffect (w : World) (state : DeferState) (h : Handler)
  : outcome Handler :=
  match state with
  | BEGIN => Ok h
  | FLUSH_RUN => Ok h
  | FLUSH_STATS => Ok (monitorCall Monitor_Stop h)
  | FLUSH_PARTIAL_HISTORY => ActiveHistory_Flush h
  | FLUSH_TB => Ok (tbCall TB_Close h)
  | FLUSH_SUM =>
      h ← handleSummary w {| Update := [] |} h;
      h ← SummaryHandler_Flush h;
      writeAndSendSummaryFile w h
  | FLUSH_DEBOUNCER => Ok h
  | FLUSH_OUTPUT => Ok h
  | FLUSH_JOB => Ok h
  | FLUSH_DIR => Ok h
  | FLUSH_FP => Ok (uploaderCall UploadRemaining h)
  | JOIN_FP => Ok h
  | FLUSH_FS => Ok h
  | FLUSH_FINAL => Ok (handleFooter (handleFinal h))
  | END =>
      stats ← deref "fileTransferStats" (fileTransferStats h);
      Ok (set_fileTransferStats (Some (SetDone stats)) h)
  | DeferState_other n =>
      Ok (log LevelCaptureError "unknown defer state"
            [("error", "handleDefer: unknown defer state " +:+ Sprintf_d n)] h)
  end.

Definition handleRequestDefer (w : World) (record : ServiceRecord)
    (request : DeferRequest) (h : Handler) : outcome Handler :=
  h ← deferSideEffect w (State request) h;
  (* proto.Clone(record): the copy has the value of the record *)
  let record := record in
  Ok (fwdRecordWithControl (Some record)
        [set_AlwaysSend true; set_Local true] h).

(** *** Poll exit *)

Definition handleRequestPollExit (record : ServiceRecord) (h : Handler)
  : Handler :=
  let pollExitResponse :=
    match fileTransferStats h with
    | Some stats =>
        {| PusherStats := Some (GetFilesStats stats);
           GetFileCounts_ := Some (GetFileCounts stats);
           Done := IsDone stats |}
    | None =>
        {| PusherStats := None; GetFileCounts_ := None; Done := true |}
    end in
  let response :=
    {| GetResponseType := Some (Response_PollExitResponse pollExitResponse) |} in
  respond record response h.

(** *** Header, files and run start *)

Definition handleHeader (record : ServiceRecord) (header : HeaderRecord)
    (h : Handler) : Handler :=
  let versionString := Version +:+ "+" +:+ commit h in
  let header :=
    {| GetVersionInfo := Some {| Producer := versionString;
                                 MinConsumer := MinServerVersion |} |} in
  let record := set_RecordType (Some (Record_Header header)) record in
  fwdRecordWithControl (Some record) [set_AlwaysSend false] h.

(** [record.GetFiles()] *)
Definition GetFiles (record : ServiceRecord) : option FilesRecord :=
  match GetRecordType record with
  | Some (Record_Files f) => f
  | _ => None
  end.

Definition handleFiles (record : ServiceRecord) (h : Handler) : Handler :=
  match GetFiles record with
  | None => h
  | Some _ => fwdRecord (Some record) h
  end.

Definition filesRecord (items : list FilesItem) : ServiceRecord :=
  newRecord (Record_Files (Some {| Files := items |})) None.

Definition wandbFile (path : string) : FilesItem :=
  {| Path := path; IsWandbFile := true |}.

Definition handleCodeSave (w : World) (h : Handler) : Handler :=
  let programRelative := ProgramRelpath (settings h) in
  if String.eqb programRelative "" then
    log LevelWarn "handleCodeSave: program relative path is empty" [] h
  else
    let programAbsolute := ProgramAbspath (settings h) in
    if negb (program_exists w) then
      log LevelWarn "handleCodeSave: program absolute path does not exist"
        [("path", programAbsolute)] h
    else
      let codeDir := Join (FilesDir (settings h)) "code" in
      if negb (mkdir_ok w) then h
      else
        let savedProgram := Join codeDir programRelative in
        let copied :=
          if saved_program_exists w then Some h
          else if copy_ok w
               then Some (writeFile savedProgram (ProgramCopy programAbsolute) h)
               else None in
        match copied with
        | None => h
        | Some h =>
            handleFiles (filesRecord [wandbFile (Join "code" programRelative)]) h
        end.

Definition handlePatchSave (w : World) (h : Handler) : Handler :=
  if DisableGit (settings h) then h
  else if negb (git_available w) then h
  else
    let filesDirPath := FilesDir (settings h) in
    let file := Join filesDirPath DiffFileName in
    let '(files1, h) :=
      if patch_head_ok w
      then ([wandbFile DiffFileName], writeFile file (GitPatch "HEAD") h)
      else ([], log LevelError "error generating diff" [] h) in
    let '(files2, h) :=
      match latest_commit w with
      | None => (files1, log LevelError "error getting latest commit" [] h)
      | Some output =>
          let diffFileName := "diff_" +:+ output +:+ ".patch" in
          let file := Join filesDirPath diffFileName in
          if patch_upstream_ok w
          then (files1 ++ [wandbFile diffFileName],
                writeFile file (GitPatch "@{u}") h)
          else (files1, log LevelError "error generating diff" [] h)
      end in
    match files2 with
    | [] => h
    | _ => handleFiles (filesRecord files2) h
    end.

Definition handleMetadata (w : World) (request : MetadataRequest)
    (merged : option MetadataRequest) (h : Handler) : Handler :=
  if XDisableMeta (settings h) then h
  else if negb (marshal_metadata_ok w) then
    log LevelCaptureError "error marshalling metadata" [] h
  else if negb (write_metadata_ok w) then
    log LevelCaptureError "error writing metadata file" [] h
  else
    let filePath := Join (FilesDir (settings h)) MetaFileName in
    let h := writeFile filePath (MetadataJson request merged) h in
    handleFiles (filesRecord [wandbFile MetaFileName]) h.

Definition handleRequestRunStart (w : World) (record : ServiceRecord)
    (request : RunStartRequest) (h : Handler) : outcome Handler :=
  run ← deref "run" (Run request);
  let h := set_timer (Timer_Start Timer_zero (StartTime run)) h in
  let h := set_runRecord (Some run) h in
  let h := fwdRecord (Some record) h in
  let h := if negb (XDisableStats (settings h))
           then monitorCall Monitor_Do h else h in
  let h := if SaveCode (settings h)
           then handlePatchSave w (handleCodeSave w h) else h in
  let git :=
    match Git run with
    | Some g =>
        if negb (String.eqb (RemoteUrl g) "") || negb (String.eqb (Commit g) "")
        then Some {| RemoteUrl := RemoteUrl g; Commit := Commit g |}
        else None
    | None => None
    end in
  let s := settings h in
  let metadata :=
    {| md_Os := XOs s; md_Python := XPython s; md_Host := Host s;
       md_Cuda := XCuda s; md_Program := Program s;
       md_CodePath := ProgramRelpath s; md_CodePathLocal := XCodePathLocal s;
       md_Email := Email s; md_Root := RootDir s; md_Username := Username s;
       md_Docker := Docker s; md_Executable := XExecutable s;
       md_Args := XArgs s; md_Colab := ColabUrl s;
       md_StartedAt := StartTime run; md_Git := git |} in
  let systemInfo := if negb (XDisableStats s) then probe w else None in
  let h := handleMetadata w metadata systemInfo h in
  Ok (respond record {| GetResponseType := None |} h).

Definition requirementLine (pkg : PythonPackage) : string :=
  pkg_Name pkg +:+ "==" +:+ pkg_Version pkg +:+ String (Ascii.ascii_of_nat 10) "".

Definition handleRequestPythonPackages (w : World)
    (request : PythonPackagesRequest) (h : Handler) : Handler :=
  let filename := Join (FilesDir (settings h)) RequirementsFileName in
  if negb (create_requirements_ok w) then
    log LevelError "error creating requirements file" [] h
  else
    let lines := map requirementLine (Package request) in
    match requirements_fail_at w with
    | Some n =>
        if (n <? length lines)%nat then
          let h := writeFile filename (RequirementsTxt (take n lines)) h in
          log LevelError "error writing requirements file" [] h
        else
          let h := writeFile filename (RequirementsTxt lines) h in
          handleFiles (filesRecord [wandbFile RequirementsFileName]) h
    | None =>
        let h := writeFile filename (RequirementsTxt lines) h in
        handleFiles (filesRecord [wandbFile RequirementsFileName]) h
    end.

(** *** The other requests *)

Definition emptyResponse : Response := {| GetResponseType := None |}.

Definition handleRequestLogin (record : ServiceRecord) (h : Handler) : Handler :=
  if GetReqResp (GetControl record) then respond record emptyResponse h else h.

Definition handleRequestAttach (record : ServiceRecord) (h : Handler) : Handler :=
  respond record
    {| GetResponseType := Some (Response_AttachResponse (runRecord h)) |} h.

Definition handleRequestCancel (request : CancelRequest) (h : Handler) : Handler :=
  let cancelSlot := CancelSlot request in
  if negb (String.eqb cancelSlot "")
  then set_mailbox (mailbox h ++ [cancelSlot]) h
  else h.

Definition handleRequestPause (w : World) (h : Handler) : Handler :=
  monitorCall Monitor_Stop (set_timer (Timer_Pause w (timer h)) h).

Definition handleRequestResume (w : World) (h : Handler) : Handler :=
  monitorCall Monitor_Do (set_timer (Timer_Resume w (timer h)) h).

Definition handleRequestGetSummary (record : ServiceRecord) (h : Handler)
  : outcome Handler :=
  sh ← deref "summaryHandler" (summaryHandler h);
  let items :=
    map (fun kv => {| si_Key := fst kv; si_ValueJson := snd kv |})
        (map_to_list (consolidatedSummary sh)) in
  Ok (respond record
        {| GetResponseType :=
             Some (Response_GetSummaryResponse {| gs_Item := items |}) |} h).

Definition handleRequestGetSystemMetrics (w : World) (record : ServiceRecord)
    (h : Handler) : Handler :=
  let sm := monitor_buffer w in
  let metrics :=
    map (fun ks =>
           (fst ks,
            map (fun sample => {| sample_Timestamp := fst sample;
                                  sample_Value := f64_to_f32 (snd sample) |})
                (snd ks))) sm in
  respond record
    {| GetResponseType := Some (Response_GetSystemMetricsResponse metrics) |} h.

(** Modelled from the spec: [internalPrinter.Read()] hands out the queued
    messages and empties the queue. *)
Definition handleRequestInternalMessages (record : ServiceRecord) (h : Handler)
  : Handler :=
  let messages := internalPrinter h in
  let h := set_internalPrinter [] h in
  respond record
    {| GetResponseType :=
         Some (Response_InternalMessagesResponse {| Warning := messages |}) |} h.

Definition handleRequestSampledHistory (record : ServiceRecord) (h : Handler)
  : Handler :=
  let response :=
    match samplers h with
    | Some samplers =>
        let items :=
          map (fun ks => {| sh_Key := fst ks;
                            ValuesFloat := ReservoirSampler_Sample (snd ks) |})
              (map_to_list samplers) in
        {| GetResponseType := Some (Response_SampledHistoryResponse items) |}
    | None => emptyResponse
    end in
  respond record response h.

Definition handleTBrecord (w : World) (record : ServiceRecord) (h : Handler)
  : Handler :=
  let h := tbCall (TB_Handle record) h in
  if tb_handle_fails w
  then log LevelCaptureError "error handling tbrecord" [] h
  else h.

(** *** The dispatcher *)

Definition handleRequest (w : World) (record : ServiceRecord)
    (request : option RequestType) (h : Handler) : outcome Handler :=
  match request with
  | Some Request_Login => Ok (handleRequestLogin record h)
  | Some Request_CheckVersion => Ok (respond record emptyResponse h)
  | Some Request_RunStatus => Ok (respond record emptyResponse h)
  | Some Request_Metadata => Ok h
  | Some Request_SummaryRecord => Ok h
  | Some Request_TelemetryRecord => Ok h
  | Some Request_TestInject => Ok h
  | Some Request_JobInfo => Ok h
  | Some Request_Status => Ok (respond record emptyResponse h)
  | Some Request_SenderMark => Ok h
  | Some Request_StatusReport => Ok h
  | Some Request_Keepalive => Ok h
  | Some Request_Shutdown => Ok (respond record emptyResponse h)
  | Some (Request_Defer d) => handleRequestDefer w record d h
  | Some Request_GetSummary => handleRequestGetSummary record h
  | Some Request_NetworkStatus => Ok (fwdRecord (Some record) h)
  | Some (Request_PartialHistory p) => handleRequestPartialHistory p h
  | Some Request_PollExit => Ok (handleRequestPollExit record h)
  | Some (Request_RunStart r) => handleRequestRunStart w record r h
  | Some Request_SampledHistory => Ok (handleRequestSampledHistory record h)
  | Some Request_ServerInfo =>
      Ok (fwdRecordWithControl (Some record) [set_AlwaysSend true] h)
  | Some (Request_PythonPackages p) => Ok (handleRequestPythonPackages w p h)
  | Some Request_StopStatus => Ok (fwdRecord (Some record) h)
  | Some Request_LogArtifact => Ok (fwdRecord (Some record) h)
  | Some Request_DownloadArtifact => Ok (fwdRecord (Some record) h)
  | Some Request_Attach => Ok (handleRequestAttach record h)
  | Some Request_Pause => Ok (handleRequestPause w h)
  | Some Request_Resume => Ok (handleRequestResume w h)
  | Some (Request_Cancel c) => Ok (handleRequestCancel c h)
  | Some Request_GetSystemMetrics => Ok (handleRequestGetSystemMetrics w record h)
  | Some Request_InternalMessages => Ok (handleRequestInternalMessages record h)
  | Some Request_Sync => Ok (fwdRecord (Some record) h)
  | Some Request_SenderRead => Ok (fwdRecord (Some record) h)
  | Some Request_JobInput => Ok (fwdRecord (Some record) h)
  | None => Panic "handler: handleRequest: request type is nil"
  | Some (Request_other t) =>
      Panic ("handler: handleRequest: unknown request type " +:+ t)
  end.

Definition handleRecord (w : World) (record : ServiceRecord) (h : Handler)
  : outcome Handler :=
  h ← SummaryHandler_Debounce w h;
  match GetRecordType record with
  | Some Record_Alert => Ok (fwdRecord (Some record) h)
  | Some Record_Artifact => Ok (fwdRecord (Some record) h)
  | Some Record_Config => Ok (fwdRecord (Some record) h)
  | Some (Record_Exit e) => handleExit w record e h
  | Some (Record_Files _) => Ok (handleFiles record h)
  | Some Record_Final => Ok (handleFinal h)
  | Some Record_Footer => Ok (handleFooter h)
  | Some (Record_Header hd) => Ok (handleHeader record hd h)
  | Some (Record_History hr) => handleHistory hr h
  | Some Record_LinkArtifact => Ok (fwdRecord (Some record) h)
  | Some (Record_Metric m) => handleMetric record m h
  | Some Record_Output => Ok (fwdRecord (Some record) h)
  | Some Record_OutputRaw => Ok (fwdRecord (Some record) h)
  | Some Record_Preempting => Ok (fwdRecord (Some record) h)
  | Some (Record_Request r) => handleRequest w record r h
  | Some Record_Run =>
      Ok (fwdRecordWithControl (Some record) [set_AlwaysSend true] h)
  | Some Record_Stats => Ok (fwdRecord (Some record) h)
  | Some (Record_Summary s) => handleSummary w s h
  | Some Record_Tbrecord => Ok (handleTBrecord w record h)
  | Some Record_Telemetry => Ok (fwdRecord (Some record) h)
  | Some Record_UseArtifact => Ok (fwdRecord (Some record) h)
  | None => Panic "handler: handleRecord: record type is nil"
  | Some (Record_other t) =>
      Panic ("handler: handleRecord: unknown record type " +:+ t)
  end.

(** The loop of [Do]: the records of the inbound channel are handled in
    order, each with what the world answers while it is handled. *)
Fixpoint handleRecords (inputs : list (World * ServiceRecord)) (h : Handler)
  : outcome Handler :=
  match inputs with
  | [] => Ok h
  | (w, record) :: rest =>
      h ← handleRecord w record h;
      handleRecords rest h
  end.

(** [NewHandler(ctx, logger, opts...)] with no option but the settings. *)
Definition NewHandler (c : string) (s : Settings) : Handler :=
  {| commit := c; settings := s; logger := []; fwdChan := []; outChan := [];
     timer := Timer_zero; runRecord := None; summaryHandler := None;
     activeHistory := None; samplers := None; metricHandler := None;
     systemMonitor := []; tbHandler := []; runfilesUploaderOrNil := None;
     fileTransferStats := None; internalPrinter := []; mailbox := [];
     files := [] |}.

End Model.

(** ** A platform for the examples

    Numbers are whole: a float is the integer it holds, a number is read
    from its canonical decimal form and printed by [%f] with six zeros
    after the point; the clock counts whole seconds.  This agrees with Go on
    the canonical integer literals below [2 ^ 53] in size, and on texts that
    are not numbers in any syntax, which both reject.  The examples use no
    other values. *)

Definition parseInteger (s : string) : option Z :=
  match NilZero.int_of_string s with
  | Some i => if String.eqb (Sprintf_d (Z.of_int i)) s then Some (Z.of_int i) else None
  | None => None
  end.

(** A glob of literals, [*] and [?], where neither [*] nor [?] matches the
    separator. *)
Fixpoint globMatch (pattern : string) : string -> bool :=
  match pattern with
  | EmptyString => fun name =>
      match name with EmptyString => true | _ => false end
  | String p pattern' =>
      if Ascii.eqb p "*"%char then
        fix star (name : string) : bool :=
          globMatch pattern' name
          || match name with
             | EmptyString => false
             | String c name' => negb (Ascii.eqb c "/"%char) && star name'
             end
      else if Ascii.eqb p "?"%char then
        fun name =>
          match name with
          | EmptyString => false
          | String c name' => negb (Ascii.eqb c "/"%char) && globMatch pattern' name'
          end
      else
        fun name =>
          match name with
          | EmptyString => false
          | String c name' => Ascii.eqb c p && globMatch pattern' name'
          end
  end.

Definition ExamplePlatform : Platform :=
  {| float64 := Z;
     float32 := Z;
     f64_zero := 0;
     f64_sub := Z.sub;
     ParseFloat := parseInteger;
     Sprintf_f := fun x => Sprintf_d x +:+ ".000000";
     Unmarshal_float32 := parseInteger;
     micros_to_seconds := fun us => us / 1000000;
     Match := fun pattern name => Some (globMatch pattern name);
     f64_to_f32 := fun x => x;
     reservoir := fun k _ offered => take k offered;
     Version := "0.0.0";
     MinServerVersion := "0.0.0" |}.

(** * Vocabulary of the properties *)

(** [sub] occurs in [s]. *)
Definition contains (s sub : string) : Prop :=
  exists pre post, s = pre +:+ sub +:+ post.

Section Vocabulary.
Context {P : Platform}.

(** The history records among forwarded records, in order. *)
Definition historyRecords (l : list ServiceRecord) : list HistoryRecord :=
  omap (fun r => match GetRecordType r with
                 | Some (Record_History hr) => Some hr
                 | _ => None
                 end) l.

(** How often a key occurs in a list of items. *)
Definition countKey (key : string) (items : list HistoryItem) : nat :=
  length (filter (fun it => hi_Key it = key) items).

Definition isMetricRecord (r : ServiceRecord) : Prop :=
  exists m, GetRecordType r = Some (Record_Metric m).

(** What does not change while the metrics of history items are resolved
    and step metrics are imputed: only metric records are forwarded, the
    accumulator keeps its step and callback, the registry stays there. *)
Record imputeFrame (h h' : Handler) : Prop := {
  frame_commit : commit h' = commit h;
  frame_settings : settings h' = settings h;
  frame_outChan : outChan h' = outChan h;
  frame_timer : timer h' = timer h;
  frame_runRecord : runRecord h' = runRecord h;
  frame_summaryHandler : summaryHandler h' = summaryHandler h;
  frame_samplers : samplers h' = samplers h;
  frame_systemMonitor : systemMonitor h' = systemMonitor h;
  frame_tbHandler : tbHandler h' = tbHandler h;
  frame_uploader : runfilesUploaderOrNil h' = runfilesUploaderOrNil h;
  frame_stats : fileTransferStats h' = fileTransferStats h;
  frame_printer : internalPrinter h' = internalPrinter h;
  frame_mailbox : mailbox h' = mailbox h;
  frame_files : files h' = files h;
  frame_fwdChan :
    exists ms, fwdChan h' = fwdChan h ++ ms /\ Forall isMetricRecord ms;
  frame_metricHandler :
    is_Some (metricHandler h) <-> is_Some (metricHandler h');
  frame_activeHistory :
    match activeHistory h with
    | Some ah =>
        exists ah', activeHistory h' = Some ah' /\
                    step ah' = step ah /\ flush ah' = flush ah
    | None => activeHistory h' = None
    end
}.

(** No registered metric has [key] as its step metric. *)
Definition stepMetricsAvoid (key : string) (h : Handler) : Prop :=
  forall mh, metricHandler h = Some mh ->
    (forall k m, definedMetrics mh !! k = Some m -> StepMetric m <> key) /\
    (forall p m, (p, m) ∈ globMetrics mh -> StepMetric m <> key).

(** The run time [flushHistory] computes from the accumulator. *)
Definition flushRunTime (ah : ActiveHistory) (h : Handler) : float64 :=
  match GetItem ah "_timestamp" with
  | Some it =>
      match ParseFloat (hi_ValueJson it) with
      | Some val => f64_sub val (Timer_GetStartTimeMicro (timer h))
      | None => f64_zero
      end
  | None => f64_zero
  end.

Definition runtimeItem (rt : float64) : HistoryItem :=
  {| hi_Key := "_runtime"; hi_ValueJson := Sprintf_f rt |}.

Definition stepItem (n : Z) : HistoryItem :=
  {| hi_Key := "_step"; hi_ValueJson := Sprintf_d n |}.

(** The internal items [flushHistory] appends to a record. *)
Definition internalItems (history : HistoryRecord) (ah : ActiveHistory)
    (h : Handler) : list HistoryItem :=
  runtimeItem (flushRunTime ah h)
  :: (if XShared (settings h) then [] else [stepItem (GetNum (hr_Step history))]).

(** The consolidated summary and the delta after the items of a flushed
    record were folded into them. *)
Definition summaryAfter (items : list HistoryItem) (sh : SummaryHandler)
  : SummaryHandler :=
  {| consolidatedSummary :=
       fold_left (fun m it => <[hi_Key it := hi_ValueJson it]> m) items
         (consolidatedSummary sh);
     summaryDelta :=
       fold_left (fun m it => <[hi_Key it := hi_ValueJson it]> m) items
         (summaryDelta sh) |}.

(** The metric a history item resolves to in a registry: the defined metric
    of that name first, then the first matching glob. *)
Definition resolvedMetric (mh : MetricHandler) (item : HistoryItem)
  : option MetricRecord :=
  if HasPrefix (hi_Key item) "_" then None
  else match definedMetrics mh !! hi_Key item with
       | Some metric => Some metric
       | None => createMatchingGlobMetric mh (hi_Key item)
       end.

(** The item [imputeStepMetric] makes for a resolved metric, if any. *)
Definition imputedItem (metric : option MetricRecord) (ah : ActiveHistory)
    (sh : SummaryHandler) : option HistoryItem :=
  let key := GetStepMetric metric in
  if GetStepSync (GetOptions metric) && negb (String.eqb key "") then
    match GetItem ah key with
    | Some _ => None
    | None =>
        match consolidatedSummary sh !! key with
        | Some value => Some {| hi_Key := key; hi_ValueJson := value |}
        | None => None
        end
    end
  else None.

(** The handler after [flushHistory] read the time stamp: a time stamp that
    does not parse is logged. *)
Definition afterTimestamp (ah : ActiveHistory) (h : Handler) : Handler :=
  match GetItem ah "_timestamp" with
  | Some it =>
      match ParseFloat (hi_ValueJson it) with
      | Some _ => h
      | None => log LevelCaptureError "error parsing timestamp" [] h
      end
  | None => h
  end.

(** A record with its internal items appended. *)
Definition withInternalItems (history : HistoryRecord) (ah : ActiveHistory)
    (h : Handler) : HistoryRecord :=
  {| hr_Step := hr_Step history;
     hr_Item := hr_Item history ++ internalItems history ah h |}.

(** The end of [flushHistory]: the record is sampled, forwarded and folded
    into the summary. *)
Definition emitHistory (flushed : HistoryRecord) (h : Handler) : Handler :=
  let h2 := fwdRecord (Some (newRecord (Record_History flushed) None))
              (sampleHistory flushed h) in
  match summaryHandler h with
  | Some sh => set_summaryHandler (Some (summaryAfter (hr_Item flushed) sh)) h2
  | None => h2
  end.

(** The values of a key that parse as a 32-bit float, in the order of the
    items. *)
Definition parsedValues (key : string) (items : list HistoryItem)
  : list float32 :=
  omap (fun it => if decide (hi_Key it = key)
                  then Unmarshal_float32 (hi_ValueJson it) else None) items.

(** The values a key was offered so far. *)
Definition offeredTo (samplers : gmap string ReservoirSampler) (key : string)
  : list float32 :=
  match samplers !! key with
  | Some s => rs_offered s
  | None => []
  end.

(** The samplers map, the nil map read as the empty one. *)
Definition samplersOf (h : Handler) : gmap string ReservoirSampler :=
  match samplers h with
  | Some s => s
  | None => ∅
  end.

Definition isHistoryRecord (r : ServiceRecord) : Prop :=
  exists hr, GetRecordType r = Some (Record_History hr).

(** The internal items a flush gives to a record: [_runtime], and outside
    the shared mode [_step] with the step of the record. *)
Definition hasInternalItems (shared : bool) (hr : HistoryRecord) : Prop :=
  (1 <= countKey "_runtime" (hr_Item hr))%nat /\
  (shared = false ->
   stepItem (GetNum (hr_Step hr)) ∈ hr_Item hr /\
   (1 <= countKey "_step" (hr_Item hr))%nat).

(** A history record that has the internal items. *)
Definition isFlushedRecord (shared : bool) (r : ServiceRecord) : Prop :=
  exists hr, GetRecordType r = Some (Record_History hr) /\
             hasInternalItems shared hr.

(** A record that, if it is a history record, has the internal items. *)
Definition historyFlushed (shared : bool) (r : ServiceRecord) : Prop :=
  forall hr, GetRecordType r = Some (Record_History hr) ->
             hasInternalItems shared hr.

(** What a flush leaves alone: it forwards metric records and history
    records with their internal items and nothing else, writes no file,
    answers nothing; the accumulator keeps its step and its callback. *)
Record flushFrame (h h' : Handler) : Prop := {
  ff_commit : commit h' = commit h;
  ff_settings : settings h' = settings h;
  ff_outChan : outChan h' = outChan h;
  ff_timer : timer h' = timer h;
  ff_runRecord : runRecord h' = runRecord h;
  ff_systemMonitor : systemMonitor h' = systemMonitor h;
  ff_tbHandler : tbHandler h' = tbHandler h;
  ff_uploader : runfilesUploaderOrNil h' = runfilesUploaderOrNil h;
  ff_stats : fileTransferStats h' = fileTransferStats h;
  ff_printer : internalPrinter h' = internalPrinter h;
  ff_mailbox : mailbox h' = mailbox h;
  ff_files : files h' = files h;
  ff_fwdChan :
    exists new, fwdChan h' = fwdChan h ++ new /\
                Forall (fun r => isMetricRecord r \/
                                 isFlushedRecord (XShared (settings h)) r) new;
  ff_metricHandler :
    is_Some (metricHandler h) <-> is_Some (metricHandler h');
  ff_summaryHandler :
    is_Some (summaryHandler h) <-> is_Some (summaryHandler h');
  ff_activeHistory :
    match activeHistory h with
    | Some ah =>
        exists ah', activeHistory h' = Some ah' /\
                    step ah' = step ah /\ flush ah' = flush ah
    | None => activeHistory h' = None
    end
}.

(** The record the flush callback of an accumulator builds. *)
Definition callbackRecord (cb : FlushCallback) (ah : ActiveHistory)
  : HistoryRecord :=
  match cb with
  | FlushWithStep => {| hr_Step := step ah; hr_Item := GetValues ah |}
  | FlushWithoutStep => {| hr_Step := None; hr_Item := GetValues ah |}
  end.

(** The first part of [handlePartialHistorySync] for a request that is not
    behind the current step: the step transition, then the items are put
    into the accumulator. *)
Definition acceptRequest (request : PartialHistoryRequest) (h : Handler)
  : outcome Handler :=
  let h := ensureActiveHistorySync h in
  h ← match ph_Step request with
      | Some s =>
          current ← currentStep h;
          if Num s >? current then
            h ← ActiveHistory_Flush h;
            updateStep (Num s) h
          else Ok h
      | None => Ok h
      end;
  updateValues (ph_Item request) h.

(** The last part of [handlePartialHistorySync]: a flush, then the step is
    incremented. *)
Definition flushThenIncrement (h : Handler) : outcome Handler :=
  h ← ActiveHistory_Flush h;
  current ← currentStep h;
  updateStep (wrap64 (current + 1)) h.

(** The condition of the spec for the final flush of a request. *)
Definition specFlushCondition (request : PartialHistoryRequest) : Prop :=
  (ph_Step request = None /\ ph_Action request = None) \/
  (exists a, ph_Action request = Some a /\ Flush a = true).

(** The step of the request, if any, is not behind the current step. *)
Definition notBehind (request : PartialHistoryRequest) (h : Handler) : Prop :=
  forall s current,
    ph_Step request = Some s ->
    currentStep (ensureActiveHistorySync h) = Ok current ->
    current <= Num s.

(** Every accumulator the synchronous mode may find has a step, and a
    registry of metrics comes with a summary. *)
Definition syncReady (h : Handler) : Prop :=
  XShared (settings h) = false /\
  (forall ah, activeHistory h = Some ah -> is_Some (step ah)) /\
  (is_Some (metricHandler h) -> is_Some (summaryHandler h)).

(** The synchronous mode with nothing pending: the accumulator, if it was
    made already, is the one of the synchronous mode and holds no item. *)
Definition syncIdle (h : Handler) : Prop :=
  syncReady h /\
  forall ah, activeHistory h = Some ah ->
             values ah = ∅ /\ flush ah = Some FlushWithStep.

(** What the accumulator hands to a flush after it took the items of a
    request into an empty accumulator. *)
Definition requestValues (items : list HistoryItem) : list HistoryItem :=
  GetValues (UpdateValues (NewActiveHistory None None) items).

(** The collaborators the side effect of a defer state needs. *)
Definition deferReady (state : DeferState) (h : Handler) : Prop :=
  match state with
  | FLUSH_PARTIAL_HISTORY =>
      is_Some (metricHandler h) -> is_Some (summaryHandler h)
  | FLUSH_SUM => is_Some (summaryHandler h)
  | END => is_Some (fileTransferStats h)
  | _ => True
  end.

(** The states whose side effect is none. *)
Definition deferIdleState (state : DeferState) : Prop :=
  state = BEGIN \/ state = FLUSH_RUN \/ state = FLUSH_DEBOUNCER \/
  state = FLUSH_OUTPUT \/ state = FLUSH_JOB \/ state = FLUSH_DIR \/
  state = JOIN_FP \/ state = FLUSH_FS.

Definition isFinalOrFooter (r : ServiceRecord) : Prop :=
  GetRecordType r = Some Record_Final \/ GetRecordType r = Some Record_Footer.

Definition isSummaryFileWrite (f : FileWrite) : Prop :=
  exists summary, fw_content f = SummaryJson summary.

(** From [h] to [h'] the settings stay, every record forwarded satisfies
    [okRecord] and every file written [okFile]. *)
Definition forwards (okRecord : ServiceRecord -> Prop)
    (okFile : FileWrite -> Prop) (h h' : Handler) : Prop :=
  settings h' = settings h /\
  (exists new, fwdChan h' = fwdChan h ++ new /\ Forall okRecord new) /\
  (exists written, files h' = files h ++ written /\ Forall okFile written).

(** [forwards], and the summary handler stays where it is. *)
Definition forwardsStep (okRecord : ServiceRecord -> Prop)
    (okFile : FileWrite -> Prop) (h h' : Handler) : Prop :=
  forwards okRecord okFile h h' /\
  (is_Some (summaryHandler h) -> is_Some (summaryHandler h')).

(** From [h] to [h'] the settings stay, no final and no footer record is
    forwarded, and the summary file is not written. *)
Definition quiet (h h' : Handler) : Prop :=
  forwards (fun r => ~ isFinalOrFooter r) (fun f => ~ isSummaryFileWrite f)
    h h'.

(** What the handler holds of the world outside the history, the metrics
    and the summary: the channel to the client, the files, the uploader,
    the timer, the run, the monitor, the TensorBoard handler, the
    file-transfer statistics and the mailbox. *)
Definition outside (h : Handler) :=
  (outChan h, files h, runfilesUploaderOrNil h, timer h, runRecord h,
   systemMonitor h, tbHandler h, fileTransferStats h, mailbox h).

(** Every entry of the summary delta is an entry of the consolidated
    summary. *)
Definition coherent (h : Handler) : Prop :=
  forall sh, summaryHandler h = Some sh ->
             summaryDelta sh ⊆ consolidatedSummary sh.

(** Outside the shared mode, the accumulator has a step. *)
Definition stepped (h : Handler) : Prop :=
  XShared (settings h) = false ->
  forall ah, activeHistory h = Some ah -> is_Some (step ah).

(** What stays from [h] to [h']: the settings, the collaborators that are
    there, and the two invariants. *)
Definition kept (h h' : Handler) : Prop :=
  settings h' = settings h /\
  (is_Some (summaryHandler h) -> is_Some (summaryHandler h')) /\
  (is_Some (metricHandler h) -> is_Some (metricHandler h')) /\
  (is_Some (fileTransferStats h) -> is_Some (fileTransferStats h')) /\
  (stepped h -> stepped h') /\
  (coherent h -> coherent h').

(** [kept], and nothing of [outside] changes. *)
Definition inner (h h' : Handler) : Prop :=
  outside h' = outside h /\ kept h h'.

(** The result [respond] sends for a record. *)
Definition resultFor (record : ServiceRecord) (response : Response) : Result :=
  {| res_Response := response; res_Control := GetControl record;
     res_Uuid := Uuid record |}.

(** The request of a record, if it is one. *)
Definition requestOf (record : ServiceRecord) : option RequestType :=
  match GetRecordType record with
  | Some (Record_Request r) => r
  | _ => None
  end.

(** The records the handler answers on the channel to the client. *)
Definition answered (record : ServiceRecord) : bool :=
  match requestOf record with
  | Some Request_Login => GetReqResp (GetControl record)
  | Some Request_CheckVersion | Some Request_RunStatus | Some Request_Status
  | Some Request_Shutdown | Some Request_GetSummary | Some Request_PollExit
  | Some (Request_RunStart _) | Some Request_SampledHistory
  | Some Request_Attach | Some Request_GetSystemMetrics
  | Some Request_InternalMessages => true
  | _ => false
  end.

(** The requests during which the handler may write a file. *)
Definition mayWriteFiles (record : ServiceRecord) : Prop :=
  match requestOf record with
  | Some (Request_RunStart _) | Some (Request_PythonPackages _) => True
  | Some (Request_Defer d) => State d = FLUSH_SUM
  | _ => False
  end.

(** The requests during which the handler may call the uploader. *)
Definition mayUpload (record : ServiceRecord) : Prop :=
  match requestOf record with
  | Some (Request_Defer d) => State d = FLUSH_SUM \/ State d = FLUSH_FP
  | _ => False
  end.

Definition isRunStart (record : ServiceRecord) : Prop :=
  exists r, requestOf record = Some (Request_RunStart r).

(** [outside] apart from the files. *)
Definition apart (h : Handler) :=
  (outChan h, runfilesUploaderOrNil h, timer h, runRecord h,
   systemMonitor h, tbHandler h, fileTransferStats h, mailbox h).

(** [kept], and nothing of [apart] changes. *)
Definition writing (h h' : Handler) : Prop :=
  apart h' = apart h /\ kept h h'.

(** What handling one record does to the channel to the client, to the
    files, to the uploader and to the run. *)
Definition handled (record : ServiceRecord) (h h' : Handler) : Prop :=
  kept h h' /\
  (if answered record
   then exists response, outChan h' = outChan h ++ [resultFor record response]
   else outChan h' = outChan h) /\
  (~ mayWriteFiles record -> files h' = files h) /\
  (~ mayUpload record ->
   runfilesUploaderOrNil h' = runfilesUploaderOrNil h) /\
  match requestOf record with
  | Some (Request_RunStart r) => runRecord h' = Run r /\ is_Some (Run r)
  | _ => runRecord h' = runRecord h
  end.

(** The handler has its summary handler, its registry of metrics and its
    file-transfer statistics, and outside the shared mode its accumulator
    has a step. *)
Definition ready (h : Handler) : Prop :=
  is_Some (summaryHandler h) /\ is_Some (metricHandler h) /\
  is_Some (fileTransferStats h) /\ stepped h.

(** The record has a type the dispatcher knows; if it is a request, so has
    the request, and a run start request has its run. *)
Definition wellFormed (record : ServiceRecord) : Prop :=
  match GetRecordType record with
  | None | Some (Record_other _) => False
  | Some (Record_Request None) => False
  | Some (Record_Request (Some (Request_other _))) => False
  | Some (Record_Request (Some (Request_RunStart r))) => is_Some (Run r)
  | _ => True
  end.

(** The records of a sequence of inputs that the handler answers. *)
Definition answeredRecords (inputs : list (World * ServiceRecord))
  : list ServiceRecord :=
  List.filter answered (map snd inputs).

(** The response to an attach request that carries the run. *)
Definition attachResponse (run : option RunRecord) : Response :=
  {| GetResponseType := Some (Response_AttachResponse run) |}.

(** The items of a summary record agree with a summary. *)
Definition currentIn (summary : gmap string string) (r : ServiceRecord) : Prop :=
  exists items,
    GetRecordType r = Some (Record_Summary {| Update := items |}) /\
    Forall (fun it => summary !! si_Key it = Some (si_ValueJson it)) items.

(** The value the last item of a key has in a list of items. *)
Fixpoint latestValue {T} `{genericItem T} (key : string) (items : list T)
  : option string :=
  match items with
  | [] => None
  | it :: rest =>
      match latestValue key rest with
      | Some v => Some v
      | None => if decide (GetKey it = key) then Some (GetValueJson it) else None
      end
  end.

(** A summary after items were merged into it, the last item of a key
    winning. *)
Definition merged {T} `{genericItem T} (summary : gmap string string)
    (items : list T) (key : string) : option string :=
  match latestValue key items with
  | Some v => Some v
  | None => summary !! key
  end.

(** The items list the entries of a map, each key once. *)
Definition lists (items : list SummaryItem) (m : string -> option string)
  : Prop :=
  NoDup (map si_Key items) /\
  forall k v, {| si_Key := k; si_ValueJson := v |} ∈ items <-> m k = Some v.

Definition summaryRecord (items : list SummaryItem) : ServiceRecord :=
  newRecord (Record_Summary {| Update := items |}) None.

Definition getSummaryResponse (items : list SummaryItem) : Response :=
  {| GetResponseType :=
       Some (Response_GetSummaryResponse {| gs_Item := items |}) |}.

(** The summary file with a summary in it. *)
Definition summaryFile (s : Settings) (summary : gmap string string)
  : FileWrite :=
  {| fw_path := Join (FilesDir s) SummaryFileName;
     fw_content := SummaryJson summary |}.

(** The metric [handleStepMetric] makes for a key, and the record it
    forwards for it. *)
Definition namedMetric (name : string) : MetricRecord :=
  {| Name := name; GlobName := ""; StepMetric := ""; Options := None |}.

Definition stepMetricRecord (key : string) : ServiceRecord :=
  newRecord (Record_Metric (namedMetric key)) (Some localControl).

(** A key is the name of a step metric that is not defined yet. *)
Definition isNewStepMetric (key : string) (defined : gmap string MetricRecord)
  : bool :=
  negb (String.eqb key "") &&
  match defined !! key with
  | Some _ => false
  | None => true
  end.

(** The registry of the handler has a metric under a key. *)
Definition definedAs (key : string) (metric : MetricRecord) (h : Handler)
  : Prop :=
  exists mh, metricHandler h = Some mh /\ definedMetrics mh !! key = Some metric.

(** The accumulator [handleHistory] makes for a record. *)
Definition recordAccumulator (history : HistoryRecord) : ActiveHistory :=
  UpdateValues (NewActiveHistory (Some (GetNum (hr_Step history))) None)
    (hr_Item history).

(** The accumulator of the shared mode: the one of the handler, or a new
    one without step. *)
Definition sharedAccumulator (h : Handler) : ActiveHistory :=
  match activeHistory h with
  | Some ah => ah
  | None => NewActiveHistory None (Some FlushWithoutStep)
  end.

(** The accumulator, if any, is the one of the shared mode. *)
Definition sharedReady (h : Handler) : Prop :=
  XShared (settings h) = true /\
  (forall ah, activeHistory h = Some ah -> flush ah = Some FlushWithoutStep) /\
  (is_Some (metricHandler h) -> is_Some (summaryHandler h)).

(** [items] is what a flush forwarded as one history record with the given
    step and the given first items. *)
Definition flushedAs (step : option HistoryStep) (items : list HistoryItem)
    (internal : list HistoryItem) (h h' : Handler) : Prop :=
  exists imputed,
    historyRecords (fwdChan h') =
      historyRecords (fwdChan h) ++
        [{| hr_Step := step; hr_Item := items ++ internal ++ imputed |}].

(** The keys of a list of items, in order. *)
Definition keysOf (items : list HistoryItem) : list string := map hi_Key items.

(** The accumulator has an item for every key of the list. *)
Definition holds (ah : ActiveHistory) (items : list HistoryItem) : Prop :=
  Forall (fun it => is_Some (GetItem ah (hi_Key it))) items.

(** The paths the files records among forwarded records name. *)
Definition announcedPaths (records : list ServiceRecord) : list string :=
  flat_map (fun r => match GetFiles r with
                     | Some f => map Path (Files f)
                     | None => []
                     end) records.

(** From [h] to [h'] every path that a forwarded files record names is the
    path, below the files directory, of a file written on the way, or the
    path of the saved program, which was there already. *)
Definition announcing (w : World) (h h' : Handler) : Prop :=
  settings h' = settings h /\
  exists forwarded written,
    fwdChan h' = fwdChan h ++ forwarded /\
    files h' = files h ++ written /\
    forall p,
      In p (announcedPaths forwarded) ->
      In (Join (FilesDir (settings h)) p) (map fw_path written) \/
      (saved_program_exists w = true /\
       p = Join "code" (ProgramRelpath (settings h))).

(** The accumulator of the shared mode with the items of a request in
    it. *)
Definition sharedPending (request : PartialHistoryRequest) (h : Handler)
  : ActiveHistory :=
  UpdateValues (sharedAccumulator h) (ph_Item request).

(** A summary with the run time of the handler merged into it under
    [_wandb]. *)
Definition withRuntime (w : World) (h : Handler) (summary : gmap string string)
  : gmap string string :=
  <["_wandb" := runtimeJson (Seconds_int32 (Timer_Elapsed w (timer h)))]> summary.

End Vocabulary.

(** * Inputs of the examples *)

Definition exampleSettings : Settings :=
  {| s_RunId := "run"; XSync := false; XShared := false;
     XDisableStats := false; XDisableMeta := false; SaveCode := false;
     DisableGit := false; FilesDir := "files"; RootDir := "root";
     ProgramRelpath := ""; ProgramAbspath := ""; XOs := ""; XPython := "";
     Host := ""; XCuda := ""; Program := ""; XCodePathLocal := "";
     Email := ""; Username := ""; Docker := ""; XExecutable := "";
     XArgs := []; ColabUrl := "" |}.

Definition exampleWorld : @World ExamplePlatform :=
  {| now := 12000000000; limiter_allow := false; tb_handle_fails := false;
     probe := None; monitor_buffer := []; program_exists := false;
     mkdir_ok := false; saved_program_exists := false; copy_ok := false;
     git_available := false; patch_head_ok := false; latest_commit := None;
     patch_upstream_ok := false; marshal_metadata_ok := true;
     write_metadata_ok := true; create_requirements_ok := true;
     requirements_fail_at := None; marshal_summary_ok := true;
     write_summary_ok := true |}.

Definition exampleStats : FileTransferStats :=
  {| GetFilesStats := {| UploadedBytes := 10; TotalBytes := 20; DedupedBytes := 0 |};
     GetFileCounts := {| WandbCount := 1; MediaCount := 0; ArtifactCount := 0;
                         OtherCount := 2 |};
     IsDone := false |}.

(** A handler as the stream makes it: every collaborator is there, nothing
    has been handled yet. *)
Definition exampleHandler : @Handler ExamplePlatform :=
  @set_summaryHandler ExamplePlatform
    (Some {| consolidatedSummary := ∅; summaryDelta := ∅ |})
    (@set_metricHandler ExamplePlatform
       (Some {| definedMetrics := ∅; globMetrics := [] |})
       (@set_runfilesUploaderOrNil ExamplePlatform (Some [])
          (@set_fileTransferStats ExamplePlatform (Some exampleStats)
             (@NewHandler ExamplePlatform "abc" exampleSettings)))).

Definition item (key value : string) : HistoryItem :=
  {| hi_Key := key; hi_ValueJson := value |}.

(** An accumulator of the synchronous mode at step 5 that holds one item. *)
Definition exampleHandlerAtStep5 : @Handler ExamplePlatform :=
  @set_activeHistory ExamplePlatform
    (Some (UpdateValues
             (NewActiveHistory (Some 5) (Some FlushWithStep))
             [item "acc" "1"]))
    exampleHandler.

(** A request of the synchronous mode for step 3, with [flush]. *)
Definition regressionRequest : PartialHistoryRequest :=
  {| ph_Item := [item "loss" "9"];
     ph_Step := Some {| Num := 3 |};
     ph_Action := Some {| Flush := true |} |}.

(** A request without step, with [flush]. *)
Definition flushRequest : PartialHistoryRequest :=
  {| ph_Item := [item "loss" "5"];
     ph_Step := None;
     ph_Action := Some {| Flush := true |} |}.

(** The same without items. *)
Definition emptyFlushRequest : PartialHistoryRequest :=
  {| ph_Item := []; ph_Step := None; ph_Action := Some {| Flush := true |} |}.

(** An accumulator with a time stamp of 20 seconds, in a run that started
    at 5 seconds. *)
Definition timedAccumulator : ActiveHistory :=
  UpdateValues (NewActiveHistory (Some 0) (Some FlushWithStep))
    [item "loss" "5"; item "_timestamp" "20"].

Definition timedHandler : @Handler ExamplePlatform :=
  @set_timer ExamplePlatform (Timer_Start Timer_zero 5000000000)
    (@set_activeHistory ExamplePlatform (Some timedAccumulator) exampleHandler).

Definition timedRecord : HistoryRecord :=
  callbackRecord FlushWithStep timedAccumulator.

(** A registry with the glob [train/*], whose step metric [train/step] is
    synced, a summary that has a value for the step metric, and an
    accumulator that holds [train/loss]. *)
Definition trainGlob : MetricRecord :=
  {| Name := ""; GlobName := "train/*"; StepMetric := "train/step";
     Options := Some {| StepSync := true; Hidden := false; Defined := true |} |}.

Definition trainRegistry : MetricHandler :=
  {| definedMetrics := ∅; globMetrics := [("train/*", trainGlob)] |}.

Definition trainSummary : SummaryHandler :=
  {| consolidatedSummary := {["train/step" := "7"]}; summaryDelta := ∅ |}.

Definition trainAccumulator : ActiveHistory :=
  UpdateValues (NewActiveHistory (Some 0) (Some FlushWithStep))
    [item "train/loss" "1"].

Definition trainHandler : @Handler ExamplePlatform :=
  @set_summaryHandler ExamplePlatform (Some trainSummary)
    (@set_metricHandler ExamplePlatform (Some trainRegistry)
       (@set_activeHistory ExamplePlatform (Some trainAccumulator)
          exampleHandler)).

(** A history record in which the client sends [_runtime] itself. *)
Definition clientRuntimeRecord : ServiceRecord :=
  newRecord (Record_History {| hr_Step := None;
                               hr_Item := [item "_runtime" "1"] |}) None.

(** A defer request in state [END]. *)
Definition deferEnd : DeferRequest := {| State := END |}.
Definition deferEndRecord : ServiceRecord :=
  newRecord (Record_Request (Some (Request_Defer deferEnd))) None.

(** The handler of a sync of an offline run. *)
Definition syncSettings : Settings :=
  {| s_RunId := "run"; XSync := true; XShared := false;
     XDisableStats := false; XDisableMeta := false; SaveCode := false;
     DisableGit := false; FilesDir := "files"; RootDir := "root";
     ProgramRelpath := ""; ProgramAbspath := ""; XOs := ""; XPython := "";
     Host := ""; XCuda := ""; Program := ""; XCodePathLocal := "";
     Email := ""; Username := ""; Docker := ""; XExecutable := "";
     XArgs := []; ColabUrl := "" |}.

Definition syncHandler : @Handler ExamplePlatform :=
  @set_timer ExamplePlatform (Timer_Start Timer_zero 5000000000)
    (@set_summaryHandler ExamplePlatform
       (Some {| consolidatedSummary := ∅; summaryDelta := ∅ |})
       (@set_fileTransferStats ExamplePlatform (Some exampleStats)
          (@NewHandler ExamplePlatform "abc" syncSettings))).

Definition exitPayload : RunExitRecord := {| ExitCode := 0; Runtime := 0 |}.
Definition exitRecord : ServiceRecord :=
  newRecord (Record_Exit exitPayload) None.

(** The metric [loss], whose step metric is the internal key [_step] and
    is synced. *)
Definition lossMetric : MetricRecord :=
  {| Name := "loss"; GlobName := ""; StepMetric := "_step";
     Options := Some {| StepSync := true; Hidden := false; Defined := true |} |}.

Definition lossMetricRecord : ServiceRecord :=
  newRecord (Record_Metric lossMetric) None.

Definition flushRequestRecord : ServiceRecord :=
  newRecord (Record_Request (Some (Request_PartialHistory flushRequest))) None.

(** A handler made without the option for the file-transfer statistics;
    the other collaborators are there. *)
Definition handlerWithoutStats : @Handler ExamplePlatform :=
  @set_summaryHandler ExamplePlatform
    (Some {| consolidatedSummary := ∅; summaryDelta := ∅ |})
    (@set_metricHandler ExamplePlatform
       (Some {| definedMetrics := ∅; globMetrics := [] |})
       (@set_runfilesUploaderOrNil ExamplePlatform (Some [])
          (@NewHandler ExamplePlatform "abc" exampleSettings))).

Definition pollExitRecord : ServiceRecord :=
  newRecord (Record_Request (Some Request_PollExit)) None.

(** A run that starts at step 10, and the requests that start it and ask
    for it. *)
Definition exampleRun : RunRecord :=
  {| RunId := "run"; StartingStep := 10; StartTime := 5000000; Git := None |}.

Definition runStartRecord : ServiceRecord :=
  newRecord
    (Record_Request (Some (Request_RunStart {| Run := Some exampleRun |})))
    None.

Definition attachRecord : ServiceRecord :=
  newRecord (Record_Request (Some Request_Attach)) None.

Definition startedHandler : @Handler ExamplePlatform :=
  @set_runRecord ExamplePlatform (Some exampleRun) exampleHandler.

(** A summary record with one item, and the request that reads the summary
    back. *)
Definition lossSummary : SummaryRecord :=
  {| Update := [{| si_Key := "loss"; si_ValueJson := "5" |}] |}.

Definition lossSummaryRecord : ServiceRecord :=
  newRecord (Record_Summary lossSummary) None.

Definition getSummaryRecord : ServiceRecord :=
  newRecord (Record_Request (Some Request_GetSummary)) None.

(** A handler whose summary has one entry that was not forwarded yet. *)
Definition deltaSummary : SummaryHandler :=
  {| consolidatedSummary := {["loss" := "5"]};
     summaryDelta := {["loss" := "5"]} |}.

Definition deltaHandler : @Handler ExamplePlatform :=
  @set_summaryHandler ExamplePlatform (Some deltaSummary) exampleHandler.

(** Defer requests in the states [FLUSH_SUM] and [FLUSH_PARTIAL_HISTORY]. *)
Definition deferFlushSum : DeferRequest := {| State := FLUSH_SUM |}.
Definition deferFlushSumRecord : ServiceRecord :=
  newRecord (Record_Request (Some (Request_Defer deferFlushSum))) None.

Definition deferFlushPartial : DeferRequest :=
  {| State := FLUSH_PARTIAL_HISTORY |}.
Definition deferFlushPartialRecord : ServiceRecord :=
  newRecord (Record_Request (Some (Request_Defer deferFlushPartial))) None.

(** A history record for step 7. *)
Definition lossHistory : HistoryRecord :=
  {| hr_Step := Some {| Num := 7 |}; hr_Item := [item "loss" "5"] |}.

(** A request for step 8 without action, and a request without step that
    says not to flush. *)
Definition laterRequest : PartialHistoryRequest :=
  {| ph_Item := [item "loss" "9"];
     ph_Step := Some {| Num := 8 |};
     ph_Action := None |}.

Definition keepRequest : PartialHistoryRequest :=
  {| ph_Item := [item "acc" "1"];
     ph_Step := None;
     ph_Action := Some {| Flush := false |} |}.

(** The handler of a run in the shared mode. *)
Definition sharedSettings : Settings :=
  {| s_RunId := "run"; XSync := false; XShared := true;
     XDisableStats := false; XDisableMeta := false; SaveCode := false;
     DisableGit := false; FilesDir := "files"; RootDir := "root";
     ProgramRelpath := ""; ProgramAbspath := ""; XOs := ""; XPython := "";
     Host := ""; XCuda := ""; Program := ""; XCodePathLocal := "";
     Email := ""; Username := ""; Docker := ""; XExecutable := "";
     XArgs := []; ColabUrl := "" |}.

Definition sharedHandler : @Handler ExamplePlatform :=
  @set_summaryHandler ExamplePlatform
    (Some {| consolidatedSummary := ∅; summaryDelta := ∅ |})
    (@set_metricHandler ExamplePlatform
       (Some {| definedMetrics := ∅; globMetrics := [] |})
       (@set_fileTransferStats ExamplePlatform (Some exampleStats)
          (@NewHandler ExamplePlatform "abc" sharedSettings))).

(** * Properties *)

Lemma string_append_assoc (a b c : string) : (a +:+ b) +:+ c = a +:+ (b +:+ c).
Proof.
  induction a as [|x a IH]; [reflexivity | ].
  change (String x ((a +:+ b) +:+ c) = String x (a +:+ (b +:+ c))).
  f_equal. exact IH.
Qed.

Lemma wrap64_id (z : Z) : int64_range z -> wrap64 z = z.
Proof.
  unfold int64_range, wrap64. intros Hz.
  rewrite Z.mod_small by lia. lia.
Qed.

Section Properties.
Context {P : Platform}.

Lemma stepRegressionMessage_names (step current : Z) :
  contains (stepRegressionMessage step current) (Sprintf_d step) /\
  contains (stepRegressionMessage step current) (Sprintf_d current).
Proof.
  unfold contains, stepRegressionMessage. split.
  - eexists _, _. reflexivity.
  - eexists ("steps must be monotonically increasing, received history record for a step ("
             +:+ Sprintf_d step +:+ ") " +:+ "that is less than the current step ("), _.
    rewrite !string_append_assoc. reflexivity.
Qed.

(** A request of the synchronous mode whose step is behind the current
    step only leaves a warning in the log and a message in the printer. *)
Lemma handlePartialHistorySync_behind (request : PartialHistoryRequest)
    (h : Handler) (s : HistoryStep) (current : Z) :
  ph_Step request = Some s ->
  currentStep (ensureActiveHistorySync h) = Ok current ->
  Num s < current ->
  handlePartialHistorySync request h =
    Ok (Printer_Write (stepRegressionMessage (Num s) current)
          (log LevelCaptureWarn
             "handlePartialHistorySync: ignoring history record"
             [("step", Sprintf_d (Num s)); ("current", Sprintf_d current)]
             (ensureActiveHistorySync h))).
Proof.
  intros Hstep Hcur Hlt. unfold handlePartialHistorySync.
  rewrite Hstep, Hcur. simpl.
  destruct (Z.gtb_spec (Num s) current) as [Hgt|_]; [lia|].
  destruct (Z.ltb_spec (Num s) current) as [_|Hge]; [|lia].
  reflexivity.
Qed.

(** C1. A request of the synchronous mode whose step is behind the current
    step of the accumulator is dropped: nothing is forwarded or answered,
    the accumulator, the consolidated summary, the samplers and the metrics
    stay as they are, one warning is logged, and the printer gets one
    message, which names the step of the request and the current step. *)
Theorem step_regression_dropped (request : PartialHistoryRequest)
    (h : Handler) (s : HistoryStep) (current : Z) :
  XShared (settings h) = false ->
  ph_Step request = Some s ->
  currentStep (ensureActiveHistorySync h) = Ok current ->
  Num s < current ->
  exists h',
    handleRequestPartialHistory request h = Ok h' /\
    fwdChan h' = fwdChan h /\
    outChan h' = outChan h /\
    activeHistory h' = activeHistory (ensureActiveHistorySync h) /\
    (forall ah, activeHistory h = Some ah -> activeHistory h' = Some ah) /\
    summaryHandler h' = summaryHandler h /\
    samplers h' = samplers h /\
    metricHandler h' = metricHandler h /\
    files h' = files h /\
    logger h' =
      logger h ++
        [{| log_level := LevelCaptureWarn;
            log_msg := "handlePartialHistorySync: ignoring history record";
            log_args := [("step", Sprintf_d (Num s));
                         ("current", Sprintf_d current)] |}] /\
    internalPrinter h' =
      internalPrinter h ++ [stepRegressionMessage (Num s) current] /\
    contains (stepRegressionMessage (Num s) current) (Sprintf_d (Num s)) /\
    contains (stepRegressionMessage (Num s) current) (Sprintf_d current).
Proof.
  intros Hsync Hstep Hcur Hlt.
  unfold handleRequestPartialHistory. rewrite Hsync.
  rewrite (handlePartialHistorySync_behind request h s current Hstep Hcur Hlt).
  eexists. split; [reflexivity|].
  pose proof (stepRegressionMessage_names (Num s) current) as [Hn1 Hn2].
  unfold ensureActiveHistorySync.
  destruct (activeHistory h) as [ah|] eqn:Hah; simpl; rewrite ?Hah;
    repeat split; try reflexivity; try assumption; try congruence.
Qed.

(** C10. [PollExit] is answered with exactly one result.  Without the
    file-transfer statistics the response says done and leaves the pusher
    statistics and the file counts unset; with them it carries what they
    report. *)
Theorem poll_exit_response (record : ServiceRecord) (h : Handler) :
  exists r,
    outChan (handleRequestPollExit record h) =
      outChan h ++
        [{| res_Response :=
              {| GetResponseType := Some (Response_PollExitResponse r) |};
            res_Control := GetControl record;
            res_Uuid := Uuid record |}] /\
    fwdChan (handleRequestPollExit record h) = fwdChan h /\
    (fileTransferStats h = None ->
       Done r = true /\ PusherStats r = None /\ GetFileCounts_ r = None) /\
    (forall stats, fileTransferStats h = Some stats ->
       PusherStats r = Some (GetFilesStats stats) /\
       GetFileCounts_ r = Some (GetFileCounts stats) /\
       Done r = IsDone stats).
Proof.
  unfold handleRequestPollExit, respond.
  destruct (fileTransferStats h) as [stats|]; simpl;
    eexists; (split; [reflexivity|]); simpl;
    repeat split; try reflexivity; try congruence;
    intros; simplify_eq; reflexivity.
Qed.

(** ** Resolving metrics and imputing step metrics *)

Lemma imputeFrame_refl (h : Handler) : imputeFrame h h.
Proof.
  constructor; try reflexivity.
  - exists []. rewrite app_nil_r. split; [reflexivity | constructor].
  - destruct (activeHistory h) as [ah|]; eauto.
Qed.

Lemma imputeFrame_trans (h1 h2 h3 : Handler) :
  imputeFrame h1 h2 -> imputeFrame h2 h3 -> imputeFrame h1 h3.
Proof.
  intros [c1 s1 o1 t1 r1 su1 sa1 sm1 tb1 up1 st1 pr1 mb1 fi1 fw1 mh1 ah1]
         [c2 s2 o2 t2 r2 su2 sa2 sm2 tb2 up2 st2 pr2 mb2 fi2 fw2 mh2 ah2].
  constructor; try congruence.
  - destruct fw1 as (ms1 & E1 & F1). destruct fw2 as (ms2 & E2 & F2).
    exists (ms1 ++ ms2). rewrite E2, E1, app_assoc. split; [reflexivity|].
    apply Forall_app; auto.
  - split; intros X; [apply mh2, mh1, X | apply mh1, mh2, X].
  - destruct (activeHistory h1) as [ah|].
    + destruct ah1 as (a2 & E2 & S2 & F2). rewrite E2 in ah2.
      destruct ah2 as (a3 & E3 & S3 & F3).
      exists a3. repeat split; congruence.
    + rewrite ah1 in ah2. assumption.
Qed.

Lemma imputeFrame_log (lvl : LogLevel) (msg : string)
    (args : list (string * string)) (h : Handler) :
  imputeFrame h (log lvl msg args h).
Proof.
  constructor; try reflexivity.
  - exists []. simpl. rewrite app_nil_r. split; [reflexivity | constructor].
  - simpl. destruct (activeHistory h) as [ah|]; eauto.
Qed.

Lemma imputeFrame_metric (r : ServiceRecord) (mh : MetricHandler)
    (h : Handler) :
  isMetricRecord r ->
  is_Some (metricHandler h) ->
  imputeFrame h (fwdRecord (Some r) (set_metricHandler (Some mh) h)).
Proof.
  intros Hr Hsome. constructor; try reflexivity.
  - exists [r]. split; [reflexivity|].
    constructor; [exact Hr|constructor].
  - simpl. split; eauto.
  - simpl. destruct (activeHistory h) as [ah|]; eauto.
Qed.

Lemma handleStepMetric_frame (key : string) (h : Handler) :
  is_Some (metricHandler h) ->
  exists h', handleStepMetric key h = Ok h' /\ imputeFrame h h'.
Proof.
  intros [mh Hmh]. unfold handleStepMetric.
  destruct (String.eqb key ""); [eauto using imputeFrame_refl|].
  rewrite Hmh. simpl.
  destruct (definedMetrics mh !! key); [eauto using imputeFrame_refl|].
  simpl. eexists. split; [reflexivity|]. apply imputeFrame_metric.
  - eexists. reflexivity.
  - rewrite Hmh. eauto.
Qed.

Lemma imputeFrame_set_metricHandler (mh : MetricHandler) (h : Handler) :
  is_Some (metricHandler h) ->
  imputeFrame h (set_metricHandler (Some mh) h).
Proof.
  intros Hsome. constructor; try reflexivity.
  - exists []. simpl. rewrite app_nil_r. split; [reflexivity | constructor].
  - simpl. split; eauto.
  - simpl. destruct (activeHistory h) as [ah|]; eauto.
Qed.

Lemma imputeFrame_fwd_metric (r : ServiceRecord) (h : Handler) :
  isMetricRecord r ->
  imputeFrame h (fwdRecord (Some r) h).
Proof.
  intros Hr. constructor; try reflexivity.
  - exists [r]. split; [reflexivity|].
    constructor; [exact Hr|constructor].
  - simpl. destruct (activeHistory h) as [ah|]; eauto.
Qed.

Lemma handleMetric_frame (r : ServiceRecord) (metric : MetricRecord)
    (h : Handler) :
  isMetricRecord r ->
  is_Some (metricHandler h) ->
  exists h', handleMetric r metric h = Ok h' /\ imputeFrame h h'.
Proof.
  intros Hr [mh Hmh]. unfold handleMetric.
  destruct (negb (String.eqb (GlobName metric) "")).
  - rewrite Hmh. simpl. eexists. split; [reflexivity|]. apply imputeFrame_metric.
    + exact Hr.
    + rewrite Hmh. eauto.
  - destruct (negb (String.eqb (Name metric) "")).
    + rewrite Hmh. simpl.
      destruct (handleStepMetric_frame (StepMetric metric)
                  (set_metricHandler
                     (Some (set_definedMetrics
                              (<[Name metric := metric]> (definedMetrics mh)) mh)) h))
        as (h1 & E1 & F1); [simpl; eauto|].
      rewrite E1. simpl. eexists. split; [reflexivity|].
      eapply imputeFrame_trans;
        [apply imputeFrame_set_metricHandler; rewrite Hmh; eauto|].
      eapply imputeFrame_trans; [exact F1|]. apply imputeFrame_fwd_metric.
      exact Hr.
    + eexists. split; [reflexivity|]. apply imputeFrame_log.
Qed.

Lemma handleStepMetric_activeHistory (key : string) (h h' : Handler) :
  handleStepMetric key h = Ok h' -> activeHistory h' = activeHistory h.
Proof.
  unfold handleStepMetric. intros E.
  destruct (String.eqb key ""); [congruence|].
  destruct (metricHandler h) as [mh|]; simpl in E; [|discriminate].
  destruct (definedMetrics mh !! key); simpl in E; inversion E; reflexivity.
Qed.

Lemma handleMetric_activeHistory (record : ServiceRecord)
    (metric : MetricRecord) (h h' : Handler) :
  handleMetric record metric h = Ok h' -> activeHistory h' = activeHistory h.
Proof.
  unfold handleMetric. intros E.
  destruct (negb (String.eqb (GlobName metric) "")).
  - destruct (metricHandler h) as [mh|]; simpl in E; inversion E; reflexivity.
  - destruct (negb (String.eqb (Name metric) "")).
    + destruct (metricHandler h) as [mh|]; simpl in E; [|discriminate].
      match type of E with
      | context [handleStepMetric ?k ?x] =>
          destruct (handleStepMetric k x) as [h1|] eqn:E1; simpl in E; [|discriminate]
      end.
      apply handleStepMetric_activeHistory in E1. inversion E. simpl.
      rewrite E1. reflexivity.
    + inversion E. reflexivity.
Qed.

Lemma assoc_put_elem {V} (key : string) (v : V) (l : list (string * V))
    (p : string) (x : V) :
  (p, x) ∈ assoc_put key v l -> (p, x) = (key, v) \/ (p, x) ∈ l.
Proof.
  induction l as [|[k y] l IH]; simpl.
  - intros H. apply list_elem_of_singleton in H. auto.
  - destruct (String.eqb k key).
    + intros H. apply elem_of_cons in H as [H|H]; [auto|].
      right. apply elem_of_cons. auto.
    + intros H. apply elem_of_cons in H as [H|H].
      * right. apply elem_of_cons. auto.
      * destruct (IH H) as [?|?]; [auto|]. right. apply elem_of_cons. auto.
Qed.

Lemma handleStepMetric_avoid (avoided key : string) (h h' : Handler) :
  avoided <> "" ->
  stepMetricsAvoid avoided h ->
  handleStepMetric key h = Ok h' ->
  stepMetricsAvoid avoided h'.
Proof.
  unfold handleStepMetric. intros Hne Hav E.
  destruct (String.eqb key ""); [inversion E; subst; assumption|].
  destruct (metricHandler h) as [mh|] eqn:Hmh; simpl in E; [|discriminate].
  destruct (definedMetrics mh !! key) eqn:Hk; simpl in E;
    [inversion E; subst; assumption|].
  inversion E; subst h'; clear E.
  intros mh' Hmh'. simpl in Hmh'. inversion Hmh'; subst mh'; clear Hmh'.
  destruct (Hav mh Hmh) as [Hd Hg]. simpl. split; [|exact Hg].
  intros k m Hm. destruct (decide (key = k)) as [->|Hkk].
  - rewrite lookup_insert_eq in Hm. inversion Hm; subst m. simpl. congruence.
  - rewrite lookup_insert_ne in Hm by assumption. eauto.
Qed.

Lemma handleMetric_avoid (avoided : string) (record : ServiceRecord)
    (metric : MetricRecord) (h h' : Handler) :
  avoided <> "" ->
  StepMetric metric <> avoided ->
  stepMetricsAvoid avoided h ->
  handleMetric record metric h = Ok h' ->
  stepMetricsAvoid avoided h'.
Proof.
  unfold handleMetric. intros Hne Hm Hav E.
  destruct (negb (String.eqb (GlobName metric) "")).
  - destruct (metricHandler h) as [mh|] eqn:Hmh; simpl in E; [|discriminate].
    inversion E; subst h'; clear E.
    intros mh' Hmh'. simpl in Hmh'. inversion Hmh'; subst mh'; clear Hmh'.
    destruct (Hav mh Hmh) as [Hd Hg]. simpl. split; [exact Hd|].
    intros p m Hin. apply assoc_put_elem in Hin as [Heq|Hin]; [|eauto].
    inversion Heq. subst. assumption.
  - destruct (negb (String.eqb (Name metric) "")).
    + destruct (metricHandler h) as [mh|] eqn:Hmh; simpl in E; [|discriminate].
      match type of E with
      | context [handleStepMetric ?k ?x] =>
          destruct (handleStepMetric k x) as [h1|] eqn:E1; simpl in E; [|discriminate]
      end.
      inversion E; subst h'; clear E.
      apply (handleStepMetric_avoid avoided) in E1; [| assumption |].
      * intros mh' Hmh'. apply (E1 mh'). exact Hmh'.
      * intros mh' Hmh'. simpl in Hmh'. inversion Hmh'; subst mh'; clear Hmh'.
        destruct (Hav mh Hmh) as [Hd Hg]. simpl. split; [|exact Hg].
        intros k m Hlk. destruct (decide (Name metric = k)) as [Heq|Hkk].
        -- rewrite <- Heq, lookup_insert_eq in Hlk. inversion Hlk. subst. assumption.
        -- rewrite lookup_insert_ne in Hlk by assumption. eauto.
    + inversion E; subst h'. exact Hav.
Qed.

Lemma firstMatchingGlob_from (globs : list (string * MetricRecord))
    (key : string) (metric : MetricRecord) :
  firstMatchingGlob globs key = Some metric ->
  Name metric = key /\ GlobName metric = "" /\
  exists pattern globMetric,
    (pattern, globMetric) ∈ globs /\
    Match pattern key = Some true /\
    StepMetric metric = StepMetric globMetric /\
    Options metric = Options globMetric.
Proof.
  induction globs as [|[pattern globMetric] rest IH]; simpl; [discriminate|].
  destruct (Match pattern key) as [[|]|] eqn:Hm.
  - intros E. inversion E; subst metric; clear E. simpl.
    repeat split. exists pattern, globMetric. repeat split; [left | assumption].
  - intros E. destruct (IH E) as (? & ? & p & g & Hin & ?).
    repeat split; try assumption. exists p, g. split; [right; assumption|assumption].
  - intros E. destruct (IH E) as (? & ? & p & g & Hin & ?).
    repeat split; try assumption. exists p, g. split; [right; assumption|assumption].
Qed.

(** The metric a history item resolves to: none for an internal key, the
    defined metric of that name if there is one, and else the metric made
    from the first matching glob. *)
Lemma matchHistoryItemMetric_spec (item : HistoryItem) (h : Handler)
    (mh : MetricHandler) :
  metricHandler h = Some mh ->
  exists h1,
    matchHistoryItemMetric item h =
      Ok (resolvedMetric mh item, h1) /\
    imputeFrame h h1 /\
    activeHistory h1 = activeHistory h /\
    (forall avoided, avoided <> "" -> stepMetricsAvoid avoided h ->
                     stepMetricsAvoid avoided h1).
Proof.
  intros Hmh. unfold matchHistoryItemMetric, resolvedMetric.
  destruct (HasPrefix (hi_Key item) "_").
  { exists h. split; [reflexivity|]. split; [apply imputeFrame_refl|]. auto. }
  rewrite Hmh. simpl.
  destruct (definedMetrics mh !! hi_Key item) as [metric|] eqn:Hd.
  { exists h. split; [reflexivity|]. split; [apply imputeFrame_refl|]. auto. }
  destruct (createMatchingGlobMetric mh (hi_Key item)) as [metric|] eqn:Hg.
  2:{ exists h. split; [reflexivity|]. split; [apply imputeFrame_refl|]. auto. }
  destruct (handleMetric_frame
              (newRecord (Record_Metric metric) (Some localControl)) metric h)
    as (h1 & E1 & F1); [eexists; reflexivity | rewrite Hmh; eauto|].
  rewrite E1. simpl. exists h1.
  split; [reflexivity|]. split; [exact F1|]. split.
  - eapply handleMetric_activeHistory; eassumption.
  - intros avoided Hne Hav. eapply handleMetric_avoid; try eassumption.
    apply firstMatchingGlob_from in Hg as (_ & _ & p & g & Hin & _ & Hs & _).
    rewrite Hs. destruct (Hav mh Hmh) as [_ Hgl]. eauto.
Qed.

Lemma imputeStepMetric_spec (item : HistoryItem) (h : Handler)
    (mh : MetricHandler) (ah : ActiveHistory) (sh : SummaryHandler) :
  metricHandler h = Some mh ->
  activeHistory h = Some ah ->
  summaryHandler h = Some sh ->
  exists h',
    imputeStepMetric item h =
      Ok (imputedItem (resolvedMetric mh item) ah sh, h') /\
    imputeFrame h h' /\
    activeHistory h' =
      Some (UpdateValues ah
              (option_list (imputedItem (resolvedMetric mh item) ah sh))) /\
    (forall avoided, avoided <> "" -> stepMetricsAvoid avoided h ->
                     stepMetricsAvoid avoided h').
Proof.
  intros Hmh Hah Hsh.
  destruct (matchHistoryItemMetric_spec item h mh Hmh)
    as (h1 & E1 & F1 & A1 & V1).
  unfold imputeStepMetric, imputedItem. rewrite E1. simpl.
  set (metric := resolvedMetric mh item).
  assert (Hupd : UpdateValues ah [] = ah) by (destruct ah; reflexivity).
  destruct (GetStepSync (GetOptions metric)
            && negb (String.eqb (GetStepMetric metric) "")); simpl.
  2:{ exists h1. rewrite Hupd. split; [reflexivity|]. split; [exact F1|].
      split; [congruence | exact V1]. }
  rewrite A1, Hah. simpl.
  destruct (GetItem ah (GetStepMetric metric)); simpl.
  { exists h1. rewrite Hupd. split; [reflexivity|]. split; [exact F1|].
    split; [congruence | exact V1]. }
  rewrite (frame_summaryHandler _ _ F1), Hsh. simpl.
  destruct (consolidatedSummary sh !! GetStepMetric metric) as [value|]; simpl.
  2:{ exists h1. rewrite Hupd. split; [reflexivity|]. split; [exact F1|].
      split; [congruence | exact V1]. }
  eexists. split; [reflexivity|]. split; [|split].
  - eapply imputeFrame_trans; [exact F1|].
    constructor; try reflexivity.
    + exists []. simpl. rewrite app_nil_r. split; [reflexivity|constructor].
    + simpl. rewrite A1, Hah. eexists. split; [reflexivity|]. split; reflexivity.
  - reflexivity.
  - intros avoided Hne Hav. exact (V1 avoided Hne Hav).
Qed.

Lemma imputedItem_key (metric : option MetricRecord) (ah : ActiveHistory)
    (sh : SummaryHandler) (hi : HistoryItem) :
  imputedItem metric ah sh = Some hi ->
  exists m, metric = Some m /\ hi_Key hi = StepMetric m.
Proof.
  unfold imputedItem. destruct metric as [m|]; simpl; [|discriminate].
  destruct (GetStepSync (Options m) && negb (String.eqb (StepMetric m) ""));
    [|discriminate].
  destruct (GetItem ah (StepMetric m)); [discriminate|].
  destruct (consolidatedSummary sh !! StepMetric m); [|discriminate].
  intros E. inversion E. eauto.
Qed.

Lemma resolvedMetric_avoid (avoided : string) (h : Handler)
    (mh : MetricHandler) (item : HistoryItem) (m : MetricRecord) :
  stepMetricsAvoid avoided h ->
  metricHandler h = Some mh ->
  resolvedMetric mh item = Some m ->
  StepMetric m <> avoided.
Proof.
  intros Hav Hmh. destruct (Hav mh Hmh) as [Hd Hg].
  unfold resolvedMetric. destruct (HasPrefix (hi_Key item) "_"); [discriminate|].
  destruct (definedMetrics mh !! hi_Key item) as [metric|] eqn:E.
  - intros E'. inversion E'; subst. eauto.
  - intros E'. apply firstMatchingGlob_from in E'
      as (_ & _ & p & g & Hin & _ & Hs & _).
    rewrite Hs. eauto.
Qed.

(** The loop of [flushHistory]: it ends, it appends the imputed items to
    the record, and none of them has a key that no step metric has. *)
Lemma imputeStepMetrics_spec (items : list HistoryItem) :
  forall (history : HistoryRecord) (h : Handler),
    is_Some (metricHandler h) ->
    is_Some (activeHistory h) ->
    is_Some (summaryHandler h) ->
    exists imputed h',
      imputeStepMetrics items history h = Ok (appendItems history imputed, h') /\
      imputeFrame h h' /\
      (forall avoided, avoided <> "" -> stepMetricsAvoid avoided h ->
         stepMetricsAvoid avoided h' /\
         Forall (fun hi => hi_Key hi <> avoided) imputed).
Proof.
  induction items as [|item rest IH]; intros history h Hmh Hah Hsh.
  - exists [], h. simpl. split; [|split].
    + unfold appendItems. rewrite app_nil_r. destruct history; reflexivity.
    + apply imputeFrame_refl.
    + intros. split; [assumption|constructor].
  - destruct Hmh as [mh Hmh], Hah as [ah Hah], Hsh as [sh Hsh].
    destruct (imputeStepMetric_spec item h mh ah sh Hmh Hah Hsh)
      as (h1 & E1 & F1 & A1 & V1).
    simpl. rewrite E1. simpl.
    set (step := imputedItem (resolvedMetric mh item) ah sh) in *.
    destruct (IH (match step with
                  | Some s => appendItems history [s]
                  | None => history
                  end) h1) as (imputed & h' & E' & F' & V').
    + apply (proj1 (frame_metricHandler _ _ F1)). rewrite Hmh. eauto.
    + rewrite A1. eauto.
    + rewrite (frame_summaryHandler _ _ F1), Hsh. eauto.
    + exists (option_list step ++ imputed), h'. split; [|split].
      * rewrite E'. f_equal. f_equal. unfold appendItems.
        destruct step; simpl; [rewrite <- app_assoc|]; reflexivity.
      * eapply imputeFrame_trans; eassumption.
      * intros avoided Hne Hav.
        destruct (V' avoided Hne (V1 avoided Hne Hav)) as [Hav' Hall].
        split; [assumption|]. apply Forall_app. split; [|assumption].
        destruct step as [hi|] eqn:Hstep; simpl; [|constructor].
        constructor; [|constructor].
        apply imputedItem_key in Hstep as (m & Hm & Hk). rewrite Hk.
        exact (resolvedMetric_avoid avoided h mh item m Hav Hmh Hm).
Qed.

(** ** Flushing a history record *)

Lemma updateSummaryDelta_items (items : list HistoryItem)
    (delta : gmap string string) :
  updateSummaryDelta delta
    {| Update := map (fun it => {| si_Key := GetKey it;
                                   si_ValueJson := GetValueJson it |}) items |} =
  fold_left (fun m it => <[hi_Key it := hi_ValueJson it]> m) items delta.
Proof.
  unfold updateSummaryDelta. simpl. revert delta.
  induction items as [|it items IH]; intros delta; simpl; [reflexivity|].
  apply IH.
Qed.

Lemma flushHistory_unfold (history : HistoryRecord) (h : Handler)
    (ah : ActiveHistory) :
  hr_Item history <> [] ->
  activeHistory h = Some ah ->
  flushHistory history h =
    '(flushed, hm) ←
      match metricHandler (afterTimestamp ah h) with
      | Some _ =>
          imputeStepMetrics (hr_Item (withInternalItems history ah h))
            (withInternalItems history ah h) (afterTimestamp ah h)
      | None => Ok (withInternalItems history ah h, afterTimestamp ah h)
      end;
    Ok (emitHistory flushed hm).
Proof.
  intros Hitems Hah. unfold flushHistory.
  destruct (hr_Item history) as [|it0 its] eqn:Hit; [congruence|].
  clear Hit Hitems. rewrite Hah.
  cbn [mbind outcome_bind deref].
  unfold afterTimestamp, withInternalItems, internalItems, flushRunTime.
  destruct (GetItem ah "_timestamp") as [item|];
    [destruct (ParseFloat (hi_ValueJson item))|];
    destruct (XShared (settings h)) eqn:Hshared;
    cbn [mbind outcome_bind deref settings log set_logger negb];
    rewrite ?Hshared; cbn [negb];
    unfold appendItems; cbn [hr_Item hr_Step runtimeItem stepItem];
    rewrite <- ?app_assoc; cbn [app];
    unfold runtimeItem, stepItem;
    match goal with
    | |- mbind _ ?m = mbind _ ?m =>
        destruct m as [[flushed hm]|]; [|reflexivity]
    end;
    cbn [mbind outcome_bind];
    unfold emitHistory, ConsolidateSummaryItems;
    change (summaryHandler
              (fwdRecord (Some (newRecord (Record_History flushed) None))
                 (sampleHistory flushed hm))) with (summaryHandler hm);
    destruct (summaryHandler hm) as [sh|];
    cbn [GetKey GetValueJson HistoryItem_genericItem];
    try reflexivity;
    rewrite updateSummaryDelta_items; reflexivity.
Qed.

Lemma imputeFrame_afterTimestamp (ah : ActiveHistory) (h : Handler) :
  imputeFrame h (afterTimestamp ah h) /\
  metricHandler (afterTimestamp ah h) = metricHandler h /\
  activeHistory (afterTimestamp ah h) = activeHistory h.
Proof.
  unfold afterTimestamp. destruct (GetItem ah "_timestamp") as [item|];
    [destruct (ParseFloat (hi_ValueJson item))|];
    auto using imputeFrame_refl, imputeFrame_log.
Qed.

(** What [flushHistory] does to a record that has items: it appends the
    internal items and the imputed ones, samples the result, forwards it
    and folds it into the summary. *)
Lemma flushHistory_spec (history : HistoryRecord) (h : Handler)
    (ah : ActiveHistory) :
  hr_Item history <> [] ->
  activeHistory h = Some ah ->
  (is_Some (metricHandler h) -> is_Some (summaryHandler h)) ->
  exists imputed hm,
    flushHistory history h =
      Ok (emitHistory
            {| hr_Step := hr_Step history;
               hr_Item := hr_Item history ++ internalItems history ah h ++ imputed |}
            hm) /\
    imputeFrame h hm /\
    (metricHandler h = None -> imputed = []) /\
    (forall avoided, avoided <> "" -> stepMetricsAvoid avoided h ->
       stepMetricsAvoid avoided hm /\
       Forall (fun hi => hi_Key hi <> avoided) imputed).
Proof.
  intros Hitems Hah Hsum.
  rewrite (flushHistory_unfold history h ah Hitems Hah).
  destruct (imputeFrame_afterTimestamp ah h) as (F0 & Hmh0 & Hah0).
  set (h0 := afterTimestamp ah h) in *.
  assert (Hav0 : forall avoided, stepMetricsAvoid avoided h ->
                                 stepMetricsAvoid avoided h0).
  { intros avoided Hav mh Hm. rewrite Hmh0 in Hm. exact (Hav mh Hm). }
  destruct (metricHandler h0) as [mh|] eqn:Hmh.
  - assert (Hs : is_Some (summaryHandler h0)).
    { rewrite (frame_summaryHandler _ _ F0). apply Hsum. rewrite <- Hmh0. eauto. }
    destruct (imputeStepMetrics_spec (hr_Item (withInternalItems history ah h))
                (withInternalItems history ah h) h0)
      as (imputed & hm & E & F & V);
      [rewrite Hmh; eauto | rewrite Hah0, Hah; eauto | exact Hs |].
    exists imputed, hm. rewrite E. simpl.
    split; [|split; [|split]].
    + unfold appendItems, withInternalItems. simpl. rewrite <- app_assoc. reflexivity.
    + eapply imputeFrame_trans; eassumption.
    + intros Hn. rewrite Hmh0 in Hmh. congruence.
    + intros avoided Hne Hav. apply (V avoided Hne). auto.
  - exists [], h0. simpl. split; [|split; [|split]].
    + unfold withInternalItems. rewrite app_nil_r. reflexivity.
    + exact F0.
    + reflexivity.
    + intros avoided Hne Hav. split; [auto|constructor].
Qed.

Lemma fwdChan_emitHistory (flushed : HistoryRecord) (h : Handler) :
  fwdChan (emitHistory flushed h) =
  fwdChan h ++ [newRecord (Record_History flushed) None].
Proof. unfold emitHistory. destruct (summaryHandler h); reflexivity. Qed.

(** C2. A flush of a record with items appends the item [_runtime] right
    after the items of the record.  Its value is the time stamp of the
    accumulator, parsed as a float64, minus the start time of the run in
    seconds when the accumulator has an item [_timestamp], and zero when it
    has none (and zero as well for a time stamp that does not parse). *)
Theorem flush_appends_runtime (history : HistoryRecord) (h : Handler)
    (ah : ActiveHistory) :
  hr_Item history <> [] ->
  activeHistory h = Some ah ->
  (is_Some (metricHandler h) -> is_Some (summaryHandler h)) ->
  exists h' flushed rt rest,
    flushHistory history h = Ok h' /\
    last (fwdChan h') = Some (newRecord (Record_History flushed) None) /\
    hr_Item flushed =
      hr_Item history ++
        {| hi_Key := "_runtime"; hi_ValueJson := Sprintf_f rt |} :: rest /\
    (GetItem ah "_timestamp" = None -> rt = f64_zero) /\
    (forall it, GetItem ah "_timestamp" = Some it ->
       match ParseFloat (hi_ValueJson it) with
       | Some val =>
           rt = f64_sub val (micros_to_seconds (startTime (timer h) / 1000))
       | None => rt = f64_zero
       end).
Proof.
  intros Hitems Hah Hsum.
  destruct (flushHistory_spec history h ah Hitems Hah Hsum)
    as (imputed & hm & E & F & _).
  eexists _, _, (flushRunTime ah h), _. split; [exact E|].
  split; [rewrite fwdChan_emitHistory; apply last_snoc|].
  split; [reflexivity|]. unfold flushRunTime, Timer_GetStartTimeMicro. split.
  - intros ->. reflexivity.
  - intros it ->. destruct (ParseFloat (hi_ValueJson it)); reflexivity.
Qed.

Lemma appendItems_nil (history : HistoryRecord) : appendItems history [] = history.
Proof. unfold appendItems. rewrite app_nil_r. destruct history; reflexivity. Qed.


(** ** Sampling *)

Lemma parsedValues_nil (key : string) (items : list HistoryItem) :
  parsedValues key items = [] <->
  forall it, it ∈ items -> hi_Key it = key ->
             Unmarshal_float32 (hi_ValueJson it) = None.
Proof.
  unfold parsedValues. induction items as [|x items IH]; simpl.
  - split; [|reflexivity]. intros _ it Hin. inversion Hin.
  - destruct (decide (hi_Key x = key)) as [Hk|Hk].
    + destruct (Unmarshal_float32 (hi_ValueJson x)) as [v|] eqn:Hv; simpl.
      * split; [discriminate|]. intros H.
        specialize (H x (list_elem_of_here _ _) Hk). congruence.
      * rewrite IH. split.
        -- intros H it Hin Hit. apply elem_of_cons in Hin as [->|Hin]; auto.
        -- intros H it Hin Hit. apply H; [right; assumption|assumption].
    + rewrite IH. split.
      * intros H it Hin Hit. apply elem_of_cons in Hin as [->|Hin]; [congruence|auto].
      * intros H it Hin Hit. apply H; [right; assumption|assumption].
Qed.

Lemma parsedValues_app (key : string) (a b : list HistoryItem) :
  parsedValues key (a ++ b) = parsedValues key a ++ parsedValues key b.
Proof. unfold parsedValues. apply omap_app. Qed.

Lemma sampleItem_rejected (m : gmap string ReservoirSampler) (item : HistoryItem) :
  Unmarshal_float32 (hi_ValueJson item) = None -> sampleItem m item = m.
Proof. unfold sampleItem. intros ->. reflexivity. Qed.

Lemma sampleItem_other (m : gmap string ReservoirSampler) (item : HistoryItem)
    (key : string) :
  key <> hi_Key item -> sampleItem m item !! key = m !! key.
Proof.
  intros Hne. unfold sampleItem.
  destruct (Unmarshal_float32 (hi_ValueJson item)) as [v|]; [|reflexivity].
  destruct (m !! hi_Key item);
    rewrite lookup_alter_ne by congruence; [reflexivity|].
  rewrite lookup_insert_ne by congruence. reflexivity.
Qed.

Lemma sampleItem_accepted (m : gmap string ReservoirSampler) (item : HistoryItem)
    (v : float32) :
  Unmarshal_float32 (hi_ValueJson item) = Some v ->
  sampleItem m item !! hi_Key item =
    Some (ReservoirSampler_Add
            (match m !! hi_Key item with
             | Some s => s
             | None => NewReservoirSampler 48 (Qmake 5 10000)
             end) v).
Proof.
  intros Hv. unfold sampleItem. rewrite Hv.
  destruct (m !! hi_Key item) as [s|] eqn:Hs.
  - rewrite lookup_alter_eq, Hs. reflexivity.
  - rewrite lookup_alter_eq, lookup_insert_eq. reflexivity.
Qed.

Lemma offeredTo_sampleItem (m : gmap string ReservoirSampler)
    (item : HistoryItem) (key : string) :
  offeredTo (sampleItem m item) key = offeredTo m key ++ parsedValues key [item].
Proof.
  unfold offeredTo, parsedValues. simpl.
  destruct (decide (hi_Key item = key)) as [<-|Hk].
  - destruct (Unmarshal_float32 (hi_ValueJson item)) as [v|] eqn:Hv.
    + rewrite (sampleItem_accepted m item v Hv). simpl.
      destruct (m !! hi_Key item); reflexivity.
    + rewrite (sampleItem_rejected m item Hv). simpl. rewrite app_nil_r. reflexivity.
  - rewrite sampleItem_other by congruence. simpl. rewrite app_nil_r. reflexivity.
Qed.

Lemma sampleItem_absent (m : gmap string ReservoirSampler) (item : HistoryItem)
    (key : string) :
  sampleItem m item !! key = None <->
  m !! key = None /\ parsedValues key [item] = [].
Proof.
  unfold parsedValues. simpl.
  destruct (decide (hi_Key item = key)) as [<-|Hk].
  - destruct (Unmarshal_float32 (hi_ValueJson item)) as [v|] eqn:Hv.
    + rewrite (sampleItem_accepted m item v Hv). simpl.
      split; [discriminate | intros [_ ?]; discriminate].
    + rewrite (sampleItem_rejected m item Hv). simpl. tauto.
  - rewrite sampleItem_other by congruence. simpl. tauto.
Qed.

Lemma sampleItem_parameters (m : gmap string ReservoirSampler)
    (item : HistoryItem) (key : string) (s : ReservoirSampler) :
  sampleItem m item !! key = Some s ->
  match m !! key with
  | Some s0 => rs_k s = rs_k s0 /\ rs_delta s = rs_delta s0
  | None => rs_k s = 48%nat /\ rs_delta s = Qmake 5 10000
  end.
Proof.
  destruct (decide (hi_Key item = key)) as [<-|Hk].
  - destruct (Unmarshal_float32 (hi_ValueJson item)) as [v|] eqn:Hv.
    + rewrite (sampleItem_accepted m item v Hv). intros E. inversion E.
      destruct (m !! hi_Key item); simpl; auto.
    + rewrite (sampleItem_rejected m item Hv). intros ->. auto.
  - rewrite sampleItem_other by congruence. intros ->. auto.
Qed.

Lemma fold_sampleItem (items : list HistoryItem) :
  forall (m : gmap string ReservoirSampler) (key : string),
    offeredTo (fold_left sampleItem items m) key =
      offeredTo m key ++ parsedValues key items /\
    (fold_left sampleItem items m !! key = None <->
       m !! key = None /\ parsedValues key items = []) /\
    (forall s, fold_left sampleItem items m !! key = Some s ->
       match m !! key with
       | Some s0 => rs_k s = rs_k s0 /\ rs_delta s = rs_delta s0
       | None => rs_k s = 48%nat /\ rs_delta s = Qmake 5 10000
       end).
Proof.
  induction items as [|item items IH]; intros m key.
  - unfold parsedValues. simpl. rewrite app_nil_r.
    split; [reflexivity|]. split; [tauto|]. intros s ->. auto.
  - destruct (IH (sampleItem m item) key) as (Ho & Ha & Hp).
    rewrite (parsedValues_app key [item] items : parsedValues key (item :: items) = _).
    cbn [fold_left]. split; [|split].
    + rewrite Ho, offeredTo_sampleItem, app_assoc. reflexivity.
    + rewrite Ha, sampleItem_absent.
      split.
      * intros [[? H1] H2]. rewrite H1, H2. auto.
      * intros [? H]. apply app_eq_nil in H as [? ?]. auto.
    + intros s Hs. specialize (Hp s Hs).
      destruct (sampleItem m item !! key) as [s1|] eqn:H1.
      * apply sampleItem_parameters in H1.
        destruct (m !! key); destruct Hp, H1; split; congruence.
      * apply sampleItem_absent in H1 as [-> _]. assumption.
Qed.

Lemma samplersOf_sampleHistory (history : HistoryRecord) (h : Handler) :
  samplersOf (sampleHistory history h) =
  fold_left sampleItem (hr_Item history) (samplersOf h).
Proof. unfold samplersOf, sampleHistory. simpl. reflexivity. Qed.

Lemma samplers_never (records : list HistoryRecord) :
  forall (h : Handler) (key : string),
    samplersOf (fold_left (fun h r => sampleHistory r h) records h) !! key = None <->
    samplersOf h !! key = None /\
    forall r it, r ∈ records -> it ∈ hr_Item r -> hi_Key it = key ->
                 Unmarshal_float32 (hi_ValueJson it) = None.
Proof.
  induction records as [|r records IH]; intros h key; simpl.
  - split; [|tauto]. intros H. split; [assumption|]. intros r it Hin. inversion Hin.
  - rewrite IH, samplersOf_sampleHistory.
    destruct (fold_sampleItem (hr_Item r) (samplersOf h) key) as (_ & Ha & _).
    rewrite Ha, parsedValues_nil. split.
    + intros [[H1 H2] H3]. split; [assumption|].
      intros r' it Hin. apply elem_of_cons in Hin as [->|Hin]; eauto.
    + intros [H1 H2]. split; [split; [assumption|]|].
      * intros it Hin. apply (H2 r it); [left|assumption].
      * intros r' it Hin. apply (H2 r' it). right. assumption.
Qed.

Lemma samplers_emitHistory (flushed : HistoryRecord) (h : Handler) :
  samplers (emitHistory flushed h) = samplers (sampleHistory flushed h).
Proof. unfold emitHistory. destruct (summaryHandler h); reflexivity. Qed.

Lemma sampledHistory_keys (record : ServiceRecord) (h : Handler) (key : string) :
  samplersOf h !! key = None ->
  exists response,
    outChan (handleRequestSampledHistory record h) = outChan h ++ [response] /\
    match GetResponseType (res_Response response) with
    | Some (Response_SampledHistoryResponse items) =>
        Forall (fun it => sh_Key it <> key) items
    | Some _ => False
    | None => samplers h = None
    end.
Proof.
  unfold samplersOf, handleRequestSampledHistory, respond. intros Hk.
  eexists. split; [reflexivity|]. simpl.
  destruct (samplers h) as [m|]; simpl; [|reflexivity].
  apply Forall_forall. intros it Hin Hkey.
  apply list_elem_of_fmap in Hin as ([k s] & -> & Hin). simpl in Hkey. subst k.
  apply elem_of_map_to_list in Hin. congruence.
Qed.

(** C6. A flushed record is sampled item by item.  An item whose value does
    not parse as a 32-bit float leaves the samplers as they are; one whose
    value parses is added to the sampler of its key, which is made with
    capacity 48 and weight 0.0005 when the key has none.  So after any
    number of records a key has a sampler exactly when one of its values
    parsed, and [SampledHistory] has no item for a key without one. *)
Theorem sampler_populated_by_floats (history : HistoryRecord) (h : Handler) :
  (forall m item, Unmarshal_float32 (hi_ValueJson item) = None ->
     sampleItem m item = m) /\
  (forall m item v, Unmarshal_float32 (hi_ValueJson item) = Some v ->
     exists s,
       sampleItem m item !! hi_Key item = Some s /\
       rs_offered s = offeredTo m (hi_Key item) ++ [v] /\
       (m !! hi_Key item = None ->
          rs_k s = 48%nat /\ rs_delta s = Qmake 5 10000) /\
       (forall key, key <> hi_Key item -> sampleItem m item !! key = m !! key)) /\
  samplersOf (sampleHistory history h) =
    fold_left sampleItem (hr_Item history) (samplersOf h) /\
  (forall key,
     offeredTo (samplersOf (sampleHistory history h)) key =
       offeredTo (samplersOf h) key ++ parsedValues key (hr_Item history)) /\
  (forall key s,
     samplersOf (sampleHistory history h) !! key = Some s ->
     samplersOf h !! key = None ->
     rs_k s = 48%nat /\ rs_delta s = Qmake 5 10000) /\
  (forall records key,
     samplersOf h !! key = None ->
     (samplersOf (fold_left (fun h r => sampleHistory r h) records h) !! key = None
      <->
      forall r it, r ∈ records -> it ∈ hr_Item r -> hi_Key it = key ->
                   Unmarshal_float32 (hi_ValueJson it) = None)) /\
  (forall ah,
     hr_Item history <> [] ->
     activeHistory h = Some ah ->
     (is_Some (metricHandler h) -> is_Some (summaryHandler h)) ->
     exists h' flushed hm,
       flushHistory history h = Ok h' /\
       last (fwdChan h') = Some (newRecord (Record_History flushed) None) /\
       samplers hm = samplers h /\
       samplers h' = samplers (sampleHistory flushed hm)) /\
  (forall record key,
     samplersOf h !! key = None ->
     exists response,
       outChan (handleRequestSampledHistory record h) = outChan h ++ [response] /\
       match GetResponseType (res_Response response) with
       | Some (Response_SampledHistoryResponse items) =>
           Forall (fun it => sh_Key it <> key) items
       | Some _ => False
       | None => samplers h = None
       end).
Proof.
  split; [exact sampleItem_rejected|].
  split.
  { intros m item v Hv. eexists. split; [apply sampleItem_accepted; exact Hv|].
    split; [|split].
    - unfold offeredTo. destruct (m !! hi_Key item); reflexivity.
    - intros ->. simpl. auto.
    - intros key Hk. apply sampleItem_other. exact Hk. }
  split; [apply samplersOf_sampleHistory|].
  split.
  { intros key. rewrite samplersOf_sampleHistory.
    apply (fold_sampleItem (hr_Item history) (samplersOf h) key). }
  split.
  { intros key s Hs Hnone. rewrite samplersOf_sampleHistory in Hs.
    destruct (fold_sampleItem (hr_Item history) (samplersOf h) key) as (_ & _ & Hp).
    specialize (Hp s Hs). rewrite Hnone in Hp. exact Hp. }
  split.
  { intros records key Hnone. rewrite samplers_never. tauto. }
  split.
  { intros ah Hitems Hah Hsum.
    destruct (flushHistory_spec history h ah Hitems Hah Hsum)
      as (imputed & hm & E & F & _).
    eexists _, _, hm. split; [exact E|].
    split; [rewrite fwdChan_emitHistory; apply last_snoc|].
    split; [apply (frame_samplers _ _ F)|]. apply samplers_emitHistory. }
  intros record key. apply sampledHistory_keys.
Qed.

(** ** The internal items of a flushed record *)

Lemma countKey_app (key : string) (a b : list HistoryItem) :
  countKey key (a ++ b) = (countKey key a + countKey key b)%nat.
Proof. unfold countKey. rewrite filter_app, length_app. reflexivity. Qed.

Lemma countKey_avoided (key : string) (items : list HistoryItem) :
  Forall (fun hi => hi_Key hi <> key) items -> countKey key items = 0%nat.
Proof.
  unfold countKey. induction 1 as [|x l Hx _ IH]; [reflexivity|].
  rewrite filter_cons. destruct (decide (hi_Key x = key)); [contradiction|].
  exact IH.
Qed.

Lemma countKey_internalItems (history : HistoryRecord) (ah : ActiveHistory)
    (h : Handler) :
  countKey "_runtime" (internalItems history ah h) = 1%nat /\
  countKey "_step" (internalItems history ah h) =
    (if XShared (settings h) then 0 else 1)%nat.
Proof.
  unfold internalItems, countKey.
  destruct (XShared (settings h)); split; reflexivity.
Qed.

(** ** Flushing the accumulator *)

Lemma flushFrame_refl (h : Handler) : flushFrame h h.
Proof.
  constructor; try reflexivity.
  - exists []. rewrite app_nil_r. split; [reflexivity | constructor].
  - destruct (activeHistory h) as [ah|]; eauto.
Qed.

Lemma flushFrame_trans (h1 h2 h3 : Handler) :
  flushFrame h1 h2 -> flushFrame h2 h3 -> flushFrame h1 h3.
Proof.
  intros [c1 s1 o1 t1 r1 sm1 tb1 up1 st1 pr1 mb1 fi1 fw1 mh1 su1 ah1]
         [c2 s2 o2 t2 r2 sm2 tb2 up2 st2 pr2 mb2 fi2 fw2 mh2 su2 ah2].
  constructor; try congruence.
  - destruct fw1 as (ms1 & E1 & F1). destruct fw2 as (ms2 & E2 & F2).
    exists (ms1 ++ ms2). rewrite E2, E1, app_assoc. split; [reflexivity|].
    rewrite s1 in F2. apply Forall_app; auto.
  - split; intros X; [apply mh2, mh1, X | apply mh1, mh2, X].
  - split; intros X; [apply su2, su1, X | apply su1, su2, X].
  - destruct (activeHistory h1) as [ah|].
    + destruct ah1 as (a2 & E2 & S2 & F2). rewrite E2 in ah2.
      destruct ah2 as (a3 & E3 & S3 & F3).
      exists a3. repeat split; congruence.
    + rewrite ah1 in ah2. assumption.
Qed.

Lemma imputeFrame_flushFrame (h h' : Handler) :
  imputeFrame h h' -> flushFrame h h'.
Proof.
  intros [c1 s1 o1 t1 r1 su1 sa1 sm1 tb1 up1 st1 pr1 mb1 fi1 fw1 mh1 ah1].
  constructor; try assumption.
  - destruct fw1 as (ms & E & F). exists ms. split; [assumption|].
    eapply Forall_impl; [exact F|]. intros r Hr. left. exact Hr.
  - rewrite su1. reflexivity.
Qed.

Lemma internalItems_hasInternalItems (history : HistoryRecord)
    (ah : ActiveHistory) (h : Handler) (imputed : list HistoryItem) :
  hasInternalItems (XShared (settings h))
    {| hr_Step := hr_Step history;
       hr_Item := hr_Item history ++ internalItems history ah h ++ imputed |}.
Proof.
  destruct (countKey_internalItems history ah h) as [Hrt Hst].
  split; cbn [hr_Item hr_Step].
  - rewrite !countKey_app, Hrt. lia.
  - intros Hshared. split.
    + apply elem_of_app. right. apply elem_of_app. left.
      unfold internalItems. rewrite Hshared. right. left.
    + rewrite !countKey_app, Hst, Hshared. lia.
Qed.

Lemma flushFrame_emitHistory (flushed : HistoryRecord) (h : Handler) :
  hasInternalItems (XShared (settings h)) flushed ->
  flushFrame h (emitHistory flushed h).
Proof.
  intros Hint. unfold emitHistory.
  destruct (summaryHandler h) as [sh|] eqn:Hsh; constructor; try reflexivity;
    simpl; rewrite ?Hsh;
    try (destruct (activeHistory h) as [ah|]; eauto; fail);
    try (split; intros; eauto; fail);
    (eexists; split; [reflexivity|]; constructor; [|constructor];
     right; eexists; split; [reflexivity | exact Hint]).
Qed.

Lemma flushFrame_set_activeHistory (ah ah' : ActiveHistory) (h : Handler) :
  activeHistory h = Some ah ->
  step ah' = step ah -> flush ah' = flush ah ->
  flushFrame h (set_activeHistory (Some ah') h).
Proof.
  intros Hah Hs Hf. constructor; try reflexivity.
  - exists []. simpl. rewrite app_nil_r. split; [reflexivity | constructor].
  - rewrite Hah. simpl. eauto.
Qed.

Lemma historyRecords_app (a b : list ServiceRecord) :
  historyRecords (a ++ b) = historyRecords a ++ historyRecords b.
Proof. unfold historyRecords. apply omap_app. Qed.

Lemma historyRecords_metrics (ms : list ServiceRecord) :
  Forall isMetricRecord ms -> historyRecords ms = [].
Proof.
  unfold historyRecords. induction 1 as [|r ms [m Hr] _ IH]; [reflexivity|].
  simpl. rewrite Hr. exact IH.
Qed.

Lemma GetValues_nil (ah : ActiveHistory) : GetValues ah = [] <-> values ah = ∅.
Proof.
  unfold GetValues. split.
  - intros H. apply fmap_nil_inv in H. apply map_to_list_empty_iff. exact H.
  - intros ->. rewrite map_to_list_empty. reflexivity.
Qed.

(** What [flushHistory] does with any record: nothing for a record without
    items, and else one history record goes out, after metric records
    only. *)
Lemma flushHistory_frame (history : HistoryRecord) (h : Handler)
    (ah : ActiveHistory) :
  activeHistory h = Some ah ->
  (is_Some (metricHandler h) -> is_Some (summaryHandler h)) ->
  exists h',
    flushHistory history h = Ok h' /\
    flushFrame h h' /\
    match hr_Item history with
    | [] => h' = h
    | _ =>
        exists imputed,
          historyRecords (fwdChan h') =
            historyRecords (fwdChan h) ++
              [{| hr_Step := hr_Step history;
                  hr_Item := hr_Item history ++ internalItems history ah h
                               ++ imputed |}]
    end.
Proof.
  intros Hah Hsum.
  destruct (hr_Item history) as [|it its] eqn:Hit.
  { exists h. unfold flushHistory. rewrite Hit.
    split; [reflexivity|]. split; [apply flushFrame_refl | reflexivity]. }
  destruct (flushHistory_spec history h ah) as (imputed & hm & E & F & _);
    [rewrite Hit; discriminate | assumption | assumption |].
  eexists. split; [exact E|]. split.
  - eapply flushFrame_trans; [apply imputeFrame_flushFrame; exact F|].
    apply flushFrame_emitHistory. rewrite (frame_settings _ _ F).
    apply internalItems_hasInternalItems.
  - exists imputed. rewrite fwdChan_emitHistory, historyRecords_app.
    destruct (frame_fwdChan _ _ F) as (ms & Hfwd & Hms).
    rewrite Hfwd, historyRecords_app, (historyRecords_metrics ms Hms), app_nil_r.
    rewrite Hit. reflexivity.
Qed.

(** What [ActiveHistory.Flush] does: the callback, if any, flushes the items
    of the accumulator as one record, and the accumulator is emptied. *)
Lemma ActiveHistory_Flush_spec (h : Handler) :
  (is_Some (metricHandler h) -> is_Some (summaryHandler h)) ->
  exists h',
    ActiveHistory_Flush h = Ok h' /\
    flushFrame h h' /\
    activeHistory h' = Clear <$> activeHistory h /\
    match activeHistory h with
    | Some ah =>
        match flush ah, GetValues ah with
        | Some cb, _ :: _ =>
            exists imputed,
              historyRecords (fwdChan h') =
                historyRecords (fwdChan h) ++
                  [{| hr_Step := hr_Step (callbackRecord cb ah);
                      hr_Item := GetValues ah
                                 ++ internalItems (callbackRecord cb ah) ah h
                                 ++ imputed |}]
        | _, _ => fwdChan h' = fwdChan h
        end
    | None => fwdChan h' = fwdChan h
    end.
Proof.
  intros Hsum. unfold ActiveHistory_Flush.
  destruct (activeHistory h) as [ah|] eqn:Hah.
  2:{ exists h. split; [reflexivity|]. split; [apply flushFrame_refl|].
      rewrite Hah. split; reflexivity. }
  assert (Hclear : forall h1, flushFrame h h1 ->
            flushFrame h (set_activeHistory (Clear <$> activeHistory h1) h1) /\
            activeHistory (set_activeHistory (Clear <$> activeHistory h1) h1)
              = Some (Clear ah)).
  { intros h1 F1. pose proof (ff_activeHistory _ _ F1) as Ha. rewrite Hah in Ha.
    destruct Ha as (ah1 & E1 & S1 & C1). rewrite E1. simpl. split.
    - eapply flushFrame_trans; [exact F1|].
      apply (flushFrame_set_activeHistory ah1); [assumption | | ];
        simpl; reflexivity.
    - unfold Clear. rewrite S1, C1. reflexivity. }
  destruct (flush ah) as [cb|] eqn:Hcb.
  2:{ simpl. destruct (Hclear h (flushFrame_refl h)) as [F E].
      eexists. split; [reflexivity|]. split; [exact F|].
      split; [exact E | reflexivity]. }
  destruct (flushHistory_frame (callbackRecord cb ah) h ah Hah Hsum)
    as (h1 & E1 & F1 & Hrec).
  assert (Ecb : match cb with
                | FlushWithStep =>
                    flushHistory {| hr_Step := step ah; hr_Item := GetValues ah |} h
                | FlushWithoutStep =>
                    flushHistory {| hr_Step := None; hr_Item := GetValues ah |} h
                end = Ok h1).
  { destruct cb; exact E1. }
  rewrite Ecb. simpl. destruct (Hclear h1 F1) as [F E].
  eexists. split; [reflexivity|]. split; [exact F|]. split; [exact E|].
  assert (Hitem : hr_Item (callbackRecord cb ah) = GetValues ah)
    by (destruct cb; reflexivity).
  rewrite Hitem in Hrec. simpl.
  destruct (GetValues ah) as [|v vs]; [subst h1; reflexivity|].
  exact Hrec.
Qed.

(** ** Partial history in the synchronous mode *)

Lemma wrap64_succ_neq (z : Z) : wrap64 (z + 1) <> z.
Proof.
  unfold wrap64. intros H.
  assert (Hm : (z + 1 + 2 ^ 63) mod 2 ^ 64 = z + 2 ^ 63) by lia.
  pose proof (Z.mod_pos_bound (z + 1 + 2 ^ 63) (2 ^ 64) ltac:(lia)) as Hb.
  destruct (Z_lt_dec (z + 1 + 2 ^ 63) (2 ^ 64)) as [Hlt|Hge].
  - rewrite Z.mod_small in Hm by lia. lia.
  - assert (z + 1 + 2 ^ 63 = 2 ^ 64) by lia.
    replace (z + 1 + 2 ^ 63) with (2 ^ 64) in Hm by lia.
    rewrite Z.mod_same in Hm by lia. lia.
Qed.

Lemma flushRequested_spec (request : PartialHistoryRequest) :
  flushRequested request = true <-> specFlushCondition request.
Proof.
  unfold flushRequested, specFlushCondition, GetFlush.
  rewrite orb_true_iff, andb_true_iff, !bool_decide_eq_true.
  destruct (ph_Action request) as [a|]; split.
  - intros [[_ H]|H]; [discriminate|]. right. eauto.
  - intros [[_ H]|(a' & E & H)]; [discriminate|]. inversion E; subst. auto.
  - intros [H|H]; [left; exact H | discriminate].
  - intros [H|(a' & E & _)]; [left; exact H | discriminate].
Qed.

(** A request that is not behind the current step is handled in two parts:
    it is taken into the accumulator, and then the accumulator is flushed
    and the step incremented if the request asks for it. *)
Lemma handlePartialHistorySync_accept (request : PartialHistoryRequest)
    (h : Handler) :
  notBehind request h ->
  handlePartialHistorySync request h =
    hm ← acceptRequest request h;
    if flushRequested request then flushThenIncrement hm else Ok hm.
Proof.
  intros Hnb. unfold handlePartialHistorySync, acceptRequest, flushThenIncrement.
  set (h0 := ensureActiveHistorySync h) in *.
  destruct (ph_Step request) as [s|] eqn:Hs; simpl.
  2:{ destruct (updateValues (ph_Item request) h0); reflexivity. }
  destruct (currentStep h0) as [current|] eqn:Hc; simpl; [|reflexivity].
  specialize (Hnb s current Hs Hc).
  destruct (Z.gtb_spec (Num s) current) as [Hgt|Hle].
  - destruct (ActiveHistory_Flush h0) as [hf|]; simpl; [|reflexivity].
    destruct (updateStep (Num s) hf) as [hu|]; simpl; [|reflexivity].
    destruct (updateValues (ph_Item request) hu); reflexivity.
  - destruct (Z.ltb_spec (Num s) current) as [Hlt|_]; [lia|]. simpl.
    destruct (updateValues (ph_Item request) h0); reflexivity.
Qed.

Lemma currentStep_Some (h : Handler) (ah : ActiveHistory) (n : Z) :
  activeHistory h = Some ah -> step ah = Some {| Num := n |} ->
  currentStep h = Ok n.
Proof. intros Ha Hs. unfold currentStep, GetStep. rewrite Ha. simpl. rewrite Hs. reflexivity. Qed.

Lemma ensureActiveHistorySync_spec (h : Handler) :
  (forall ah, activeHistory h = Some ah -> is_Some (step ah)) ->
  exists ah0 c0,
    activeHistory (ensureActiveHistorySync h) = Some ah0 /\
    step ah0 = Some {| Num := c0 |} /\
    ensureActiveHistorySync h = set_activeHistory (Some ah0) h /\
    match activeHistory h with
    | Some ah => ah0 = ah
    | None =>
        ah0 = NewActiveHistory (Some (GetStartingStep (runRecord h)))
                (Some FlushWithStep)
    end.
Proof.
  intros Hstep. unfold ensureActiveHistorySync.
  destruct (activeHistory h) as [ah|] eqn:Hah.
  - destruct (Hstep ah eq_refl) as [[c0] Hs].
    exists ah, c0. rewrite Hah. repeat split; try assumption.
    destruct h; simpl in *. subst. reflexivity.
  - eexists _, _. simpl. repeat split; reflexivity.
Qed.

Lemma acceptRequest_spec (request : PartialHistoryRequest) (h : Handler) :
  (forall ah, activeHistory h = Some ah -> is_Some (step ah)) ->
  (is_Some (metricHandler h) -> is_Some (summaryHandler h)) ->
  exists hm ah0 ahm c0,
    activeHistory (ensureActiveHistorySync h) = Some ah0 /\
    step ah0 = Some {| Num := c0 |} /\
    acceptRequest request h = Ok hm /\
    activeHistory hm = Some ahm /\
    flush ahm = flush ah0 /\
    (settings hm = settings h /\ internalPrinter hm = internalPrinter h) /\
    (is_Some (metricHandler hm) -> is_Some (summaryHandler hm)) /\
    match ph_Step request with
    | Some s =>
        if Num s >? c0 then
          ahm = UpdateValues (UpdateStep (Clear ah0) (Num s)) (ph_Item request) /\
          (values ah0 = ∅ -> fwdChan hm = fwdChan h)
        else
          ahm = UpdateValues ah0 (ph_Item request) /\ fwdChan hm = fwdChan h
    | None =>
        ahm = UpdateValues ah0 (ph_Item request) /\ fwdChan hm = fwdChan h
    end.
Proof.
  intros Hstep Hsum.
  destruct (ensureActiveHistorySync_spec h Hstep) as (ah0 & c0 & Ha0 & Hs0 & Hh0 & _).
  unfold acceptRequest.
  set (h0 := ensureActiveHistorySync h) in *.
  assert (Hsum0 : is_Some (metricHandler h0) -> is_Some (summaryHandler h0)).
  { rewrite Hh0. exact Hsum. }
  assert (Hset0 : settings h0 = settings h) by (rewrite Hh0; reflexivity).
  assert (Hpr0 : internalPrinter h0 = internalPrinter h) by (rewrite Hh0; reflexivity).
  assert (Hfwd0 : fwdChan h0 = fwdChan h) by (rewrite Hh0; reflexivity).
  assert (Hplain :
    exists hm ahm,
      updateValues (ph_Item request) h0 = Ok hm /\
      activeHistory hm = Some ahm /\ flush ahm = flush ah0 /\
      (settings hm = settings h /\ internalPrinter hm = internalPrinter h) /\
      (is_Some (metricHandler hm) -> is_Some (summaryHandler hm)) /\
      ahm = UpdateValues ah0 (ph_Item request) /\ fwdChan hm = fwdChan h).
  { unfold updateValues. rewrite Ha0. simpl. eexists _, _.
    split; [reflexivity|]. simpl. repeat split; auto. }
  destruct (ph_Step request) as [s|] eqn:Hs.
  2:{ simpl. destruct Hplain as (hm & ahm & E & A & F & S & M & V).
      exists hm, ah0, ahm, c0. rewrite E. simpl. intuition auto. }
  rewrite (currentStep_Some h0 ah0 c0 Ha0 Hs0). simpl.
  destruct (Num s >? c0) eqn:Hg.
  2:{ simpl. destruct Hplain as (hm & ahm & E & A & F & S & M & V).
      exists hm, ah0, ahm, c0. rewrite E, Hg. simpl. intuition auto. }
  destruct (ActiveHistory_Flush_spec h0 Hsum0) as (hf & Ef & Ff & Af & Rf).
  rewrite Ef. simpl. rewrite Ha0 in Af, Rf. simpl in Af.
  unfold updateStep, updateValues. rewrite Af. simpl.
  eexists _, ah0, _, c0. rewrite Hg. split; [exact Ha0|]. split; [exact Hs0|].
  split; [reflexivity|]. simpl. split; [reflexivity|]. split; [reflexivity|].
  split; [rewrite (ff_settings _ _ Ff), (ff_printer _ _ Ff); split; assumption|].
  split.
  { intros Hm. apply (ff_summaryHandler _ _ Ff), Hsum0, (ff_metricHandler _ _ Ff), Hm. }
  split; [reflexivity|].
  intros Hempty. apply GetValues_nil in Hempty. rewrite Hempty in Rf.
  rewrite <- Hfwd0. destruct (flush ah0); exact Rf.
Qed.

Lemma ActiveHistory_Flush_empties (h h' : Handler) :
  ActiveHistory_Flush h = Ok h' ->
  forall ah', activeHistory h' = Some ah' -> values ah' = ∅.
Proof.
  unfold ActiveHistory_Flush. destruct (activeHistory h) as [ah|] eqn:Hah.
  2:{ intros E ah' Ha. inversion E; subst. congruence. }
  destruct (match flush ah with
            | Some FlushWithStep =>
                flushHistory {| hr_Step := step ah; hr_Item := GetValues ah |} h
            | Some FlushWithoutStep =>
                flushHistory {| hr_Step := None; hr_Item := GetValues ah |} h
            | None => Ok h
            end) as [h1|]; simpl; [|discriminate].
  intros E ah' Ha. inversion E; subst h'; clear E. simpl in Ha.
  destruct (activeHistory h1) as [a1|]; simpl in Ha; [|discriminate].
  inversion Ha. reflexivity.
Qed.

Lemma flushThenIncrement_empties (h h' : Handler) :
  flushThenIncrement h = Ok h' ->
  exists ah', activeHistory h' = Some ah' /\ values ah' = ∅.
Proof.
  unfold flushThenIncrement.
  destruct (ActiveHistory_Flush h) as [hf|] eqn:Ef; simpl; [|discriminate].
  destruct (currentStep hf) as [c|]; simpl; [|discriminate].
  unfold updateStep. destruct (activeHistory hf) as [af|] eqn:Haf; simpl;
    [|discriminate].
  intros E. inversion E; subst h'; clear E. simpl. eexists. split; [reflexivity|].
  simpl. exact (ActiveHistory_Flush_empties h hf Ef af Haf).
Qed.

Lemma flushThenIncrement_spec (hm : Handler) (ahm : ActiveHistory) (current : Z) :
  activeHistory hm = Some ahm ->
  step ahm = Some {| Num := current |} ->
  (is_Some (metricHandler hm) -> is_Some (summaryHandler hm)) ->
  exists hf,
    ActiveHistory_Flush hm = Ok hf /\
    flushFrame hm hf /\
    currentStep hf = Ok current /\
    activeHistory hf = Some (Clear ahm) /\
    flushThenIncrement hm =
      Ok (set_activeHistory
            (Some (UpdateStep (Clear ahm) (wrap64 (current + 1)))) hf).
Proof.
  intros Ha Hs Hsum.
  destruct (ActiveHistory_Flush_spec hm Hsum) as (hf & Ef & Ff & Af & _).
  rewrite Ha in Af. simpl in Af.
  assert (Hc : currentStep hf = Ok current).
  { apply (currentStep_Some hf (Clear ahm)); [assumption|]. simpl. assumption. }
  exists hf. split; [assumption|]. split; [assumption|]. split; [assumption|].
  split; [assumption|].
  unfold flushThenIncrement. rewrite Ef. simpl. rewrite Hc. simpl.
  unfold updateStep. rewrite Af. reflexivity.
Qed.

(** C3, as the code has it.  In the synchronous mode a request that is not
    behind the current step is first taken into the accumulator.  Then the
    accumulator is flushed and the current step is incremented by one (in
    64-bit arithmetic) if and only if the request has neither step nor
    action, or its action says flush; otherwise the request ends there. *)
Theorem sync_flush_condition (request : PartialHistoryRequest) (h : Handler) :
  syncReady h ->
  notBehind request h ->
  exists hm current,
    acceptRequest request h = Ok hm /\
    currentStep hm = Ok current /\
    (specFlushCondition request ->
       exists hf h',
         ActiveHistory_Flush hm = Ok hf /\
         currentStep hf = Ok current /\
         updateStep (wrap64 (current + 1)) hf = Ok h' /\
         handleRequestPartialHistory request h = Ok h' /\
         currentStep h' = Ok (wrap64 (current + 1)) /\
         (int64_range (current + 1) -> currentStep h' = Ok (current + 1)) /\
         exists ah', activeHistory h' = Some ah' /\ values ah' = ∅) /\
    (~ specFlushCondition request ->
       handleRequestPartialHistory request h = Ok hm) /\
    (specFlushCondition request <->
       exists h', handleRequestPartialHistory request h = Ok h' /\
                  currentStep h' = Ok (wrap64 (current + 1))).
Proof.
  intros (Hsync & Hstep & Hsum) Hnb.
  destruct (acceptRequest_spec request h Hstep Hsum)
    as (hm & ah0 & ahm & c0 & Ha0 & Hs0 & Ehm & Ahm & Fl & Hset & Hsm & Shape).
  assert (Hcur : exists current, step ahm = Some {| Num := current |}).
  { destruct (ph_Step request) as [s|].
    - destruct (Num s >? c0); destruct Shape as [-> _]; simpl; eauto.
    - destruct Shape as [-> _]. simpl. eauto. }
  destruct Hcur as (current & Hcur).
  exists hm, current. split; [exact Ehm|].
  pose proof (currentStep_Some hm ahm current Ahm Hcur) as Hc.
  split; [exact Hc|].
  assert (Hhandle : handleRequestPartialHistory request h =
                    if flushRequested request then flushThenIncrement hm else Ok hm).
  { unfold handleRequestPartialHistory. rewrite Hsync.
    rewrite (handlePartialHistorySync_accept request h Hnb), Ehm. reflexivity. }
  destruct (flushThenIncrement_spec hm ahm current Ahm Hcur Hsm)
    as (hf & Ef & Ff & Cf & Af & Einc).
  assert (Hyes : specFlushCondition request ->
    exists hf h',
      ActiveHistory_Flush hm = Ok hf /\
      currentStep hf = Ok current /\
      updateStep (wrap64 (current + 1)) hf = Ok h' /\
      handleRequestPartialHistory request h = Ok h' /\
      currentStep h' = Ok (wrap64 (current + 1)) /\
      (int64_range (current + 1) -> currentStep h' = Ok (current + 1)) /\
      exists ah', activeHistory h' = Some ah' /\ values ah' = ∅).
  { intros Hcond. apply flushRequested_spec in Hcond.
    rewrite Hcond, Einc in Hhandle.
    exists hf. eexists. split; [exact Ef|]. split; [exact Cf|].
    split; [unfold updateStep; rewrite Af; reflexivity|].
    split; [exact Hhandle|].
    assert (Hnew : currentStep
                     (set_activeHistory
                        (Some (UpdateStep (Clear ahm) (wrap64 (current + 1)))) hf)
                   = Ok (wrap64 (current + 1))) by reflexivity.
    split; [exact Hnew|].
    split; [intros Hr; rewrite Hnew, (wrap64_id _ Hr); reflexivity|].
    eexists. split; reflexivity. }
  assert (Hno : ~ specFlushCondition request ->
                handleRequestPartialHistory request h = Ok hm).
  { intros Hn. rewrite Hhandle.
    destruct (flushRequested request) eqn:Hf; [|reflexivity].
    apply flushRequested_spec in Hf. contradiction. }
  split; [exact Hyes|]. split; [exact Hno|]. split.
  - intros Hcond. destruct (Hyes Hcond) as (_ & h' & _ & _ & _ & E & C & _). eauto.
  - intros (h' & E & C).
    destruct (flushRequested request) eqn:Hf;
      [apply flushRequested_spec; exact Hf|].
    rewrite Hhandle in E. inversion E; subst h'.
    rewrite Hc in C. inversion C as [Heq].
    exfalso. apply (wrap64_succ_neq current). congruence.
Qed.

(** ** Replaying a request *)

Lemma requestValues_of (ah : ActiveHistory) (items : list HistoryItem) :
  values ah = ∅ -> GetValues (UpdateValues ah items) = requestValues items.
Proof. unfold requestValues, GetValues, UpdateValues. simpl. intros ->. reflexivity. Qed.

Lemma requestValues_nil : requestValues [] = [].
Proof. unfold requestValues, GetValues. simpl. rewrite map_to_list_empty. reflexivity. Qed.

Lemma requestValues_nonempty (items : list HistoryItem) :
  items <> [] -> requestValues items <> [].
Proof.
  intros Hne. unfold requestValues. rewrite GetValues_nil. simpl.
  destruct items as [|x items] using rev_ind; [congruence|].
  rewrite fold_left_app. simpl. intros H.
  apply (f_equal (fun m => m !! hi_Key x)) in H.
  rewrite lookup_insert_eq, lookup_empty in H. discriminate.
Qed.

Lemma requestValues_keys (items : list HistoryItem) (it : HistoryItem) :
  it ∈ items ->
  exists it', it' ∈ requestValues items /\ hi_Key it' = hi_Key it.
Proof.
  unfold requestValues, GetValues. simpl. intros Hin.
  assert (Hinv : forall (l : list HistoryItem) (m : gmap string HistoryItem),
            (forall k v, m !! k = Some v -> hi_Key v = k) ->
            (forall k v, fold_left (fun m it => <[hi_Key it := it]> m) l m !! k = Some v ->
                         hi_Key v = k) /\
            (forall x, (x ∈ l \/ is_Some (m !! hi_Key x)) ->
                       is_Some (fold_left (fun m it => <[hi_Key it := it]> m) l m
                                  !! hi_Key x))).
  { induction l as [|y l IH]; intros m Hm; simpl.
    - split; [exact Hm|]. intros x [Hx|Hx]; [inversion Hx | exact Hx].
    - destruct (IH (<[hi_Key y := y]> m)) as [I1 I2].
      + intros k v. destruct (decide (hi_Key y = k)) as [<-|Hk].
        * rewrite lookup_insert_eq. intros E. inversion E. reflexivity.
        * rewrite lookup_insert_ne by assumption. apply Hm.
      + split; [exact I1|]. intros x [Hx|Hx]; apply I2.
        * apply elem_of_cons in Hx as [->|Hx]; [right|left; assumption].
          rewrite lookup_insert_eq. eauto.
        * right. destruct (decide (hi_Key y = hi_Key x)) as [->|Hk].
          -- rewrite lookup_insert_eq. eauto.
          -- rewrite lookup_insert_ne by assumption. exact Hx. }
  destruct (Hinv items ∅) as [I1 I2].
  { intros k v. rewrite lookup_empty. discriminate. }
  destruct (I2 it (or_introl Hin)) as [v Hv].
  exists v. split; [|exact (I1 _ _ Hv)].
  apply list_elem_of_fmap. exists (hi_Key it, v). split; [reflexivity|].
  apply elem_of_map_to_list. exact Hv.
Qed.

Lemma syncIdle_ensure (h : Handler) :
  syncIdle h ->
  exists ah0 c0,
    activeHistory (ensureActiveHistorySync h) = Some ah0 /\
    step ah0 = Some {| Num := c0 |} /\
    values ah0 = ∅ /\ flush ah0 = Some FlushWithStep /\
    (forall ah, activeHistory h = Some ah -> ah0 = ah).
Proof.
  intros [(Hsync & Hstep & Hsum) Hidle].
  destruct (ensureActiveHistorySync_spec h Hstep) as (ah0 & c0 & Ha0 & Hs0 & _ & Hsh).
  exists ah0, c0. split; [assumption|]. split; [assumption|].
  destruct (activeHistory h) as [ah|] eqn:Hah.
  - subst ah0. destruct (Hidle ah eq_refl) as [Hv Hf].
    split; [assumption|]. split; [assumption|]. intros ? E. congruence.
  - subst ah0. simpl. split; [reflexivity|]. split; [reflexivity|]. discriminate.
Qed.

(** A request with [flush] that is not behind the current step, handled
    when nothing is pending: its items go out as one history record at the
    step of the request, or nothing goes out when it has no items; the step
    moves on by one and nothing is pending again. *)
Lemma sync_flush_run (request : PartialHistoryRequest) (h : Handler) :
  syncIdle h ->
  GetFlush (ph_Action request) = true ->
  notBehind request h ->
  exists h1 ah0 c0,
    activeHistory (ensureActiveHistorySync h) = Some ah0 /\
    step ah0 = Some {| Num := c0 |} /\
    let c1 := match ph_Step request with
              | Some s => if Num s >? c0 then Num s else c0
              | None => c0
              end in
    handleRequestPartialHistory request h = Ok h1 /\
    syncIdle h1 /\
    currentStep h1 = Ok (wrap64 (c1 + 1)) /\
    internalPrinter h1 = internalPrinter h /\
    match requestValues (ph_Item request) with
    | [] => fwdChan h1 = fwdChan h
    | _ =>
        exists r,
          historyRecords (fwdChan h1) = historyRecords (fwdChan h) ++ [r] /\
          hr_Step r = Some {| Num := c1 |} /\
          forall it, it ∈ requestValues (ph_Item request) -> it ∈ hr_Item r
    end.
Proof.
  intros Hidle Hflush Hnb.
  destruct (syncIdle_ensure h Hidle) as (ah0 & c0 & Ha0 & Hs0 & Hv0 & Hf0 & _).
  destruct Hidle as [(Hsync & Hstep & Hsum) Hidle].
  destruct (acceptRequest_spec request h Hstep Hsum)
    as (hm & ah0' & ahm & c0' & Ha0' & Hs0' & Ehm & Ahm & Fl & [Hset Hpr] & Hsm & Shape).
  rewrite Ha0 in Ha0'. inversion Ha0'; subst ah0'; clear Ha0'.
  rewrite Hs0 in Hs0'. inversion Hs0'; subst c0'; clear Hs0'.
  set (c1 := match ph_Step request with
             | Some s => if Num s >? c0 then Num s else c0
             | None => c0
             end).
  assert (Hm : step ahm = Some {| Num := c1 |} /\
               GetValues ahm = requestValues (ph_Item request) /\
               fwdChan hm = fwdChan h).
  { unfold c1. destruct (ph_Step request) as [s|].
    - destruct (Num s >? c0).
      + destruct Shape as [-> Hfw]. split; [reflexivity|].
        split; [apply requestValues_of; reflexivity | auto].
      + destruct Shape as [-> Hfw]. split; [exact Hs0|].
        split; [apply requestValues_of; assumption | assumption].
    - destruct Shape as [-> Hfw]. split; [exact Hs0|].
      split; [apply requestValues_of; assumption | assumption]. }
  destruct Hm as (Hsm1 & Hvals & Hfwd).
  destruct (flushThenIncrement_spec hm ahm c1 Ahm Hsm1 Hsm)
    as (hf & Ef & Ff & Cf & Af & Einc).
  destruct (ActiveHistory_Flush_spec hm Hsm) as (hf' & Ef' & _ & _ & Rf).
  rewrite Ef in Ef'. inversion Ef'; subst hf'; clear Ef'.
  rewrite Ahm, Fl, Hf0, Hvals in Rf.
  assert (Hreq : flushRequested request = true).
  { unfold flushRequested. rewrite Hflush. apply orb_true_r. }
  eexists _, ah0, c0. split; [exact Ha0|]. split; [exact Hs0|]. cbv zeta.
  fold c1. split.
  { unfold handleRequestPartialHistory. rewrite Hsync.
    rewrite (handlePartialHistorySync_accept request h Hnb), Ehm. simpl.
    rewrite Hreq. exact Einc. }
  split.
  { split; [split; [|split]|]; simpl.
    - rewrite (ff_settings _ _ Ff), Hset. exact Hsync.
    - intros ah E. inversion E. simpl. eauto.
    - intros X. apply (ff_summaryHandler _ _ Ff), Hsm, (ff_metricHandler _ _ Ff), X.
    - intros ah E. inversion E. simpl. split; [reflexivity|]. congruence. }
  split; [reflexivity|].
  split; [simpl; rewrite (ff_printer _ _ Ff); exact Hpr|].
  cbn [fwdChan set_activeHistory].
  destruct (requestValues (ph_Item request)) as [|v vs] eqn:Hrv.
  - rewrite Rf. exact Hfwd.
  - destruct Rf as (imputed & Hrec). rewrite Hrec, Hfwd. eexists.
    split; [reflexivity|]. cbn [hr_Step hr_Item callbackRecord].
    split; [exact Hsm1|].
    intros it Hin. apply elem_of_app. left. exact Hin.
Qed.

Lemma currentStep_inv (h : Handler) (c : Z) :
  currentStep h = Ok c ->
  ensureActiveHistorySync h = h /\
  exists ah, activeHistory h = Some ah /\ step ah = Some {| Num := c |}.
Proof.
  unfold currentStep, ensureActiveHistorySync, GetStep.
  destruct (activeHistory h) as [ah|]; simpl; [|discriminate].
  destruct (step ah) as [[n]|] eqn:Hs; simpl; [|discriminate].
  intros E. inversion E; subst. split; [reflexivity|]. eauto.
Qed.

(** C9, as the code has it.  In the synchronous mode, a request with
    [flush], handled twice in a row when nothing is pending: the
    accumulator, if there is one, is the one of the synchronous mode (it
    has a step and the callback that flushes with the step) and holds no
    item; the step of the request, if it has one, is not behind the current
    step, and the step after it is still an int64.  Without items neither
    run forwards anything.  With items the first run forwards one history
    record that has them; without a step the replay forwards a second
    record with the same items at the next step, and with a step the replay
    is behind the step the first run moved to and is dropped with a
    message. *)
Theorem replay_of_flush_request (request : PartialHistoryRequest) (h : Handler) :
  syncIdle h ->
  GetFlush (ph_Action request) = true ->
  notBehind request h ->
  (forall s, ph_Step request = Some s -> int64_range (Num s + 1)) ->
  exists h1 h2 c0,
    currentStep (ensureActiveHistorySync h) = Ok c0 /\
    handleRequestPartialHistory request h = Ok h1 /\
    handleRequestPartialHistory request h1 = Ok h2 /\
    (ph_Item request = [] -> fwdChan h2 = fwdChan h) /\
    (ph_Item request <> [] ->
       exists r1,
         historyRecords (fwdChan h1) = historyRecords (fwdChan h) ++ [r1] /\
         (forall it, it ∈ requestValues (ph_Item request) -> it ∈ hr_Item r1) /\
         (forall it, it ∈ ph_Item request ->
            exists it', it' ∈ hr_Item r1 /\ hi_Key it' = hi_Key it) /\
         match ph_Step request with
         | None =>
             hr_Step r1 = Some {| Num := c0 |} /\
             exists r2,
               historyRecords (fwdChan h2) =
                 historyRecords (fwdChan h) ++ [r1; r2] /\
               hr_Step r2 = Some {| Num := wrap64 (c0 + 1) |} /\
               (forall it, it ∈ requestValues (ph_Item request) -> it ∈ hr_Item r2)
         | Some s =>
             hr_Step r1 = Some s /\
             fwdChan h2 = fwdChan h1 /\
             activeHistory h2 = activeHistory h1 /\
             internalPrinter h2 =
               internalPrinter h1 ++ [stepRegressionMessage (Num s) (Num s + 1)]
         end).
Proof.
  intros Hidle Hflush Hnb Hrange.
  destruct (sync_flush_run request h Hidle Hflush Hnb)
    as (h1 & ah0 & c0 & Ha0 & Hs0 & E1 & Hidle1 & C1 & Pr1 & R1).
  cbv zeta in E1, C1, R1.
  pose proof (currentStep_Some _ ah0 c0 Ha0 Hs0) as Hc0.
  destruct (currentStep_inv h1 _ C1) as (Hens1 & ah1 & Ha1 & Hs1).
  assert (Hstepc : forall s, ph_Step request = Some s ->
            (if Num s >? c0 then Num s else c0) = Num s).
  { intros s Hs. specialize (Hnb s c0 Hs Hc0).
    destruct (Z.gtb_spec (Num s) c0); lia. }
  destruct (ph_Step request) as [s|] eqn:Hs.
  - (* with a step: the replay is dropped *)
    rewrite (Hstepc s eq_refl) in C1, R1.
    rewrite (wrap64_id _ (Hrange s eq_refl)) in C1.
    assert (E2 : handleRequestPartialHistory request h1 =
                 Ok (Printer_Write (stepRegressionMessage (Num s) (Num s + 1))
                       (log LevelCaptureWarn
                          "handlePartialHistorySync: ignoring history record"
                          [("step", Sprintf_d (Num s));
                           ("current", Sprintf_d (Num s + 1))] h1))).
    { unfold handleRequestPartialHistory.
      destruct Hidle1 as [(Hsync1 & _) _]. rewrite Hsync1.
      rewrite (handlePartialHistorySync_behind request h1 s (Num s + 1));
        [rewrite Hens1; reflexivity | assumption | rewrite Hens1; assumption | lia]. }
    eexists h1, _, c0. split; [exact Hc0|]. split; [exact E1|]. split; [exact E2|].
    split.
    + intros Hnil. rewrite Hnil, requestValues_nil in R1. simpl. exact R1.
    + intros Hne. pose proof (requestValues_nonempty _ Hne) as Hrv.
      destruct (requestValues (ph_Item request)) as [|v vs] eqn:Hreq; [congruence|].
      destruct R1 as (r1 & Hh & Hst & Hin). exists r1.
      split; [exact Hh|]. split; [exact Hin|]. split.
      * intros it Hit. destruct (requestValues_keys _ it Hit) as (it' & Hin' & Hk).
        rewrite Hreq in Hin'. eauto.
      * split; [rewrite Hst; destruct s; reflexivity|].
        split; [reflexivity|]. split; reflexivity.
  - (* without a step: the replay is flushed as well *)
    assert (Hnb1 : notBehind request h1).
    { intros s c Hs'. congruence. }
    destruct (sync_flush_run request h1 Hidle1 Hflush Hnb1)
      as (h2 & ah1' & c1' & Ha1' & Hs1' & E2 & _ & _ & _ & R2).
    cbv zeta in E2, R2. rewrite Hs in R2.
    rewrite Hens1, Ha1 in Ha1'. inversion Ha1'; subst ah1'; clear Ha1'.
    rewrite Hs1 in Hs1'. inversion Hs1'; subst c1'; clear Hs1'.
    exists h1, h2, c0. split; [exact Hc0|]. split; [exact E1|]. split; [exact E2|].
    split.
    + intros Hnil. rewrite Hnil, requestValues_nil in R1, R2. congruence.
    + intros Hne. pose proof (requestValues_nonempty _ Hne) as Hrv.
      destruct (requestValues (ph_Item request)) as [|v vs] eqn:Hreq; [congruence|].
      destruct R1 as (r1 & Hh1 & Hst1 & Hin1).
      destruct R2 as (r2 & Hh2 & Hst2 & Hin2).
      exists r1. split; [exact Hh1|]. split; [exact Hin1|]. split.
      * intros it Hit. destruct (requestValues_keys _ it Hit) as (it' & Hin' & Hk).
        rewrite Hreq in Hin'. eauto.
      * split; [exact Hst1|]. exists r2.
        split; [rewrite Hh2, Hh1, <- app_assoc; reflexivity|].
        split; [exact Hst2 | exact Hin2].
Qed.

(** ** Defer *)

Lemma fwdSummary_ok (h : Handler) (sh : SummaryHandler) :
  summaryHandler h = Some sh ->
  exists r,
    GetRecordType r =
      Some (Record_Summary
              {| Update := map (fun kv => {| si_Key := fst kv; si_ValueJson := snd kv |})
                               (map_to_list (summaryDelta sh)) |}) /\
    fwdSummary h =
      Ok (set_summaryHandler
            (Some {| consolidatedSummary := consolidatedSummary sh;
                     summaryDelta := ∅ |})
            (fwdRecord (Some r) h)).
Proof.
  intros Hsh. unfold fwdSummary. rewrite Hsh. simpl.
  eexists. split; [|reflexivity]. reflexivity.
Qed.

Lemma deferSideEffect_ok (w : World) (state : DeferState) (h : Handler) :
  deferReady state h -> exists hs, deferSideEffect w state h = Ok hs.
Proof.
  destruct state; simpl; intros Hready; eauto.
  - destruct (ActiveHistory_Flush_spec h Hready) as (hs & E & _). eauto.
  - destruct Hready as [sh Hsh]. unfold handleSummary, consolidateAndUpdateDelta,
      SummaryHandler_Flush, fwdSummary, writeAndSendSummaryFile.
    destruct (XSync (settings h)) eqn:Hsync;
      repeat (simpl; rewrite ?Hsh, ?Hsync); eauto.
    destruct (marshal_summary_ok w); simpl; eauto.
  - destruct Hready as [stats Hst]. rewrite Hst. simpl. eauto.
Qed.

(** X21. On a handler that has the collaborator the state needs (the
    summary handler for [FLUSH_SUM], and for [FLUSH_PARTIAL_HISTORY] when
    there is a registry of metrics; the file-transfer statistics for [END]),
    a defer request has the side effect of its state first and is then
    forwarded once, as a copy with [always_send] and [local] set.  A state
    without side effect leaves the handler as it is and an unknown state
    only adds a line to the log; [FLUSH_STATS] stops the monitor,
    [FLUSH_TB] closes the TensorBoard handler, [FLUSH_FP] tells the
    uploader, if there is one, to upload what remains, [FLUSH_FINAL]
    forwards a final and then a footer record unless the handler syncs, and
    [END] marks the statistics done. *)
Theorem defer_side_effect_then_forward (w : World) (record : ServiceRecord)
    (request : DeferRequest) (h : Handler) :
  deferReady (State request) h ->
  exists hs forwarded c,
    deferSideEffect w (State request) h = Ok hs /\
    handleRequestDefer w record request h =
      Ok (set_fwdChan (fwdChan hs ++ [forwarded]) hs) /\
    GetRecordType forwarded = GetRecordType record /\
    Uuid forwarded = Uuid record /\
    GetControl forwarded = Some c /\
    AlwaysSend c = true /\ Local c = true /\
    (forall c0, GetControl record = Some c0 ->
                ReqResp c = ReqResp c0 /\ MailboxSlot c = MailboxSlot c0) /\
    (deferIdleState (State request) -> hs = h) /\
    (forall n, State request = DeferState_other n ->
               exists entry, hs = set_logger (logger h ++ [entry]) h) /\
    (State request = FLUSH_STATS ->
       hs = set_systemMonitor (systemMonitor h ++ [Monitor_Stop]) h) /\
    (State request = FLUSH_PARTIAL_HISTORY -> ActiveHistory_Flush h = Ok hs) /\
    (State request = FLUSH_TB ->
       hs = set_tbHandler (tbHandler h ++ [TB_Close]) h) /\
    (State request = FLUSH_SUM ->
       (h1 ← handleSummary w {| Update := [] |} h;
        h2 ← SummaryHandler_Flush h1;
        writeAndSendSummaryFile w h2) = Ok hs) /\
    (State request = FLUSH_FP ->
       hs = set_runfilesUploaderOrNil
              ((fun calls => calls ++ [UploadRemaining]) <$>
                 runfilesUploaderOrNil h) h) /\
    (State request = FLUSH_FINAL ->
       hs = set_fwdChan
              (fwdChan h ++
               if XSync (settings h) then []
               else [newRecord Record_Final (Some Control_zero);
                     newRecord Record_Footer (Some Control_zero)]) h) /\
    (State request = END ->
       exists stats,
         fileTransferStats h = Some stats /\
         hs = set_fileTransferStats (Some (SetDone stats)) h /\
         IsDone (SetDone stats) = true /\
         fwdChan hs = fwdChan h).
Proof.
  intros Hready.
  destruct (deferSideEffect_ok w (State request) h Hready) as (hs & Ehs).
  exists hs, (withControl record [set_AlwaysSend true; set_Local true]).
  eexists. split; [exact Ehs|].
  split; [unfold handleRequestDefer; rewrite Ehs; reflexivity|].
  split; [reflexivity|]. split; [reflexivity|].
  split; [reflexivity|]. split; [reflexivity|]. split; [reflexivity|].
  split; [intros c0 ->; split; reflexivity|].
  split.
  { intros Hidle. unfold deferIdleState in Hidle.
    destruct Hidle as [E|[E|[E|[E|[E|[E|[E|E]]]]]]]; rewrite E in Ehs;
      inversion Ehs; reflexivity. }
  split.
  { intros n E. rewrite E in Ehs. inversion Ehs. eexists. reflexivity. }
  split; [intros E; rewrite E in Ehs; inversion Ehs; reflexivity|].
  split; [intros E; rewrite E in Ehs; exact Ehs|].
  split; [intros E; rewrite E in Ehs; inversion Ehs; reflexivity|].
  split; [intros E; rewrite E in Ehs; exact Ehs|].
  split.
  { intros E; rewrite E in Ehs; inversion Ehs. unfold uploaderCall.
    destruct (runfilesUploaderOrNil h) eqn:Hu; [reflexivity|].
    destruct h; cbn in *. rewrite Hu. reflexivity. }
  split.
  { intros E; rewrite E in Ehs; inversion Ehs.
    unfold handleFooter, handleFinal.
    destruct (XSync (settings h)) eqn:Hs; cbn; rewrite ?Hs; cbn.
    - rewrite app_nil_r. destruct h; reflexivity.
    - rewrite <- app_assoc. reflexivity. }
  intros E. rewrite E in Ehs, Hready. destruct Hready as [stats Hst].
  simpl in Ehs. rewrite Hst in Ehs. simpl in Ehs. inversion Ehs.
  exists stats. split; [exact Hst|]. repeat split; reflexivity.
Qed.

(** ** What the handler forwards and writes

    One argument for two properties of every record the handler forwards
    and every file it writes: [okRecord] holds of every record that is no
    history, final or footer record, of a final or footer record when
    the handler does not sync, and of a history record with its internal
    items; [okFile] holds of every file but the summary file, and of that
    one when the handler does not sync. *)

Section Forwarding.
Context (sync shared : bool).
Context (okRecord : ServiceRecord -> Prop) (okFile : FileWrite -> Prop).
Context (okRecord_other :
           forall r, ~ isFinalOrFooter r -> ~ isHistoryRecord r -> okRecord r).
Context (okRecord_final :
           sync = false -> forall r, isFinalOrFooter r -> okRecord r).
Context (okRecord_flushed : forall r, isFlushedRecord shared r -> okRecord r).
Context (okFile_other : forall f, ~ isSummaryFileWrite f -> okFile f).
Context (okFile_summary : sync = false -> forall f, okFile f).

Lemma forwardsStep_refl (h : Handler) : forwardsStep okRecord okFile h h.
Proof.
  split; [|trivial]. split; [reflexivity|].
  split; exists []; rewrite app_nil_r; (split; [reflexivity | constructor]).
Qed.

Lemma forwardsStep_trans (h1 h2 h3 : Handler) :
  forwardsStep okRecord okFile h1 h2 -> forwardsStep okRecord okFile h2 h3 ->
  forwardsStep okRecord okFile h1 h3.
Proof.
  intros [(S1 & (n1 & E1 & F1) & (w1 & W1 & G1)) P1]
         [(S2 & (n2 & E2 & F2) & (w2 & W2 & G2)) P2].
  split; [|auto]. split; [congruence|]. split.
  - exists (n1 ++ n2). rewrite E2, E1, app_assoc. split; [reflexivity|].
    apply Forall_app; auto.
  - exists (w1 ++ w2). rewrite W2, W1, app_assoc. split; [reflexivity|].
    apply Forall_app; auto.
Qed.

Lemma forwardsStep_intro (h h' : Handler) (new : list ServiceRecord)
    (written : list FileWrite) :
  settings h' = settings h ->
  fwdChan h' = fwdChan h ++ new ->
  Forall okRecord new ->
  files h' = files h ++ written ->
  Forall okFile written ->
  (is_Some (summaryHandler h) -> is_Some (summaryHandler h')) ->
  forwardsStep okRecord okFile h h'.
Proof. intros. split; [|assumption]. split; [assumption|]. split; eauto. Qed.

Lemma forwardsStep_settings (h h' : Handler) :
  forwardsStep okRecord okFile h h' -> settings h' = settings h.
Proof. intros [[H _] _]. exact H. Qed.

Lemma forwardsStep_summary (h h' : Handler) :
  forwardsStep okRecord okFile h h' ->
  is_Some (summaryHandler h) -> is_Some (summaryHandler h').
Proof. intros [_ H]. exact H. Qed.

Lemma forwardsStep_flushFrame (h h' : Handler) :
  XShared (settings h) = shared ->
  flushFrame h h' -> forwardsStep okRecord okFile h h'.
Proof.
  intros Hshared F. destruct (ff_fwdChan _ _ F) as (new & E & Hnew).
  apply (forwardsStep_intro h h' new []).
  - apply (ff_settings _ _ F).
  - exact E.
  - eapply Forall_impl; [exact Hnew|]. intros r [[m Hm]|Hr].
    + apply okRecord_other; [intros [H|H]; congruence | intros [hr H]; congruence].
    + apply okRecord_flushed. rewrite <- Hshared. exact Hr.
  - rewrite app_nil_r. apply (ff_files _ _ F).
  - constructor.
  - apply (ff_summaryHandler _ _ F).
Qed.

(** Closes [okRecord r] for a record that is no history, final or footer
    record. *)
Ltac other_record :=
  apply okRecord_other;
  [ let H := fresh in intros [H|H]; cbn in H; congruence
  | let H := fresh in intros [? H]; cbn in H; congruence ].

(** Closes [forwardsStep okRecord okFile h h'] when [h'] is built from [h]
    by setters, forwards no history, final or footer record and does not
    write the summary file. *)
Ltac forward_fields :=
  eapply forwardsStep_intro;
  [ reflexivity
  | cbn; rewrite <- ?app_assoc;
    first [ reflexivity | symmetry; apply app_nil_r ]
  | repeat constructor; other_record
  | cbn; rewrite <- ?app_assoc;
    first [ reflexivity | symmetry; apply app_nil_r ]
  | repeat constructor; apply okFile_other;
    let H := fresh in
    intros [? H]; cbn in H; congruence
  | cbn; eauto ].

Lemma fwdSummary_forwards (h h' : Handler) :
  fwdSummary h = Ok h' -> forwardsStep okRecord okFile h h'.
Proof.
  unfold fwdSummary. destruct (summaryHandler h) as [sh|]; simpl; [|discriminate].
  intros E. inversion E; subst h'. forward_fields.
Qed.

Lemma handleFiles_forwards (record : ServiceRecord) (h : Handler) :
  forwardsStep okRecord okFile h (handleFiles record h).
Proof.
  unfold handleFiles, GetFiles.
  destruct (GetRecordType record) as [[]|] eqn:Hty; try apply forwardsStep_refl.
  destruct f; [|apply forwardsStep_refl].
  eapply forwardsStep_intro;
    [reflexivity | reflexivity | | symmetry; apply app_nil_r | constructor | auto].
  constructor; [|constructor].
  apply okRecord_other; [intros [H|H]; congruence | intros [hr H]; congruence].
Qed.

Lemma handleCodeSave_forwards (w : World) (h : Handler) :
  forwardsStep okRecord okFile h (handleCodeSave w h).
Proof.
  unfold handleCodeSave.
  repeat match goal with
         | |- context [if ?b then _ else _] => destruct b
         end;
    try apply forwardsStep_refl; try forward_fields.
Qed.

Lemma handlePatchSave_forwards (w : World) (h : Handler) :
  forwardsStep okRecord okFile h (handlePatchSave w h).
Proof.
  unfold handlePatchSave.
  destruct (DisableGit (settings h)); [apply forwardsStep_refl|].
  destruct (git_available w); [|apply forwardsStep_refl]. cbn [negb].
  destruct (patch_head_ok w); destruct (latest_commit w) as [c|];
    try destruct (patch_upstream_ok w); cbn; try apply forwardsStep_refl;
    forward_fields.
Qed.

Lemma handleMetadata_forwards (w : World) (request : MetadataRequest)
    (merged : option MetadataRequest) (h : Handler) :
  forwardsStep okRecord okFile h (handleMetadata w request merged h).
Proof.
  unfold handleMetadata.
  repeat match goal with
         | |- context [if ?b then _ else _] => destruct b
         end;
    try apply forwardsStep_refl; forward_fields.
Qed.

Lemma handleRequestPythonPackages_forwards (w : World)
    (request : PythonPackagesRequest) (h : Handler) :
  forwardsStep okRecord okFile h (handleRequestPythonPackages w request h).
Proof.
  unfold handleRequestPythonPackages.
  destruct (create_requirements_ok w); cbn [negb]; [|forward_fields].
  destruct (requirements_fail_at w) as [n|];
    [destruct (n <? length (map requirementLine (Package request)))%nat|];
    forward_fields.
Qed.

Lemma consolidateAndUpdateDelta_forwards {T} `{genericItem T} (items : list T)
    (h h' : Handler) :
  consolidateAndUpdateDelta items h = Ok h' -> forwardsStep okRecord okFile h h'.
Proof.
  unfold consolidateAndUpdateDelta.
  destruct (summaryHandler h) as [sh|]; simpl; [|discriminate].
  intros E. inversion E; subst h'. forward_fields.
Qed.

Lemma handleExit_forwards (w : World) (record : ServiceRecord)
    (e : RunExitRecord) (h h' : Handler) :
  handleExit w record e h = Ok h' -> forwardsStep okRecord okFile h h'.
Proof.
  unfold handleExit. cbn [settings set_timer].
  destruct (XSync (settings h)); cbn [negb].
  - simpl. intros E. inversion E; subst h'. forward_fields.
  - match goal with
    | |- context [consolidateAndUpdateDelta ?i ?x] =>
        destruct (consolidateAndUpdateDelta i x) as [h1|] eqn:E1
    end; simpl; [|discriminate].
    intros E. inversion E; subst h'.
    apply consolidateAndUpdateDelta_forwards in E1.
    eapply forwardsStep_trans; [|eapply forwardsStep_trans; [exact E1|]];
      forward_fields.
Qed.

Lemma handleRequestRunStart_forwards (w : World) (record : ServiceRecord)
    (request : RunStartRequest) (r0 : option RequestType) (h h' : Handler) :
  GetRecordType record = Some (Record_Request r0) ->
  handleRequestRunStart w record request h = Ok h' ->
  forwardsStep okRecord okFile h h'.
Proof.
  intros Hty. unfold handleRequestRunStart.
  destruct (Run request) as [run|]; simpl; [|discriminate].
  intros E. inversion E; subst h'; clear E.
  eapply forwardsStep_trans; [|forward_fields].
  eapply forwardsStep_trans; [|apply handleMetadata_forwards].
  match goal with
  | |- forwardsStep _ _ h
         (if ?b then handlePatchSave w (handleCodeSave w ?x) else ?x) =>
      assert (Hx : forwardsStep okRecord okFile h x);
      [|destruct b; [|exact Hx];
        eapply forwardsStep_trans; [exact Hx|];
        eapply forwardsStep_trans; [apply handleCodeSave_forwards|];
        apply handlePatchSave_forwards]
  end.
  destruct (XDisableStats (settings h)); cbn; forward_fields.
Qed.

Lemma forwardsStep_set_activeHistory (a : option ActiveHistory) (h : Handler) :
  forwardsStep okRecord okFile h (set_activeHistory a h).
Proof. forward_fields. Qed.

Lemma ActiveHistory_Flush_forwards (h h' : Handler) :
  XShared (settings h) = shared ->
  is_Some (summaryHandler h) ->
  ActiveHistory_Flush h = Ok h' -> forwardsStep okRecord okFile h h'.
Proof.
  intros Hshared Hsh E.
  destruct (ActiveHistory_Flush_spec h (fun _ => Hsh)) as (h1 & E1 & F & _).
  rewrite E in E1. inversion E1; subst h1.
  apply forwardsStep_flushFrame; assumption.
Qed.

Lemma updateStep_forwards (n : Z) (h h' : Handler) :
  updateStep n h = Ok h' -> forwardsStep okRecord okFile h h'.
Proof.
  unfold updateStep. destruct (activeHistory h); simpl; [|discriminate].
  intros E. inversion E. apply forwardsStep_set_activeHistory.
Qed.

Lemma updateValues_forwards (items : list HistoryItem) (h h' : Handler) :
  updateValues items h = Ok h' -> forwardsStep okRecord okFile h h'.
Proof.
  unfold updateValues. destruct (activeHistory h); simpl; [|discriminate].
  intros E. inversion E. apply forwardsStep_set_activeHistory.
Qed.

Lemma flushThenIncrement_forwards (h h' : Handler) :
  XShared (settings h) = shared ->
  is_Some (summaryHandler h) ->
  flushThenIncrement h = Ok h' -> forwardsStep okRecord okFile h h'.
Proof.
  intros Hshared Hsh. unfold flushThenIncrement.
  destruct (ActiveHistory_Flush h) as [hf|] eqn:Ef; simpl; [|discriminate].
  destruct (currentStep hf) as [c|]; simpl; [|discriminate].
  intros E. eapply forwardsStep_trans.
  - eapply ActiveHistory_Flush_forwards; eassumption.
  - eapply updateStep_forwards; eassumption.
Qed.

Lemma handlePartialHistorySync_forwards (request : PartialHistoryRequest)
    (h h' : Handler) :
  XShared (settings h) = shared ->
  is_Some (summaryHandler h) ->
  handlePartialHistorySync request h = Ok h' ->
  forwardsStep okRecord okFile h h'.
Proof.
  intros Hshared Hsh. unfold handlePartialHistorySync.
  assert (Q0 : forwardsStep okRecord okFile h (ensureActiveHistorySync h)).
  { unfold ensureActiveHistorySync. destruct (activeHistory h);
      [apply forwardsStep_refl | apply forwardsStep_set_activeHistory]. }
  set (h0 := ensureActiveHistorySync h) in *.
  pose proof (forwardsStep_summary _ _ Q0 Hsh) as Hsh0.
  assert (Hshared0 : XShared (settings h0) = shared)
    by (rewrite (forwardsStep_settings _ _ Q0); exact Hshared).
  assert (Tail : forall hc, forwardsStep okRecord okFile h hc ->
            (hm ← updateValues (ph_Item request) hc;
             if flushRequested request
             then (hf ← ActiveHistory_Flush hm;
                   current ← currentStep hf;
                   updateStep (wrap64 (current + 1)) hf)
             else Ok hm) = Ok h' -> forwardsStep okRecord okFile h h').
  { intros hc Qc.
    destruct (updateValues (ph_Item request) hc) as [hm|] eqn:Em; simpl;
      [|discriminate].
    pose proof (updateValues_forwards _ _ _ Em) as Qm.
    pose proof (forwardsStep_trans _ _ _ Qc Qm) as Qhm.
    destruct (flushRequested request).
    - intros E. eapply forwardsStep_trans; [exact Qhm|].
      apply flushThenIncrement_forwards; [| |exact E].
      + rewrite (forwardsStep_settings _ _ Qhm). exact Hshared.
      + apply (forwardsStep_summary _ _ Qhm Hsh).
    - intros E. inversion E; subst. exact Qhm. }
  destruct (ph_Step request) as [s|]; simpl.
  2:{ apply Tail. exact Q0. }
  destruct (currentStep h0) as [current|]; simpl; [|discriminate].
  destruct (Num s >? current).
  - destruct (ActiveHistory_Flush h0) as [hf|] eqn:Ef; simpl; [|discriminate].
    destruct (updateStep (Num s) hf) as [hu|] eqn:Eu; simpl; [|discriminate].
    apply Tail.
    eapply forwardsStep_trans; [exact Q0|].
    eapply forwardsStep_trans;
      [eapply ActiveHistory_Flush_forwards; eassumption|].
    eapply updateStep_forwards; eassumption.
  - destruct (Num s <? current); simpl.
    + intros E. inversion E; subst h'.
      eapply forwardsStep_trans; [exact Q0|]. forward_fields.
    + apply Tail. exact Q0.
Qed.

Lemma handlePartialHistoryAsync_forwards (request : PartialHistoryRequest)
    (h h' : Handler) :
  XShared (settings h) = shared ->
  is_Some (summaryHandler h) ->
  handlePartialHistoryAsync request h = Ok h' ->
  forwardsStep okRecord okFile h h'.
Proof.
  intros Hshared Hsh. unfold handlePartialHistoryAsync.
  match goal with
  | |- context [deref _ (activeHistory ?x)] =>
      assert (Q0 : forwardsStep okRecord okFile h x);
      [destruct (activeHistory h);
       [apply forwardsStep_refl | apply forwardsStep_set_activeHistory]|];
      destruct (activeHistory x) as [ah|]; simpl; [|discriminate]
  end.
  match goal with
  | |- (if _ then ActiveHistory_Flush ?y else _) = _ -> _ =>
      assert (Q1 : forwardsStep okRecord okFile h y);
      [eapply forwardsStep_trans;
       [exact Q0|apply forwardsStep_set_activeHistory]|]
  end.
  destruct (bool_decide (ph_Action request = None) || GetFlush (ph_Action request)).
  - intros E. eapply forwardsStep_trans; [exact Q1|].
    eapply ActiveHistory_Flush_forwards; [| |exact E].
    + rewrite (forwardsStep_settings _ _ Q1). exact Hshared.
    + apply (forwardsStep_summary _ _ Q1 Hsh).
  - intros E. inversion E; subst. exact Q1.
Qed.

Lemma handleHistory_forwards (history : HistoryRecord) (h h' : Handler) :
  XShared (settings h) = shared ->
  is_Some (summaryHandler h) ->
  handleHistory history h = Ok h' -> forwardsStep okRecord okFile h h'.
Proof.
  intros Hshared Hsh. unfold handleHistory.
  match goal with
  | |- context [flushHistory history ?x] =>
      assert (Q0 : forwardsStep okRecord okFile h x)
        by apply forwardsStep_set_activeHistory;
      destruct (flushHistory_frame history x _ eq_refl (fun _ => Hsh))
        as (h1 & E1 & F1 & _); rewrite E1
  end.
  simpl. intros E.
  eapply forwardsStep_trans; [exact Q0|].
  eapply forwardsStep_trans; [apply forwardsStep_flushFrame; [exact Hshared|exact F1]|].
  eapply ActiveHistory_Flush_forwards; [| |exact E].
  - rewrite (ff_settings _ _ F1). exact Hshared.
  - apply (ff_summaryHandler _ _ F1). exact Hsh.
Qed.

Lemma handleMetric_forwards (record : ServiceRecord) (m0 metric : MetricRecord)
    (h h' : Handler) :
  XShared (settings h) = shared ->
  GetRecordType record = Some (Record_Metric m0) ->
  handleMetric record metric h = Ok h' -> forwardsStep okRecord okFile h h'.
Proof.
  intros Hshared Hty E.
  assert (Hmh : is_Some (metricHandler h) \/
                h' = log LevelCaptureError "invalid metric" [] h).
  { unfold handleMetric in E.
    destruct (negb (String.eqb (GlobName metric) ""));
      [destruct (metricHandler h); [eauto | discriminate]|].
    destruct (negb (String.eqb (Name metric) ""));
      [destruct (metricHandler h); [eauto | discriminate]|].
    inversion E. auto. }
  destruct Hmh as [Hmh| ->]; [|forward_fields].
  destruct (handleMetric_frame record metric h) as (h1 & E1 & F1);
    [eexists; exact Hty | exact Hmh |].
  rewrite E in E1. inversion E1; subst h1.
  apply forwardsStep_flushFrame; [exact Hshared|].
  apply imputeFrame_flushFrame, F1.
Qed.

Lemma handleFinal_forwards (h : Handler) :
  XSync (settings h) = sync ->
  forwardsStep okRecord okFile h (handleFinal h).
Proof.
  intros Hsync. unfold handleFinal.
  destruct (XSync (settings h)); [apply forwardsStep_refl|].
  eapply forwardsStep_intro;
    [reflexivity | cbn; reflexivity | | cbn; symmetry; apply app_nil_r
    | constructor | cbn; eauto].
  constructor; [|constructor].
  apply okRecord_final; [congruence | left; reflexivity].
Qed.

Lemma handleFooter_forwards (h : Handler) :
  XSync (settings h) = sync ->
  forwardsStep okRecord okFile h (handleFooter h).
Proof.
  intros Hsync. unfold handleFooter.
  destruct (XSync (settings h)); [apply forwardsStep_refl|].
  eapply forwardsStep_intro;
    [reflexivity | cbn; reflexivity | | cbn; symmetry; apply app_nil_r
    | constructor | cbn; eauto].
  constructor; [|constructor].
  apply okRecord_final; [congruence | right; reflexivity].
Qed.

Lemma writeAndSendSummaryFile_forwards (w : World) (h h' : Handler) :
  XSync (settings h) = sync ->
  writeAndSendSummaryFile w h = Ok h' -> forwardsStep okRecord okFile h h'.
Proof.
  intros Hsync. unfold writeAndSendSummaryFile.
  destruct (XSync (settings h)).
  { intros E. inversion E. apply forwardsStep_refl. }
  assert (Hfile : forall f, okFile f) by (apply okFile_summary; congruence).
  destruct (summaryHandler h) as [sh|] eqn:Hsh; simpl; [|discriminate].
  destruct (marshal_summary_ok w); cbn [negb];
    intros E; inversion E; subst h'; clear E; [|forward_fields].
  unfold uploaderCall.
  destruct (write_summary_ok w); cbn;
    destruct (runfilesUploaderOrNil h);
    (eapply forwardsStep_intro;
     [ reflexivity
     | cbn; symmetry; apply app_nil_r
     | constructor
     | cbn; first [ reflexivity | symmetry; apply app_nil_r ]
     | repeat constructor; apply Hfile
     | cbn; eauto ]).
Qed.

Lemma handleSummary_forwards (w : World) (s : SummaryRecord) (h h' : Handler) :
  handleSummary w s h = Ok h' -> forwardsStep okRecord okFile h h'.
Proof.
  unfold handleSummary. destruct (XSync (settings h)).
  - intros E. inversion E. apply forwardsStep_refl.
  - apply consolidateAndUpdateDelta_forwards.
Qed.

Lemma deferSideEffect_forwards (w : World) (state : DeferState) (h h' : Handler) :
  XSync (settings h) = sync ->
  XShared (settings h) = shared ->
  is_Some (summaryHandler h) ->
  deferSideEffect w state h = Ok h' -> forwardsStep okRecord okFile h h'.
Proof.
  intros Hsync Hshared Hsh.
  destruct state; simpl; intros E; try (inversion E; subst h'; forward_fields).
  - eapply ActiveHistory_Flush_forwards; eassumption.
  - destruct (handleSummary w {| Update := [] |} h) as [h1|] eqn:E1;
      simpl in E; [|discriminate].
    apply handleSummary_forwards in E1.
    unfold SummaryHandler_Flush in E.
    destruct (summaryHandler h1) as [sh1|]; simpl in E; [|discriminate].
    destruct (fwdSummary h1) as [h2|] eqn:E2; simpl in E; [|discriminate].
    apply fwdSummary_forwards in E2.
    pose proof (forwardsStep_trans _ _ _ E1 E2) as Q2.
    eapply forwardsStep_trans; [exact Q2|].
    apply (writeAndSendSummaryFile_forwards w); [|exact E].
    rewrite (forwardsStep_settings _ _ Q2). exact Hsync.
  - inversion E; subst h'. unfold uploaderCall.
    destruct (runfilesUploaderOrNil h); forward_fields.
  - inversion E; subst h'.
    pose proof (handleFinal_forwards h Hsync) as Q1.
    eapply forwardsStep_trans; [exact Q1|].
    apply handleFooter_forwards.
    rewrite (forwardsStep_settings _ _ Q1). exact Hsync.
  - destruct (fileTransferStats h); simpl in E; [|discriminate].
    inversion E; subst h'. forward_fields.
Qed.

Lemma handleRequest_forwards (w : World) (record : ServiceRecord)
    (request r0 : option RequestType) (h h' : Handler) :
  XSync (settings h) = sync ->
  XShared (settings h) = shared ->
  is_Some (summaryHandler h) ->
  GetRecordType record = Some (Record_Request r0) ->
  handleRequest w record request h = Ok h' ->
  forwardsStep okRecord okFile h h'.
Proof.
  intros Hsync Hshared Hsh Hty. unfold handleRequest.
  destruct request as [[]|]; try discriminate;
    try (intros E; inversion E; subst h'; clear E;
         first [ apply forwardsStep_refl
               | apply handleRequestPythonPackages_forwards
               | unfold handleRequestLogin, handleRequestPollExit,
                   handleRequestSampledHistory, handleRequestAttach,
                   handleRequestCancel, handleRequestPause,
                   handleRequestResume, handleRequestGetSystemMetrics,
                   handleRequestInternalMessages;
                 repeat match goal with
                        | |- context [if ?b then _ else _] => destruct b
                        | |- context [match ?x with _ => _ end] => destruct x
                        end;
                 forward_fields ]).
  - (* defer *)
    unfold handleRequestDefer.
    destruct (deferSideEffect w (State d) h) as [hs|] eqn:Es; simpl; [|discriminate].
    intros E. inversion E; subst h'; clear E.
    eapply forwardsStep_trans; [eapply deferSideEffect_forwards; eassumption|].
    forward_fields.
  - (* get summary *)
    unfold handleRequestGetSummary.
    destruct (summaryHandler h); simpl; [|discriminate].
    intros E. inversion E; subst h'. forward_fields.
  - (* partial history *)
    unfold handleRequestPartialHistory. destruct (XShared (settings h)) eqn:Hs.
    + apply handlePartialHistoryAsync_forwards; [rewrite Hs|]; assumption.
    + apply handlePartialHistorySync_forwards; [rewrite Hs|]; assumption.
  - (* run start *)
    apply (handleRequestRunStart_forwards w record r r0). exact Hty.
Qed.

Lemma SummaryHandler_Debounce_forwards (w : World) (h h' : Handler) :
  SummaryHandler_Debounce w h = Ok h' ->
  forwardsStep okRecord okFile h h' /\ is_Some (summaryHandler h).
Proof.
  unfold SummaryHandler_Debounce.
  destruct (summaryHandler h) as [sh|] eqn:Hsh; simpl; [|discriminate].
  destruct (limiter_allow w).
  - intros E. split; [apply fwdSummary_forwards; exact E | eauto].
  - intros E. inversion E; subst. split; [apply forwardsStep_refl | eauto].
Qed.

(** One record. *)
Lemma handleRecord_forwards (w : World) (record : ServiceRecord) (h h' : Handler) :
  XSync (settings h) = sync ->
  XShared (settings h) = shared ->
  handleRecord w record h = Ok h' -> forwardsStep okRecord okFile h h'.
Proof.
  intros Hsync Hshared. unfold handleRecord.
  destruct (SummaryHandler_Debounce w h) as [h0|] eqn:E0; simpl; [|discriminate].
  apply SummaryHandler_Debounce_forwards in E0 as [Q0 Hsh].
  pose proof (forwardsStep_settings _ _ Q0) as S0.
  assert (Hsync0 : XSync (settings h0) = sync) by (rewrite S0; exact Hsync).
  assert (Hshared0 : XShared (settings h0) = shared) by (rewrite S0; exact Hshared).
  pose proof (forwardsStep_summary _ _ Q0 Hsh) as Hsh0.
  intros E. eapply forwardsStep_trans; [exact Q0|]. revert E.
  destruct (GetRecordType record) as [[]|] eqn:Hty; try discriminate;
    try (intros E; inversion E; subst h'; clear E;
         first [ apply handleFiles_forwards
               | apply handleFinal_forwards; exact Hsync0
               | apply handleFooter_forwards; exact Hsync0
               | unfold handleHeader, handleTBrecord;
                 repeat match goal with
                        | |- context [if ?b then _ else _] => destruct b
                        end;
                 forward_fields ]).
  - apply handleExit_forwards.
  - apply handleHistory_forwards; assumption.
  - apply (handleMetric_forwards record m m); assumption.
  - apply (handleRequest_forwards w record r r); assumption.
  - apply handleSummary_forwards.
Qed.

(** Any number of records. *)
Lemma handleRecords_forwards (inputs : list (World * ServiceRecord)) :
  forall h h',
    XSync (settings h) = sync ->
    XShared (settings h) = shared ->
    handleRecords inputs h = Ok h' -> forwards okRecord okFile h h'.
Proof.
  induction inputs as [|[w record] inputs IH]; intros h h' Hsync Hshared; simpl.
  - intros E. inversion E. apply forwardsStep_refl.
  - destruct (handleRecord w record h) as [h1|] eqn:E1; simpl; [|discriminate].
    intros E.
    pose proof (handleRecord_forwards w record h h1 Hsync Hshared E1) as Q1.
    pose proof (forwardsStep_settings _ _ Q1) as S1.
    assert (Hsync1 : XSync (settings h1) = sync) by (rewrite S1; exact Hsync).
    assert (Hshared1 : XShared (settings h1) = shared) by (rewrite S1; exact Hshared).
    pose proof (IH h1 h' Hsync1 Hshared1 E) as Q2.
    destruct Q1 as [(_ & (n1 & F1 & G1) & (w1 & W1 & V1)) _].
    destruct Q2 as (S2 & (n2 & F2 & G2) & (w2 & W2 & V2)).
    split; [congruence|]. split.
    + exists (n1 ++ n2). rewrite F2, F1, app_assoc. split; [reflexivity|].
      apply Forall_app; auto.
    + exists (w1 ++ w2). rewrite W2, W1, app_assoc. split; [reflexivity|].
      apply Forall_app; auto.
Qed.

End Forwarding.

(** ** What the handler never does while it syncs *)

Lemma handleFinal_sync (h : Handler) :
  XSync (settings h) = true -> handleFinal h = h.
Proof. unfold handleFinal. intros ->. reflexivity. Qed.

Lemma handleFooter_sync (h : Handler) :
  XSync (settings h) = true -> handleFooter h = h.
Proof. unfold handleFooter. intros ->. reflexivity. Qed.

Lemma writeAndSendSummaryFile_sync (w : World) (h : Handler) :
  XSync (settings h) = true -> writeAndSendSummaryFile w h = Ok h.
Proof. unfold writeAndSendSummaryFile. intros ->. reflexivity. Qed.

(** Any number of records handled while the handler syncs. *)
Lemma handleRecords_quiet (inputs : list (World * ServiceRecord)) :
  forall h h',
    XSync (settings h) = true ->
    handleRecords inputs h = Ok h' -> quiet h h'.
Proof.
  intros h h' Hsync E.
  apply (handleRecords_forwards true (XShared (settings h))
           (fun r => ~ isFinalOrFooter r) (fun f => ~ isSummaryFileWrite f))
    with (inputs := inputs); try assumption; try reflexivity;
    try discriminate.
  - intros r Hr _. exact Hr.
  - intros r (hr & Hr & _) [H|H]; congruence.
  - intros f Hf. exact Hf.
Qed.

(** ** The history records the handler forwards *)

(** Any number of records, in any mode: every history record forwarded has
    the internal items. *)
Lemma handleRecords_historyFlushed (inputs : list (World * ServiceRecord))
    (h h' : Handler) :
  handleRecords inputs h = Ok h' ->
  exists new,
    fwdChan h' = fwdChan h ++ new /\
    Forall (historyFlushed (XShared (settings h))) new.
Proof.
  intros E.
  destruct (handleRecords_forwards (XSync (settings h)) (XShared (settings h))
              (historyFlushed (XShared (settings h))) (fun _ => True))
    with (inputs := inputs) (h := h) (h' := h') as (_ & Hnew & _);
    try assumption; try reflexivity; try (intros; exact I).
  - intros r _ Hn hr Hr. exfalso. apply Hn. exists hr. exact Hr.
  - intros _ r [H|H] hr Hr; congruence.
  - intros r (hr & Hr & Hi) hr' Hr'. rewrite Hr in Hr'.
    inversion Hr'; subst hr'. exact Hi.
Qed.

(** C7, as the code has it.  A flush of a record with items forwards one
    history record, after the metric records of the metrics it resolved.
    The record has the item [_runtime] and, outside the shared mode, the item
    [_step] with the step of the record: each at least once, and exactly
    once when no item handed to the flush has that key and no registered
    metric has it as its step metric.  And whatever records a handler is
    given, in whatever mode, every history record it forwards has these
    items at least once. *)
Theorem flushed_record_internal_items (history : HistoryRecord) (h : Handler)
    (ah : ActiveHistory) :
  hr_Item history <> [] ->
  activeHistory h = Some ah ->
  (is_Some (metricHandler h) -> is_Some (summaryHandler h)) ->
  (exists h' flushed ms,
     flushHistory history h = Ok h' /\
     fwdChan h' = fwdChan h ++ ms ++ [newRecord (Record_History flushed) None] /\
     Forall isMetricRecord ms /\
     hr_Step flushed = hr_Step history /\
     (1 <= countKey "_runtime" (hr_Item flushed))%nat /\
     (countKey "_runtime" (hr_Item history) = 0%nat ->
      stepMetricsAvoid "_runtime" h ->
      countKey "_runtime" (hr_Item flushed) = 1%nat) /\
     (XShared (settings h) = false ->
      stepItem (GetNum (hr_Step history)) ∈ hr_Item flushed /\
      (1 <= countKey "_step" (hr_Item flushed))%nat /\
      (countKey "_step" (hr_Item history) = 0%nat ->
       stepMetricsAvoid "_step" h ->
       countKey "_step" (hr_Item flushed) = 1%nat))) /\
  (forall inputs h0 h'',
     handleRecords inputs h0 = Ok h'' ->
     exists new,
       fwdChan h'' = fwdChan h0 ++ new /\
       Forall (fun r =>
                 forall hr, GetRecordType r = Some (Record_History hr) ->
                   (1 <= countKey "_runtime" (hr_Item hr))%nat /\
                   (XShared (settings h0) = false ->
                    stepItem (GetNum (hr_Step hr)) ∈ hr_Item hr /\
                    (1 <= countKey "_step" (hr_Item hr))%nat))
              new).
Proof.
  intros Hitems Hah Hsum. split; [|exact handleRecords_historyFlushed].
  destruct (flushHistory_spec history h ah Hitems Hah Hsum)
    as (imputed & hm & E & F & _ & V).
  destruct (frame_fwdChan _ _ F) as (ms & Hfwd & Hms).
  destruct (countKey_internalItems history ah h) as [Hrt Hst].
  eexists _, _, ms. split; [exact E|].
  split; [rewrite fwdChan_emitHistory, Hfwd, <- app_assoc; reflexivity|].
  split; [exact Hms|]. split; [reflexivity|]. cbn [hr_Item hr_Step].
  rewrite !countKey_app, Hrt, Hst.
  split; [lia|]. split.
  - intros H0 Hav. destruct (V "_runtime") as [_ Hall]; [discriminate|exact Hav|].
    rewrite (countKey_avoided _ _ Hall). lia.
  - intros Hshared. rewrite Hshared. split; [|split; [lia|]].
    + apply elem_of_app. right. apply elem_of_app. left.
      unfold internalItems. rewrite Hshared. right. left.
    + intros H0 Hav. destruct (V "_step") as [_ Hall]; [discriminate|exact Hav|].
      rewrite (countKey_avoided _ _ Hall). lia.
Qed.


(** * The handler over sequences of records *)

(** ** What a record leaves alone *)

Lemma kept_refl (h : Handler) : kept h h.
Proof. unfold kept. tauto. Qed.

Lemma kept_trans (h1 h2 h3 : Handler) : kept h1 h2 -> kept h2 h3 -> kept h1 h3.
Proof.
  unfold kept. intros (S1 & ?) (S2 & ?). split; [congruence | tauto].
Qed.

Lemma inner_refl (h : Handler) : inner h h.
Proof. split; [reflexivity | apply kept_refl]. Qed.

Lemma inner_trans (h1 h2 h3 : Handler) :
  inner h1 h2 -> inner h2 h3 -> inner h1 h3.
Proof.
  intros [E1 K1] [E2 K2]. split; [congruence | eapply kept_trans; eassumption].
Qed.

Lemma inner_kept (h h' : Handler) : inner h h' -> kept h h'.
Proof. intros [_ K]. exact K. Qed.

(** Closes [kept h h'] when [h'] is [h] after setters that leave the
    settings, the collaborators, the accumulator and the summary alone. *)
Ltac kept_fields :=
  unfold kept, stepped, coherent; cbn;
  repeat match goal with |- _ /\ _ => split end; eauto.

Ltac inner_fields := split; [reflexivity | kept_fields].

Lemma stepped_set_activeHistory (ah : ActiveHistory) (h : Handler) :
  is_Some (step ah) -> stepped (set_activeHistory (Some ah) h).
Proof. intros Hs _ ah' E. cbn in E. inversion E; subst. exact Hs. Qed.

(** The accumulator may change if it keeps having a step. *)
Lemma inner_set_activeHistory (a : option ActiveHistory) (h : Handler) :
  (stepped h -> stepped (set_activeHistory a h)) ->
  inner h (set_activeHistory a h).
Proof.
  intros Hs. split; [reflexivity|]. unfold kept, coherent. cbn.
  repeat match goal with |- _ /\ _ => split end; eauto.
Qed.

Lemma fold_insert_subseteq {T} (key : T -> string) (value : T -> string)
    (items : list T) :
  forall d c : gmap string string,
    d ⊆ c ->
    fold_left (fun m it => <[key it := value it]> m) items d ⊆
    fold_left (fun m it => <[key it := value it]> m) items c.
Proof.
  induction items as [|it items IH]; intros d c Hdc; simpl; [exact Hdc|].
  apply IH. apply insert_mono. exact Hdc.
Qed.

Lemma updateSummaryDelta_generic {T} `{genericItem T} (items : list T)
    (delta : gmap string string) :
  updateSummaryDelta delta
    {| Update := map (fun it => {| si_Key := GetKey it;
                                   si_ValueJson := GetValueJson it |}) items |} =
  fold_left (fun m it => <[GetKey it := GetValueJson it]> m) items delta.
Proof.
  unfold updateSummaryDelta. cbn [Update].
  revert delta. induction items as [|it items IH]; intros delta; simpl;
    [reflexivity | apply IH].
Qed.

Lemma fwdSummary_inner (h h' : Handler) : fwdSummary h = Ok h' -> inner h h'.
Proof.
  unfold fwdSummary. destruct (summaryHandler h) as [sh|]; simpl; [|discriminate].
  intros E. inversion E; subst h'. split; [reflexivity|].
  unfold kept, stepped, coherent. cbn.
  repeat match goal with |- _ /\ _ => split end; eauto.
  intros _ sh' E'. inversion E'; subst sh'. cbn. apply map_empty_subseteq.
Qed.

Lemma SummaryHandler_Debounce_inner (w : World) (h h' : Handler) :
  SummaryHandler_Debounce w h = Ok h' ->
  inner h h' /\ is_Some (summaryHandler h).
Proof.
  unfold SummaryHandler_Debounce.
  destruct (summaryHandler h) as [sh|] eqn:Hsh; simpl; [|discriminate].
  destruct (limiter_allow w).
  - intros E. split; [apply fwdSummary_inner; exact E | eauto].
  - intros E. inversion E; subst. split; [apply inner_refl | eauto].
Qed.

Lemma consolidateAndUpdateDelta_inner {T} `{genericItem T} (items : list T)
    (h h' : Handler) :
  consolidateAndUpdateDelta items h = Ok h' -> inner h h'.
Proof.
  unfold consolidateAndUpdateDelta.
  destruct (summaryHandler h) as [sh|] eqn:Hsh; simpl; [|discriminate].
  intros E. inversion E; subst h'. split; [reflexivity|].
  unfold kept, stepped, coherent.
  cbn [settings summaryHandler metricHandler fileTransferStats activeHistory
       set_summaryHandler].
  repeat match goal with |- _ /\ _ => split end; eauto.
  intros Hc sh' E'. inversion E'; subst sh'.
  cbn [summaryDelta consolidatedSummary].
  rewrite updateSummaryDelta_generic. apply fold_insert_subseteq.
  apply Hc. exact Hsh.
Qed.

Lemma handleSummary_inner (w : World) (s : SummaryRecord) (h h' : Handler) :
  handleSummary w s h = Ok h' -> inner h h'.
Proof.
  unfold handleSummary. destruct (XSync (settings h)).
  - intros E. inversion E. apply inner_refl.
  - apply consolidateAndUpdateDelta_inner.
Qed.

Lemma handleFiles_inner (record : ServiceRecord) (h : Handler) :
  inner h (handleFiles record h).
Proof.
  unfold handleFiles. destruct (GetFiles record); [inner_fields | apply inner_refl].
Qed.

Lemma handleFinal_inner (h : Handler) : inner h (handleFinal h).
Proof. unfold handleFinal. destruct (XSync (settings h)); inner_fields. Qed.

Lemma handleFooter_inner (h : Handler) : inner h (handleFooter h).
Proof. unfold handleFooter. destruct (XSync (settings h)); inner_fields. Qed.

Lemma coherent_emitHistory (flushed : HistoryRecord) (h : Handler) :
  coherent h -> coherent (emitHistory flushed h).
Proof.
  intros Hc. unfold emitHistory.
  destruct (summaryHandler h) as [sh|] eqn:Hsh.
  - intros sh' E'. cbn in E'. inversion E'; subst sh'. cbn.
    apply fold_insert_subseteq. apply Hc. exact Hsh.
  - intros sh' E'. cbn in E'. congruence.
Qed.

Lemma flushHistory_coherent (history : HistoryRecord) (h h' : Handler) :
  is_Some (summaryHandler h) ->
  flushHistory history h = Ok h' -> coherent h -> coherent h'.
Proof.
  intros Hsh E Hc.
  destruct (hr_Item history) as [|it its] eqn:Hit.
  { unfold flushHistory in E. rewrite Hit in E. inversion E; subst. exact Hc. }
  destruct (activeHistory h) as [ah|] eqn:Hah.
  2:{ unfold flushHistory in E. rewrite Hit, Hah in E. discriminate. }
  destruct (flushHistory_spec history h ah) as (imputed & hm & E1 & F & _);
    [rewrite Hit; discriminate | assumption | intros _; exact Hsh |].
  rewrite E in E1. inversion E1; subst h'.
  apply coherent_emitHistory. intros sh Es.
  rewrite (frame_summaryHandler _ _ F) in Es. apply Hc. exact Es.
Qed.

Lemma inner_flushFrame (h h' : Handler) :
  flushFrame h h' -> (coherent h -> coherent h') -> inner h h'.
Proof.
  intros F Hc. split.
  - unfold outside.
    rewrite (ff_outChan _ _ F), (ff_files _ _ F), (ff_uploader _ _ F),
      (ff_timer _ _ F), (ff_runRecord _ _ F), (ff_systemMonitor _ _ F),
      (ff_tbHandler _ _ F), (ff_stats _ _ F), (ff_mailbox _ _ F).
    reflexivity.
  - unfold kept. split; [apply (ff_settings _ _ F)|].
    split; [apply (ff_summaryHandler _ _ F)|].
    split; [apply (ff_metricHandler _ _ F)|].
    split; [rewrite (ff_stats _ _ F); trivial|].
    split; [|exact Hc].
    intros Hs Hshared ah' E'. rewrite (ff_settings _ _ F) in Hshared.
    pose proof (ff_activeHistory _ _ F) as Ha.
    destruct (activeHistory h) as [ah|] eqn:Hah; [|congruence].
    destruct Ha as (ah1 & E1 & S1 & _).
    rewrite E1 in E'. inversion E'; subst ah1. rewrite S1.
    apply (Hs Hshared ah). exact Hah.
Qed.

Lemma flushHistory_inner (history : HistoryRecord) (h h' : Handler) :
  is_Some (summaryHandler h) ->
  flushHistory history h = Ok h' -> inner h h'.
Proof.
  intros Hsh E.
  destruct (hr_Item history) as [|it its] eqn:Hit.
  { unfold flushHistory in E. rewrite Hit in E. inversion E; subst.
    apply inner_refl. }
  destruct (activeHistory h) as [ah|] eqn:Hah.
  2:{ unfold flushHistory in E. rewrite Hit, Hah in E. discriminate. }
  destruct (flushHistory_frame history h ah Hah (fun _ => Hsh))
    as (h1 & E1 & F & _).
  rewrite E in E1. inversion E1; subst h1.
  apply inner_flushFrame; [exact F|].
  eapply flushHistory_coherent; eassumption.
Qed.

Lemma ActiveHistory_Flush_inner (h h' : Handler) :
  is_Some (summaryHandler h) ->
  ActiveHistory_Flush h = Ok h' -> inner h h'.
Proof.
  intros Hsh. unfold ActiveHistory_Flush.
  destruct (activeHistory h) as [ah|] eqn:Hah.
  2:{ intros E. inversion E. apply inner_refl. }
  assert (Hclear : forall h1, inner h h1 ->
            (exists ah1, activeHistory h1 = Some ah1 /\ step ah1 = step ah) ->
            inner h (set_activeHistory (Clear <$> activeHistory h1) h1)).
  { intros h1 Q1 (ah1 & Ea & Es). eapply inner_trans; [exact Q1|].
    apply inner_set_activeHistory. rewrite Ea. cbn [fmap option_fmap option_map].
    intros Hs Hshared ah' E'. cbn in E'. inversion E'; subst ah'. cbn.
    cbn in Hshared. apply (Hs Hshared ah1 Ea). }
  destruct (flush ah) as [cb|] eqn:Hcb; simpl.
  2:{ intros E. inversion E; subst h'. apply Hclear; [apply inner_refl|eauto]. }
  destruct (flushHistory_frame (callbackRecord cb ah) h ah Hah (fun _ => Hsh))
    as (h1 & E1 & F1 & _).
  assert (Ecb : match cb with
                | FlushWithStep =>
                    flushHistory {| hr_Step := step ah; hr_Item := GetValues ah |} h
                | FlushWithoutStep =>
                    flushHistory {| hr_Step := None; hr_Item := GetValues ah |} h
                end = Ok h1).
  { destruct cb; exact E1. }
  rewrite Ecb. simpl. intros E. inversion E; subst h'.
  apply Hclear.
  - eapply flushHistory_inner; eassumption.
  - pose proof (ff_activeHistory _ _ F1) as Ha. rewrite Hah in Ha.
    destruct Ha as (ah1 & Ea & Es & _). eauto.
Qed.

Lemma updateStep_inner (n : Z) (h h' : Handler) :
  updateStep n h = Ok h' -> inner h h'.
Proof.
  unfold updateStep. destruct (activeHistory h); simpl; [|discriminate].
  intros E. inversion E. apply inner_set_activeHistory.
  intros _. apply stepped_set_activeHistory. cbn. eauto.
Qed.

Lemma updateValues_inner (items : list HistoryItem) (h h' : Handler) :
  updateValues items h = Ok h' -> inner h h'.
Proof.
  unfold updateValues. destruct (activeHistory h) as [ah|] eqn:Hah; simpl;
    [|discriminate].
  intros E. inversion E. apply inner_set_activeHistory.
  intros Hs Hshared ah' E'. cbn in E'. inversion E'; subst ah'. cbn.
  apply (Hs Hshared ah Hah).
Qed.

Lemma ensureActiveHistorySync_inner (h : Handler) :
  inner h (ensureActiveHistorySync h).
Proof.
  unfold ensureActiveHistorySync. destruct (activeHistory h);
    [apply inner_refl|].
  apply inner_set_activeHistory. intros _.
  apply stepped_set_activeHistory. cbn. eauto.
Qed.

Lemma inner_summary (h h' : Handler) :
  inner h h' -> is_Some (summaryHandler h) -> is_Some (summaryHandler h').
Proof. intros (_ & _ & H & _). exact H. Qed.

Lemma handlePartialHistorySync_inner (request : PartialHistoryRequest)
    (h h' : Handler) :
  is_Some (summaryHandler h) ->
  handlePartialHistorySync request h = Ok h' -> inner h h'.
Proof.
  intros Hsh. unfold handlePartialHistorySync.
  pose proof (ensureActiveHistorySync_inner h) as Q0.
  set (h0 := ensureActiveHistorySync h) in *.
  assert (Tail : forall hc, inner h hc ->
            (hm ← updateValues (ph_Item request) hc;
             if flushRequested request
             then (hf ← ActiveHistory_Flush hm;
                   current ← currentStep hf;
                   updateStep (wrap64 (current + 1)) hf)
             else Ok hm) = Ok h' -> inner h h').
  { intros hc Qc.
    destruct (updateValues (ph_Item request) hc) as [hm|] eqn:Em; simpl;
      [|discriminate].
    pose proof (inner_trans _ _ _ Qc (updateValues_inner _ _ _ Em)) as Qhm.
    destruct (flushRequested request).
    - destruct (ActiveHistory_Flush hm) as [hf|] eqn:Ef; simpl; [|discriminate].
      destruct (currentStep hf) as [c|]; simpl; [|discriminate].
      intros E. eapply inner_trans; [exact Qhm|].
      eapply inner_trans; [|eapply updateStep_inner; exact E].
      eapply ActiveHistory_Flush_inner; [|exact Ef].
      apply (inner_summary _ _ Qhm Hsh).
    - intros E. inversion E; subst. exact Qhm. }
  destruct (ph_Step request) as [s|]; simpl.
  2:{ apply Tail. exact Q0. }
  destruct (currentStep h0) as [current|]; simpl; [|discriminate].
  destruct (Num s >? current).
  - destruct (ActiveHistory_Flush h0) as [hf|] eqn:Ef; simpl; [|discriminate].
    destruct (updateStep (Num s) hf) as [hu|] eqn:Eu; simpl; [|discriminate].
    apply Tail.
    eapply inner_trans; [exact Q0|].
    eapply inner_trans; [|eapply updateStep_inner; exact Eu].
    eapply ActiveHistory_Flush_inner; [|exact Ef].
    apply (inner_summary _ _ Q0 Hsh).
  - destruct (Num s <? current); simpl.
    + intros E. inversion E; subst h'.
      eapply inner_trans; [exact Q0|]. inner_fields.
    + apply Tail. exact Q0.
Qed.

Lemma handlePartialHistoryAsync_inner (request : PartialHistoryRequest)
    (h h' : Handler) :
  XShared (settings h) = true ->
  is_Some (summaryHandler h) ->
  handlePartialHistoryAsync request h = Ok h' -> inner h h'.
Proof.
  intros Hshared Hsh. unfold handlePartialHistoryAsync.
  assert (Hset : forall a hx, settings hx = settings h ->
                              inner hx (set_activeHistory a hx)).
  { intros a hx Hx. apply inner_set_activeHistory. intros _ Hf. cbn in Hf.
    congruence. }
  match goal with
  | |- context [deref _ (activeHistory ?x)] =>
      assert (Q0 : inner h x);
      [destruct (activeHistory h);
       [apply inner_refl | apply Hset; reflexivity]|];
      destruct (activeHistory x) as [ah|]; simpl; [|discriminate]
  end.
  match goal with
  | |- (if _ then ActiveHistory_Flush ?y else _) = _ -> _ =>
      assert (Q1 : inner h y);
      [eapply inner_trans; [exact Q0|apply Hset; apply Q0]|]
  end.
  destruct (bool_decide (ph_Action request = None) || GetFlush (ph_Action request)).
  - intros E. eapply inner_trans; [exact Q1|].
    eapply ActiveHistory_Flush_inner; [|exact E].
    apply (inner_summary _ _ Q1 Hsh).
  - intros E. inversion E; subst. exact Q1.
Qed.

Lemma handleRequestPartialHistory_inner (request : PartialHistoryRequest)
    (h h' : Handler) :
  is_Some (summaryHandler h) ->
  handleRequestPartialHistory request h = Ok h' -> inner h h'.
Proof.
  intros Hsh. unfold handleRequestPartialHistory.
  destruct (XShared (settings h)) eqn:Hshared.
  - apply handlePartialHistoryAsync_inner; assumption.
  - apply handlePartialHistorySync_inner; assumption.
Qed.

Lemma handleHistory_inner (history : HistoryRecord) (h h' : Handler) :
  is_Some (summaryHandler h) ->
  handleHistory history h = Ok h' -> inner h h'.
Proof.
  intros Hsh. unfold handleHistory.
  match goal with
  | |- context [flushHistory history ?x] =>
      assert (Q0 : inner h x);
      [apply inner_set_activeHistory; intros _;
       apply stepped_set_activeHistory; cbn; eauto|];
      destruct (flushHistory history x) as [h1|] eqn:E1; simpl; [|discriminate];
      apply flushHistory_inner in E1; [|exact Hsh]
  end.
  intros E.
  eapply inner_trans; [exact Q0|].
  eapply inner_trans; [exact E1|].
  eapply ActiveHistory_Flush_inner; [|exact E].
  apply (inner_summary _ _ E1). exact Hsh.
Qed.

Lemma handleStepMetric_inner (key : string) (h h' : Handler) :
  handleStepMetric key h = Ok h' -> inner h h'.
Proof.
  unfold handleStepMetric. destruct (String.eqb key "").
  { intros E. inversion E. apply inner_refl. }
  destruct (metricHandler h) as [mh|]; simpl; [|discriminate].
  destruct (definedMetrics mh !! key); intros E; inversion E;
    [apply inner_refl | inner_fields].
Qed.

Lemma handleMetric_inner (record : ServiceRecord) (metric : MetricRecord)
    (h h' : Handler) :
  handleMetric record metric h = Ok h' -> inner h h'.
Proof.
  unfold handleMetric.
  destruct (negb (String.eqb (GlobName metric) "")).
  { destruct (metricHandler h) as [mh|]; simpl; [|discriminate].
    intros E. inversion E. inner_fields. }
  destruct (negb (String.eqb (Name metric) "")).
  2:{ intros E. inversion E. inner_fields. }
  destruct (metricHandler h) as [mh|]; simpl; [|discriminate].
  match goal with
  | |- context [handleStepMetric ?k ?x] =>
      destruct (handleStepMetric k x) as [h1|] eqn:E1; simpl; [|discriminate];
      apply handleStepMetric_inner in E1
  end.
  intros E. inversion E; subst h'.
  eapply inner_trans; [|eapply inner_trans; [exact E1|]]; inner_fields.
Qed.

Lemma writing_refl (h : Handler) : writing h h.
Proof. split; [reflexivity | apply kept_refl]. Qed.

Lemma writing_trans (h1 h2 h3 : Handler) :
  writing h1 h2 -> writing h2 h3 -> writing h1 h3.
Proof.
  intros [E1 K1] [E2 K2]. split; [congruence | eapply kept_trans; eassumption].
Qed.

Lemma writing_inner (h h' : Handler) : inner h h' -> writing h h'.
Proof.
  intros [E K]. split; [|exact K]. unfold outside in E. unfold apart.
  congruence.
Qed.

Ltac writing_fields := split; [reflexivity | kept_fields].

Lemma handleCodeSave_writing (w : World) (h : Handler) :
  writing h (handleCodeSave w h).
Proof.
  unfold handleCodeSave.
  repeat match goal with
         | |- context [if ?b then _ else _] => destruct b
         end;
    try apply writing_refl; try (writing_fields; fail);
    (eapply writing_trans; [|apply writing_inner, handleFiles_inner]);
    try apply writing_refl; writing_fields.
Qed.

Lemma handlePatchSave_writing (w : World) (h : Handler) :
  writing h (handlePatchSave w h).
Proof.
  unfold handlePatchSave.
  destruct (DisableGit (settings h)); [apply writing_refl|].
  destruct (negb (git_available w)); [apply writing_refl|].
  destruct (patch_head_ok w); destruct (latest_commit w) as [c|];
    try destruct (patch_upstream_ok w); cbn [app];
    try (writing_fields; fail);
    (eapply writing_trans; [|apply writing_inner, handleFiles_inner]);
    writing_fields.
Qed.

Lemma handleMetadata_writing (w : World) (request : MetadataRequest)
    (merged : option MetadataRequest) (h : Handler) :
  writing h (handleMetadata w request merged h).
Proof.
  unfold handleMetadata.
  repeat match goal with
         | |- context [if ?b then _ else _] => destruct b
         end;
    try apply writing_refl; try (writing_fields; fail);
    (eapply writing_trans; [|apply writing_inner, handleFiles_inner]);
    writing_fields.
Qed.

Lemma handleRequestPythonPackages_writing (w : World)
    (request : PythonPackagesRequest) (h : Handler) :
  writing h (handleRequestPythonPackages w request h).
Proof.
  unfold handleRequestPythonPackages.
  destruct (negb (create_requirements_ok w)); [writing_fields|].
  destruct (requirements_fail_at w) as [n|];
    [destruct (n <? _)%nat|];
    try (writing_fields; fail);
    (eapply writing_trans; [|apply writing_inner, handleFiles_inner]);
    writing_fields.
Qed.

Lemma handleRequestRunStart_run (w : World) (record : ServiceRecord)
    (request : RunStartRequest) (h h' : Handler) :
  handleRequestRunStart w record request h = Ok h' ->
  exists run,
    Run request = Some run /\
    runRecord h' = Some run /\
    timer h' = Timer_Start Timer_zero (StartTime run) /\
    outChan h' = outChan h ++ [resultFor record emptyResponse] /\
    runfilesUploaderOrNil h' = runfilesUploaderOrNil h /\
    kept h h'.
Proof.
  unfold handleRequestRunStart.
  destruct (Run request) as [run|]; simpl; [|discriminate].
  intros E. inversion E; subst h'; clear E. exists run.
  split; [reflexivity|].
  match goal with
  | |- context [handleMetadata w ?md ?si ?hb] =>
      pose proof (handleMetadata_writing w md si hb) as Wm;
      set (hm := handleMetadata w md si hb) in *
  end.
  match type of Wm with
  | writing (if _ then handlePatchSave w (handleCodeSave w ?x) else ?x) _ =>
      assert (Hx : runRecord x = Some run /\
                   timer x = Timer_Start Timer_zero (StartTime run) /\
                   outChan x = outChan h /\
                   runfilesUploaderOrNil x = runfilesUploaderOrNil h /\
                   kept h x);
      [cbn [settings fwdRecord set_fwdChan set_runRecord set_timer];
       destruct (negb (XDisableStats (settings h)));
       (repeat match goal with |- _ /\ _ => split end; try reflexivity;
        kept_fields)|];
      remember x as hx eqn:Ehx
  end.
  clear Ehx.
  assert (Wb : writing hx hm).
  { eapply writing_trans; [|exact Wm].
    destruct (SaveCode (settings hx)); [|apply writing_refl].
    eapply writing_trans; [apply handleCodeSave_writing|].
    apply handlePatchSave_writing. }
  clear Wm.
  destruct Wb as [Ea K]. destruct Hx as (Hr & Ht & Ho & Hu & Kx).
  unfold apart in Ea. inversion Ea as [[Ho' Hu' Ht' Hr' Hmo Htb Hst Hmb]].
  cbn [runRecord timer outChan runfilesUploaderOrNil respond set_outChan].
  rewrite Ho', Hu', Ht', Hr', Ho, Hu, Ht, Hr.
  repeat match goal with |- _ /\ _ => split end; try reflexivity.
  eapply kept_trans; [exact Kx|]. eapply kept_trans; [exact K|]. kept_fields.
Qed.

Lemma writeAndSendSummaryFile_kept (w : World) (h h' : Handler) :
  writeAndSendSummaryFile w h = Ok h' ->
  kept h h' /\ outChan h' = outChan h /\ runRecord h' = runRecord h.
Proof.
  unfold writeAndSendSummaryFile, uploaderCall.
  destruct (XSync (settings h)).
  { intros E. inversion E. split; [apply kept_refl | split; reflexivity]. }
  destruct (summaryHandler h) as [sh|]; simpl; [|discriminate].
  destruct (negb (marshal_summary_ok w)).
  { intros E. inversion E. split; [kept_fields | split; reflexivity]. }
  destruct (write_summary_ok w); cbn;
    destruct (runfilesUploaderOrNil h); intros E; inversion E;
    (split; [kept_fields | split; reflexivity]).
Qed.

Lemma deferSideEffect_handled (w : World) (state : DeferState)
    (h h' : Handler) :
  is_Some (summaryHandler h) ->
  deferSideEffect w state h = Ok h' ->
  kept h h' /\ outChan h' = outChan h /\ runRecord h' = runRecord h /\
  (state <> FLUSH_SUM -> files h' = files h) /\
  (~ (state = FLUSH_SUM \/ state = FLUSH_FP) ->
   runfilesUploaderOrNil h' = runfilesUploaderOrNil h).
Proof.
  intros Hsh.
  assert (Hin : forall h1, inner h h1 ->
            kept h h1 /\ outChan h1 = outChan h /\ runRecord h1 = runRecord h /\
            (state <> FLUSH_SUM -> files h1 = files h) /\
            (~ (state = FLUSH_SUM \/ state = FLUSH_FP) ->
             runfilesUploaderOrNil h1 = runfilesUploaderOrNil h)).
  { intros h1 [E K]. unfold outside in E. inversion E.
    repeat match goal with |- _ /\ _ => split end; auto. }
  destruct state; simpl;
    try (intros E; inversion E; subst h';
         first [ apply Hin, inner_refl
               | split; [kept_fields|]; repeat split; reflexivity ]; fail).
  - (* FLUSH_PARTIAL_HISTORY *)
    intros E. apply Hin. eapply ActiveHistory_Flush_inner; eassumption.
  - (* FLUSH_SUM *)
    destruct (handleSummary w {| Update := [] |} h) as [h1|] eqn:E1; simpl;
      [|discriminate].
    apply handleSummary_inner in E1.
    unfold SummaryHandler_Flush.
    destruct (summaryHandler h1) as [sh1|]; simpl; [|discriminate].
    destruct (fwdSummary h1) as [h2|] eqn:E2; simpl; [|discriminate].
    apply fwdSummary_inner in E2.
    intros E. apply writeAndSendSummaryFile_kept in E as (K & Ho & Hr).
    destruct (Hin h2 (inner_trans _ _ _ E1 E2)) as (K2 & Ho2 & Hr2 & _).
    split; [eapply kept_trans; eassumption|].
    split; [congruence|]. split; [congruence|].
    split; [congruence|]. intros Hn. exfalso. apply Hn. left. reflexivity.
  - (* FLUSH_FP *)
    unfold uploaderCall. destruct (runfilesUploaderOrNil h); intros E;
      inversion E; subst h';
      (split; [kept_fields|]); (split; [reflexivity|]);
      (split; [reflexivity|]); (split; [reflexivity|]);
      intros Hn; exfalso; apply Hn; right; reflexivity.
  - (* FLUSH_FINAL *)
    intros E. inversion E; subst h'. apply Hin.
    eapply inner_trans; [apply handleFinal_inner | apply handleFooter_inner].
  - (* END *)
    destruct (fileTransferStats h) as [stats|]; simpl; [|discriminate].
    intros E. inversion E; subst h'.
    split; [kept_fields|]. repeat split; reflexivity.
Qed.

Lemma handleExit_handled (w : World) (record : ServiceRecord)
    (e : RunExitRecord) (h h' : Handler) :
  handleExit w record e h = Ok h' ->
  kept h h' /\ outChan h' = outChan h /\ runRecord h' = runRecord h /\
  files h' = files h /\ runfilesUploaderOrNil h' = runfilesUploaderOrNil h.
Proof.
  unfold handleExit. cbn [settings set_timer].
  destruct (XSync (settings h)); cbn [negb].
  - simpl. intros E. inversion E; subst h'.
    split; [kept_fields|]. repeat split; reflexivity.
  - match goal with
    | |- context [consolidateAndUpdateDelta ?i ?x] =>
        destruct (consolidateAndUpdateDelta i x) as [h1|] eqn:E1
    end; simpl; [|discriminate].
    intros E. inversion E; subst h'.
    apply consolidateAndUpdateDelta_inner in E1 as [Eo K].
    unfold outside in Eo. cbn in Eo. inversion Eo.
    split.
    + eapply kept_trans; [|eapply kept_trans; [exact K|]]; kept_fields.
    + cbn. repeat split; assumption.
Qed.

Lemma handled_after (record : ServiceRecord) (h h0 h' : Handler) :
  inner h h0 -> handled record h0 h' -> handled record h h'.
Proof.
  intros [E K] (K' & Ho & Hf & Hu & Hr). unfold outside in E.
  inversion E as [[Eo Ef Eu Et Er Em Etb Es Emb]].
  rewrite Eo in Ho. rewrite Ef in Hf. rewrite Eu in Hu. rewrite Er in Hr.
  split; [eapply kept_trans; eassumption|]. tauto.
Qed.

(** A record that is not answered and is no run start, handled by a part
    of the handler that leaves [outside] alone. *)
Lemma handled_inner (record : ServiceRecord) (h h' : Handler) :
  answered record = false ->
  (forall r, requestOf record <> Some (Request_RunStart r)) ->
  inner h h' -> handled record h h'.
Proof.
  intros Ha Hr [E K]. unfold outside in E.
  inversion E as [[Eo Ef Eu Et Er Em Etb Es Emb]].
  unfold handled. rewrite Ha.
  split; [exact K|]. split; [exact Eo|]. split; [intros _; exact Ef|].
  split; [intros _; exact Eu|].
  destruct (requestOf record) as [[]|]; try exact Er.
  exfalso. eapply Hr. reflexivity.
Qed.

(** Unfolds [handled] for a record whose type is known by [Hty]. *)
Ltac handled_record Hty :=
  unfold handled, answered, mayWriteFiles, mayUpload, requestOf;
  rewrite Hty; cbn beta iota.

(** A record handled by explicit updates of the handler. *)
Ltac plain_record Hty :=
  handled_record Hty;
  split; [kept_fields|];
  cbn; repeat match goal with |- _ /\ _ => split end;
  try reflexivity; try (intros _; reflexivity);
  try (eexists; reflexivity).

Ltac inner_record Hty :=
  apply handled_inner;
  [ unfold answered, requestOf; rewrite Hty; reflexivity
  | unfold requestOf; rewrite Hty; intros; discriminate
  | ].

Lemma handleRecord_handled (w : World) (record : ServiceRecord)
    (h h' : Handler) :
  handleRecord w record h = Ok h' -> handled record h h'.
Proof.
  unfold handleRecord.
  destruct (SummaryHandler_Debounce w h) as [h0|] eqn:E0; simpl; [|discriminate].
  apply SummaryHandler_Debounce_inner in E0 as [Q0 Hsh].
  pose proof (inner_summary _ _ Q0 Hsh) as Hsh0.
  intros E. apply (handled_after record h h0 h' Q0). clear Q0 Hsh h. revert E.
  destruct (GetRecordType record) as [t|] eqn:Hty; [|discriminate].
  destruct t; try discriminate;
    try (intros E; inversion E; subst h'; clear E; plain_record Hty; fail).
  - (* Exit *)
    intros E. apply handleExit_handled in E as (K & Ho & Hr & Hf & Hu).
    handled_record Hty. tauto.
  - (* Files *)
    intros E. inversion E. inner_record Hty. apply handleFiles_inner.
  - (* Final *)
    intros E. inversion E. inner_record Hty. apply handleFinal_inner.
  - (* Footer *)
    intros E. inversion E. inner_record Hty. apply handleFooter_inner.
  - (* History *)
    intros E. inner_record Hty. eapply handleHistory_inner; eassumption.
  - (* Metric *)
    intros E. inner_record Hty. eapply handleMetric_inner; eassumption.
  - (* Request *)
    unfold handleRequest. destruct r as [r|]; [|discriminate].
    destruct r; try discriminate;
      try (intros E; inversion E; subst h'; clear E; plain_record Hty; fail).
    + (* Login *)
      unfold handleRequestLogin. intros E. inversion E; subst h'; clear E.
      handled_record Hty.
      destruct (GetReqResp (GetControl record));
        (split; [kept_fields|]); cbn;
        repeat match goal with |- _ /\ _ => split end;
        try reflexivity; try (intros _; reflexivity);
        eexists; reflexivity.
    + (* Defer *)
      unfold handleRequestDefer.
      destruct (deferSideEffect w (State d) h0) as [hs|] eqn:Es; simpl;
        [|discriminate].
      intros E. inversion E; subst h'; clear E.
      apply deferSideEffect_handled in Es as (K & Ho & Hr & Hf & Hu);
        [|exact Hsh0].
      handled_record Hty.
      split; [eapply kept_trans; [exact K|kept_fields]|].
      cbn. tauto.
    + (* GetSummary *)
      unfold handleRequestGetSummary.
      destruct (summaryHandler h0) as [sh|]; simpl; [|discriminate].
      intros E. inversion E; subst h'; clear E. plain_record Hty.
    + (* PartialHistory *)
      intros E. inner_record Hty.
      eapply handleRequestPartialHistory_inner; eassumption.
    + (* RunStart *)
      intros E.
      apply handleRequestRunStart_run in E as (run & Er & Hr & Ht & Ho & Hu & K).
      handled_record Hty. rewrite Er.
      split; [exact K|]. split; [eexists; exact Ho|].
      split; [tauto|]. split; [intros _; exact Hu|]. split; [exact Hr|eauto].
    + (* PythonPackages *)
      intros E. inversion E; subst h'; clear E.
      destruct (handleRequestPythonPackages_writing w p h0) as [Ea K].
      unfold apart in Ea. inversion Ea as [[Eo Eu Et Er Em Etb Es Emb]].
      handled_record Hty. tauto.
    + (* Cancel *)
      unfold handleRequestCancel. intros E. inversion E; subst h'; clear E.
      destruct (negb (String.eqb (CancelSlot c) "")); plain_record Hty.
  - (* Summary *)
    intros E. inner_record Hty. eapply handleSummary_inner; eassumption.
  - (* Tbrecord *)
    unfold handleTBrecord. intros E. inversion E; subst h'; clear E.
    destruct (tb_handle_fails w); plain_record Hty.
Qed.

(** ** When the handler panics *)

Lemma ready_kept (h h' : Handler) : kept h h' -> ready h -> ready h'.
Proof. unfold kept, ready. tauto. Qed.

Lemma SummaryHandler_Debounce_ok (w : World) (h : Handler) :
  is_Some (summaryHandler h) ->
  exists h', SummaryHandler_Debounce w h = Ok h'.
Proof.
  intros [sh Hsh]. unfold SummaryHandler_Debounce, fwdSummary. rewrite Hsh.
  simpl. destruct (limiter_allow w); eauto.
Qed.

Lemma consolidateAndUpdateDelta_ok {T} `{genericItem T} (items : list T)
    (h : Handler) :
  is_Some (summaryHandler h) ->
  exists h', consolidateAndUpdateDelta items h = Ok h'.
Proof.
  intros [sh Hsh]. unfold consolidateAndUpdateDelta. rewrite Hsh. simpl. eauto.
Qed.

Lemma handleExit_ok (w : World) (record : ServiceRecord) (e : RunExitRecord)
    (h : Handler) :
  is_Some (summaryHandler h) -> exists h', handleExit w record e h = Ok h'.
Proof.
  intros Hsh. unfold handleExit. cbn [settings set_timer].
  destruct (XSync (settings h)); cbn [negb]; simpl; [eauto|].
  match goal with
  | |- context [consolidateAndUpdateDelta ?i ?x] =>
      destruct (consolidateAndUpdateDelta_ok i x Hsh) as [h1 E1]; rewrite E1
  end.
  simpl. eauto.
Qed.

Lemma handleHistory_ok (history : HistoryRecord) (h : Handler) :
  is_Some (summaryHandler h) -> exists h', handleHistory history h = Ok h'.
Proof.
  intros Hsh. unfold handleHistory.
  match goal with
  | |- context [flushHistory history ?x] =>
      destruct (flushHistory_frame history x _ eq_refl (fun _ => Hsh))
        as (h1 & E1 & F1 & _); rewrite E1
  end.
  simpl. destruct (ActiveHistory_Flush_spec h1) as (h2 & E2 & _); [|eauto].
  intros _. apply (ff_summaryHandler _ _ F1). exact Hsh.
Qed.

Lemma handlePartialHistoryAsync_ok (request : PartialHistoryRequest)
    (h : Handler) :
  is_Some (summaryHandler h) ->
  exists h', handlePartialHistoryAsync request h = Ok h'.
Proof.
  intros Hsh. unfold handlePartialHistoryAsync.
  match goal with
  | |- context [deref _ (activeHistory ?x)] =>
      assert (Hx : is_Some (activeHistory x) /\ is_Some (summaryHandler x));
      [destruct (activeHistory h) eqn:Ha; cbn; rewrite ?Ha; eauto|];
      destruct Hx as [[ah Hah] Hshx]; rewrite Hah
  end.
  simpl.
  destruct (bool_decide (ph_Action request = None) || GetFlush (ph_Action request));
    [|eauto].
  match goal with
  | |- context [ActiveHistory_Flush ?y] =>
      destruct (ActiveHistory_Flush_spec y) as (h2 & E2 & _); [|eauto]
  end.
  intros _. exact Hshx.
Qed.

Lemma handlePartialHistorySync_ok (request : PartialHistoryRequest)
    (h : Handler) :
  (forall ah, activeHistory h = Some ah -> is_Some (step ah)) ->
  is_Some (summaryHandler h) ->
  exists h', handlePartialHistorySync request h = Ok h'.
Proof.
  intros Hstep Hsh.
  destruct (ensureActiveHistorySync_spec h Hstep) as (a0 & c & Ha0 & Hs0 & _).
  pose proof (currentStep_Some _ _ _ Ha0 Hs0) as Hc.
  assert (Hcase : (exists s, ph_Step request = Some s /\ Num s < c) \/
                  notBehind request h).
  { destruct (ph_Step request) as [s|] eqn:Hs.
    - destruct (Z_lt_ge_dec (Num s) c) as [Hlt|Hge]; [left; eauto|].
      right. intros s' c' Es Ec. rewrite Hc in Ec. rewrite Hs in Es.
      inversion Es; inversion Ec. subst. lia.
    - right. intros s' c' Es. rewrite Hs in Es. discriminate. }
  destruct Hcase as [(s & Hs & Hlt)|Hnb].
  { rewrite (handlePartialHistorySync_behind request h s c Hs Hc Hlt). eauto. }
  rewrite (handlePartialHistorySync_accept request h Hnb).
  destruct (acceptRequest_spec request h Hstep (fun _ => Hsh))
    as (hm & ah0 & ahm & c0 & Ea & Es & Eacc & Eahm & _ & _ & Hsum & Hm).
  rewrite Eacc. simpl.
  destruct (flushRequested request); [|eauto].
  assert (Hsm : is_Some (step ahm)).
  { destruct (ph_Step request) as [s|].
    - destruct (Num s >? c0); destruct Hm as [-> _]; cbn; rewrite ?Es; eauto.
    - destruct Hm as [-> _]. cbn. rewrite Es. eauto. }
  destruct Hsm as [[n] Hn].
  destruct (flushThenIncrement_spec hm ahm n Eahm Hn Hsum) as (hf & _ & _ & _ & _ & E).
  rewrite E. eauto.
Qed.

Lemma handleRequestPartialHistory_ok (request : PartialHistoryRequest)
    (h : Handler) :
  stepped h -> is_Some (summaryHandler h) ->
  exists h', handleRequestPartialHistory request h = Ok h'.
Proof.
  intros Hstep Hsh. unfold handleRequestPartialHistory.
  destruct (XShared (settings h)) eqn:Hshared.
  - apply handlePartialHistoryAsync_ok. exact Hsh.
  - apply handlePartialHistorySync_ok; [apply Hstep, Hshared | exact Hsh].
Qed.

Lemma deferReady_ready (state : DeferState) (h : Handler) :
  ready h -> deferReady state h.
Proof. intros (Hsh & Hmh & Hst & _). destruct state; simpl; auto. Qed.

Lemma handleRecord_ok (w : World) (record : ServiceRecord) (h : Handler) :
  ready h -> wellFormed record -> exists h', handleRecord w record h = Ok h'.
Proof.
  intros Hr Hwf. unfold handleRecord.
  destruct (SummaryHandler_Debounce_ok w h) as [h0 E0]; [apply Hr|].
  rewrite E0. simpl.
  apply SummaryHandler_Debounce_inner in E0 as [Q0 _].
  apply inner_kept in Q0. apply (ready_kept _ _ Q0) in Hr.
  clear Q0 h. destruct Hr as (Hsh & Hmh & Hst & Hstep).
  unfold wellFormed in Hwf.
  destruct (GetRecordType record) as [t|] eqn:Hty; [|contradiction].
  destruct t; try contradiction; eauto.
  - apply handleExit_ok. exact Hsh.
  - apply handleHistory_ok. exact Hsh.
  - destruct (handleMetric_frame record m h0) as (h' & E & _); eauto.
    exists m. exact Hty.
  - destruct r as [r|]; [|contradiction].
    unfold handleRequest. destruct r; try contradiction; eauto.
    + unfold handleRequestDefer.
      destruct (deferSideEffect_ok w (State d) h0) as [hs Es].
      { apply deferReady_ready. repeat split; assumption. }
      rewrite Es. simpl. eauto.
    + unfold handleRequestGetSummary. destruct Hsh as [sh Es]. rewrite Es.
      simpl. eauto.
    + apply handleRequestPartialHistory_ok; assumption.
    + unfold handleRequestRunStart. destruct Hwf as [run Er]. rewrite Er.
      simpl. eauto.
  - unfold handleSummary. destruct (XSync (settings h0)); [eauto|].
    apply consolidateAndUpdateDelta_ok. exact Hsh.
Qed.

Lemma handleRecord_panics (w : World) (record : ServiceRecord) (h h' : Handler) :
  handleRecord w record h = Ok h' -> wellFormed record.
Proof.
  unfold handleRecord, wellFormed.
  destruct (SummaryHandler_Debounce w h) as [h0|]; simpl; [|discriminate].
  destruct (GetRecordType record) as [t|]; [|discriminate].
  destruct t; try discriminate; try (intros _; exact I).
  destruct r as [r|]; [|discriminate].
  unfold handleRequest. destruct r; try discriminate; try (intros _; exact I).
  unfold handleRequestRunStart. destruct (Run r); [eauto | discriminate].
Qed.

Lemma handleRecords_kept (inputs : list (World * ServiceRecord)) :
  forall h h', handleRecords inputs h = Ok h' -> kept h h'.
Proof.
  induction inputs as [|[w record] inputs IH]; intros h h'; simpl.
  - intros E. inversion E. apply kept_refl.
  - destruct (handleRecord w record h) as [h1|] eqn:E1; simpl; [|discriminate].
    intros E. apply handleRecord_handled in E1 as [K1 _].
    eapply kept_trans; [exact K1 | apply IH; exact E].
Qed.

(** X1. A handler that has its collaborators handles a record without a
    panic exactly when the record is well formed: its type, and the type of
    the request in it, is one the dispatcher knows, and a run start request
    carries a run.  The handler is ready for the next record afterwards. *)
Theorem handleRecord_ok_iff (w : World) (record : ServiceRecord) (h : Handler) :
  ready h ->
  ((exists h', handleRecord w record h = Ok h' /\ ready h') <->
   wellFormed record).
Proof.
  intros Hr. split.
  - intros (h' & E & _). eapply handleRecord_panics. exact E.
  - intros Hwf. destruct (handleRecord_ok w record h Hr Hwf) as [h' E].
    exists h'. split; [exact E|].
    apply handleRecord_handled in E as [K _]. eapply ready_kept; eassumption.
Qed.

(** X2. A handler that has its collaborators never panics on a sequence of
    well-formed records, whatever the world answers, and is ready for more
    afterwards. *)
Theorem handleRecords_never_panic (inputs : list (World * ServiceRecord)) :
  forall h,
    ready h ->
    Forall (fun input => wellFormed (snd input)) inputs ->
    exists h', handleRecords inputs h = Ok h' /\ ready h'.
Proof.
  induction inputs as [|[w record] inputs IH]; intros h Hr Hwf; simpl.
  - eauto.
  - inversion Hwf as [|? ? Hw Hws]; subst. cbn in Hw.
    destruct (handleRecord_ok w record h Hr Hw) as [h1 E1]. rewrite E1. simpl.
    apply IH; [|exact Hws].
    apply handleRecord_handled in E1 as [K _]. eapply ready_kept; eassumption.
Qed.

(** ** Sequences of records *)

Lemma handleRecords_app (a b : list (World * ServiceRecord)) :
  forall h,
    handleRecords (a ++ b) h = h1 ← handleRecords a h; handleRecords b h1.
Proof.
  induction a as [|[w record] a IH]; intros h; simpl; [reflexivity|].
  destruct (handleRecord w record h) as [h1|]; simpl; [apply IH | reflexivity].
Qed.

(** X3. Over any sequence of records the handler answers exactly the
    requests of the answered types, once each and in the order of their
    arrival, and every result carries the control and the identifier of its
    request. *)
Theorem requests_answered_in_order (inputs : list (World * ServiceRecord)) :
  forall h h',
    handleRecords inputs h = Ok h' ->
    exists responses,
      length responses = length (answeredRecords inputs) /\
      outChan h' =
        outChan h ++ zip_with resultFor (answeredRecords inputs) responses.
Proof.
  induction inputs as [|[w record] inputs IH]; intros h h'; simpl.
  - intros E. inversion E. exists []. rewrite app_nil_r. split; reflexivity.
  - destruct (handleRecord w record h) as [h1|] eqn:E1; simpl; [|discriminate].
    intros E. apply handleRecord_handled in E1 as (_ & Ho & _).
    destruct (IH h1 h' E) as (responses & Hlen & Hout).
    unfold answeredRecords in *. cbn [map List.filter snd].
    destruct (answered record).
    + destruct Ho as [response Ho]. exists (response :: responses).
      split; [simpl; congruence|].
      rewrite Hout, Ho, <- app_assoc. reflexivity.
    + exists responses. split; [exact Hlen|]. rewrite Hout, Ho. reflexivity.
Qed.

(** X4. The handler writes files only while it handles a run start, a
    Python packages request or the defer state [FLUSH_SUM], and calls the
    uploader only in the defer states [FLUSH_SUM] and [FLUSH_FP]: a
    sequence of other records leaves the files, respectively the uploader,
    as they were. *)
Theorem files_and_uploads_only_on_request
    (inputs : list (World * ServiceRecord)) :
  forall h h',
    handleRecords inputs h = Ok h' ->
    (Forall (fun input => ~ mayWriteFiles (snd input)) inputs ->
     files h' = files h) /\
    (Forall (fun input => ~ mayUpload (snd input)) inputs ->
     runfilesUploaderOrNil h' = runfilesUploaderOrNil h).
Proof.
  induction inputs as [|[w record] inputs IH]; intros h h'; simpl.
  - intros E. inversion E. split; reflexivity.
  - destruct (handleRecord w record h) as [h1|] eqn:E1; simpl; [|discriminate].
    intros E. apply handleRecord_handled in E1 as (_ & _ & Hf & Hu & _).
    destruct (IH h1 h' E) as [IHf IHu].
    split; intros Hall; inversion Hall as [|? ? Hx Hxs]; subst; cbn in Hx.
    + rewrite (IHf Hxs). apply Hf, Hx.
    + rewrite (IHu Hxs). apply Hu, Hx.
Qed.

Lemma handleRecords_runRecord (inputs : list (World * ServiceRecord)) :
  forall h h',
    handleRecords inputs h = Ok h' ->
    Forall (fun input => ~ isRunStart (snd input)) inputs ->
    runRecord h' = runRecord h.
Proof.
  induction inputs as [|[w record] inputs IH]; intros h h'; simpl.
  - intros E. inversion E. reflexivity.
  - destruct (handleRecord w record h) as [h1|] eqn:E1; simpl; [|discriminate].
    intros E Hall. inversion Hall as [|? ? Hx Hxs]; subst; cbn in Hx.
    apply handleRecord_handled in E1 as (_ & _ & _ & _ & Hr).
    rewrite (IH h1 h' E Hxs).
    destruct (requestOf record) as [[]|] eqn:Hq; try exact Hr.
    exfalso. apply Hx. eexists. exact Hq.
Qed.

Lemma handleRecord_attach (w : World) (record : ServiceRecord) (h h' : Handler) :
  requestOf record = Some Request_Attach ->
  handleRecord w record h = Ok h' ->
  outChan h' = outChan h ++ [resultFor record (attachResponse (runRecord h))].
Proof.
  unfold requestOf, handleRecord. intros Hq.
  destruct (SummaryHandler_Debounce w h) as [h0|] eqn:E0; simpl; [|discriminate].
  apply SummaryHandler_Debounce_inner in E0 as [[Eo _] _].
  unfold outside in Eo. inversion Eo as [[Ho Hf Hu Ht Hr Hm Htb Hs Hmb]].
  destruct (GetRecordType record) as [[]|]; try discriminate.
  subst r. simpl. intros E. inversion E; subst h'. cbn.
  rewrite Ho, Hr. reflexivity.
Qed.

(** X5. An attach request is answered with the run of the last run start
    request, whatever was handled in between. *)
Theorem attach_answers_the_run (w0 w1 : World) (start attach : ServiceRecord)
    (run : RunRecord) (between : list (World * ServiceRecord))
    (h h' : Handler) :
  requestOf start = Some (Request_RunStart {| Run := Some run |}) ->
  Forall (fun input => ~ isRunStart (snd input)) between ->
  requestOf attach = Some Request_Attach ->
  handleRecords ((w0, start) :: between ++ [(w1, attach)]) h = Ok h' ->
  last (outChan h') = Some (resultFor attach (attachResponse (Some run))).
Proof.
  intros Hstart Hbetween Hattach. simpl.
  destruct (handleRecord w0 start h) as [h1|] eqn:E1; simpl; [|discriminate].
  rewrite handleRecords_app.
  destruct (handleRecords between h1) as [h2|] eqn:E2; simpl; [|discriminate].
  destruct (handleRecord w1 attach h2) as [h3|] eqn:E3; simpl; [|discriminate].
  intros E. inversion E; subst h3.
  apply handleRecord_handled in E1 as (_ & _ & _ & _ & Hr).
  rewrite Hstart in Hr. cbn in Hr. destruct Hr as [Hr _].
  rewrite (handleRecord_attach _ _ _ _ Hattach E3).
  rewrite (handleRecords_runRecord _ _ _ E2 Hbetween), Hr.
  apply last_snoc.
Qed.

(** ** The summary *)

Lemma fwdSummary_current (h h' : Handler) :
  coherent h ->
  fwdSummary h = Ok h' ->
  exists sh r,
    summaryHandler h = Some sh /\
    fwdChan h' = fwdChan h ++ [r] /\
    currentIn (consolidatedSummary sh) r /\
    summaryHandler h' =
      Some {| consolidatedSummary := consolidatedSummary sh; summaryDelta := ∅ |}.
Proof.
  intros Hc. unfold fwdSummary.
  destruct (summaryHandler h) as [sh|] eqn:Hsh; simpl; [|discriminate].
  intros E. inversion E; subst h'. eexists sh, _.
  split; [reflexivity|]. split; [reflexivity|]. split; [|reflexivity].
  eexists. split; [reflexivity|].
  apply Forall_forall. intros it Hit.
  apply list_elem_of_In, in_map_iff in Hit as ([k v] & <- & Hkv).
  apply list_elem_of_In, elem_of_map_to_list in Hkv. cbn.
  eapply lookup_weaken; [exact Hkv|]. apply Hc. exact Hsh.
Qed.

(** X6. The summary delta stays within the consolidated summary over any
    sequence of records, so that a summary record the handler forwards
    afterwards carries, for each of its keys, the value the consolidated
    summary has for that key. *)
Theorem summary_delta_is_current (inputs : list (World * ServiceRecord))
    (h h' : Handler) :
  coherent h ->
  handleRecords inputs h = Ok h' ->
  coherent h' /\
  forall h'',
    fwdSummary h' = Ok h'' ->
    exists sh r,
      summaryHandler h' = Some sh /\
      fwdChan h'' = fwdChan h' ++ [r] /\
      currentIn (consolidatedSummary sh) r.
Proof.
  intros Hc E. apply handleRecords_kept in E.
  assert (Hc' : coherent h') by (apply E; exact Hc).
  split; [exact Hc'|]. intros h'' E'.
  destruct (fwdSummary_current h' h'' Hc' E') as (sh & r & Hsh & Hf & Hr & _).
  eauto.
Qed.

Lemma lookup_fold_insert {T} `{genericItem T} (items : list T) (key : string) :
  forall m : gmap string string,
    fold_left (fun m it => <[GetKey it := GetValueJson it]> m) items m !! key =
    merged m items key.
Proof.
  unfold merged.
  induction items as [|it items IH]; intros m; simpl; [reflexivity|].
  rewrite IH. destruct (latestValue key items) as [v|]; [reflexivity|].
  destruct (decide (GetKey it = key)) as [<-|Hne].
  - apply lookup_insert_eq.
  - apply lookup_insert_ne. exact Hne.
Qed.

Lemma lists_map_to_list (m : gmap string string) :
  lists (map (fun kv => {| si_Key := fst kv; si_ValueJson := snd kv |})
             (map_to_list m))
        (fun k => m !! k).
Proof.
  split.
  - rewrite map_map. cbn. apply (NoDup_fst_map_to_list m).
  - intros k v. rewrite list_elem_of_In, in_map_iff. split.
    + intros ([k' v'] & E & Hin). inversion E; subst.
      apply list_elem_of_In, elem_of_map_to_list in Hin. exact Hin.
    + intros Hkv. exists (k, v). split; [reflexivity|].
      apply list_elem_of_In, elem_of_map_to_list. exact Hkv.
Qed.

(** X7. A flush of the summary forwards one summary record that lists the
    entries of the delta, each key once, empties the delta and keeps the
    consolidated summary; a second flush right after it forwards an empty
    update. *)
Theorem summary_flush_drains_delta (h : Handler) (sh : SummaryHandler) :
  summaryHandler h = Some sh ->
  exists h' items h'',
    fwdSummary h = Ok h' /\
    fwdChan h' = fwdChan h ++ [summaryRecord items] /\
    lists items (fun k => summaryDelta sh !! k) /\
    summaryHandler h' =
      Some {| consolidatedSummary := consolidatedSummary sh;
              summaryDelta := ∅ |} /\
    fwdSummary h' = Ok h'' /\
    fwdChan h'' = fwdChan h' ++ [summaryRecord []].
Proof.
  intros Hsh. unfold fwdSummary. rewrite Hsh. cbn.
  eexists _, _, _. split; [reflexivity|]. cbn.
  split; [reflexivity|]. split; [apply lists_map_to_list|].
  split; [reflexivity|]. rewrite map_to_list_empty. split; reflexivity.
Qed.

Lemma consolidateAndUpdateDelta_spec {T} `{genericItem T} (items : list T)
    (h : Handler) (sh : SummaryHandler) :
  summaryHandler h = Some sh ->
  consolidateAndUpdateDelta items h =
    Ok (set_summaryHandler
          (Some {| consolidatedSummary :=
                     fold_left (fun m it => <[GetKey it := GetValueJson it]> m)
                       items (consolidatedSummary sh);
                   summaryDelta :=
                     fold_left (fun m it => <[GetKey it := GetValueJson it]> m)
                       items (summaryDelta sh) |}) h).
Proof.
  intros Hsh. unfold consolidateAndUpdateDelta. rewrite Hsh.
  cbn [deref mbind outcome_bind ConsolidateSummaryItems].
  rewrite updateSummaryDelta_generic. reflexivity.
Qed.



(** ** The registry of metrics *)

Lemma handleStepMetric_spec (key : string) (h : Handler) (mh : MetricHandler) :
  metricHandler h = Some mh ->
  handleStepMetric key h =
    Ok (if isNewStepMetric key (definedMetrics mh)
        then fwdRecord (Some (stepMetricRecord key))
               (set_metricHandler
                  (Some (set_definedMetrics
                           (<[key := namedMetric key]> (definedMetrics mh)) mh)) h)
        else h).
Proof.
  intros Hmh. unfold handleStepMetric, isNewStepMetric.
  destruct (String.eqb key ""); [reflexivity|].
  rewrite Hmh. cbn [deref mbind outcome_bind negb andb].
  destruct (definedMetrics mh !! key); reflexivity.
Qed.

Lemma handleStepMetric_definedAs (key : string) (h h' : Handler)
    (name : string) (metric : MetricRecord) :
  handleStepMetric key h = Ok h' ->
  definedAs name metric h -> definedAs name metric h'.
Proof.
  intros E (mh & Hmh & Hd). rewrite (handleStepMetric_spec key h mh Hmh) in E.
  inversion E; subst h'; clear E. unfold isNewStepMetric.
  destruct (String.eqb key ""); cbn [negb andb]; [exists mh; auto|].
  destruct (definedMetrics mh !! key) eqn:Hk; [exists mh; auto|].
  eexists. split; [reflexivity|]. cbn.
  rewrite lookup_insert_ne; [exact Hd|]. intros <-. congruence.
Qed.

Lemma handleStepMetric_defines (key : string) (h h' : Handler) :
  key <> "" ->
  is_Some (metricHandler h) ->
  handleStepMetric key h = Ok h' ->
  exists m, definedAs key m h'.
Proof.
  intros Hkey [mh Hmh] E. rewrite (handleStepMetric_spec key h mh Hmh) in E.
  inversion E; subst h'; clear E. unfold isNewStepMetric.
  apply String.eqb_neq in Hkey. rewrite Hkey. cbn [negb andb].
  destruct (definedMetrics mh !! key) as [m|] eqn:Hk.
  - exists m, mh. auto.
  - eexists _, _. split; [reflexivity|]. cbn. apply lookup_insert_eq.
Qed.

Lemma handleMetric_named (record : ServiceRecord) (metric : MetricRecord)
    (h : Handler) (mh : MetricHandler) :
  metricHandler h = Some mh ->
  GlobName metric = "" ->
  Name metric <> "" ->
  let defined := <[Name metric := metric]> (definedMetrics mh) in
  exists h',
    handleMetric record metric h = Ok h' /\
    fwdChan h' =
      fwdChan h ++
        (if isNewStepMetric (StepMetric metric) defined
         then [stepMetricRecord (StepMetric metric)] else []) ++ [record] /\
    definedAs (Name metric) metric h' /\
    (StepMetric metric <> "" -> exists m, definedAs (StepMetric metric) m h').
Proof.
  intros Hmh Hglob Hname defined. unfold handleMetric.
  rewrite Hglob. cbn [String.eqb negb].
  apply String.eqb_neq in Hname. rewrite Hname. cbn [negb].
  rewrite Hmh. cbn [deref mbind outcome_bind addMetric].
  match goal with
  | |- context [handleStepMetric ?k ?x] =>
      pose proof (handleStepMetric_spec k x _ eq_refl) as Hs;
      pose proof (handleStepMetric_definedAs k x) as Hkeep;
      pose proof (handleStepMetric_defines k x) as Hdef;
      destruct (handleStepMetric k x) as [h1|] eqn:E1; [|discriminate]
  end.
  cbn [mbind outcome_bind]. eexists. split; [reflexivity|].
  split; [|split].
  - inversion Hs as [Hh1]. cbn [definedMetrics set_definedMetrics].
    fold defined. destruct (isNewStepMetric (StepMetric metric) defined); cbn;
      rewrite <- ?app_assoc; reflexivity.
  - destruct (Hkeep h1 (Name metric) metric eq_refl) as (mh1 & Hm1 & Hd1).
    + eexists. split; [reflexivity|]. cbn. apply lookup_insert_eq.
    + exists mh1. split; [exact Hm1 | exact Hd1].
  - intros Hstep. destruct (Hdef h1 Hstep) as (m & mh1 & Hm1 & Hd1);
      [cbn; eauto | reflexivity |].
    exists m, mh1. split; [exact Hm1 | exact Hd1].
Qed.

Lemma matchHistoryItemMetric_defined (item : HistoryItem) (metric : MetricRecord)
    (h : Handler) :
  HasPrefix (hi_Key item) "_" = false ->
  definedAs (hi_Key item) metric h ->
  matchHistoryItemMetric item h = Ok (Some metric, h).
Proof.
  intros Hpre (mh & Hmh & Hd). unfold matchHistoryItemMetric.
  rewrite Hpre, Hmh. cbn [deref mbind outcome_bind]. rewrite Hd. reflexivity.
Qed.

(** X10. A metric record with a name and no glob name defines the metric:
    the record is forwarded, preceded by a record for its step metric if
    that was not defined yet, the step metric is defined afterwards, and a
    history item of that name resolves to the metric without any further
    change of the handler. *)
Theorem defined_metric_is_resolved (record : ServiceRecord)
    (metric : MetricRecord) (item : HistoryItem) (h : Handler)
    (mh : MetricHandler) :
  metricHandler h = Some mh ->
  GlobName metric = "" ->
  Name metric <> "" ->
  hi_Key item = Name metric ->
  HasPrefix (Name metric) "_" = false ->
  exists h',
    handleMetric record metric h = Ok h' /\
    fwdChan h' =
      fwdChan h ++
        (if isNewStepMetric (StepMetric metric)
              (<[Name metric := metric]> (definedMetrics mh))
         then [stepMetricRecord (StepMetric metric)] else []) ++ [record] /\
    (StepMetric metric <> "" -> exists m, definedAs (StepMetric metric) m h') /\
    matchHistoryItemMetric item h' = Ok (Some metric, h').
Proof.
  intros Hmh Hglob Hname Hkey Hpre.
  destruct (handleMetric_named record metric h mh Hmh Hglob Hname)
    as (h' & E & Hfwd & Hd & Hstep).
  exists h'. split; [exact E|]. split; [exact Hfwd|]. split; [exact Hstep|].
  apply matchHistoryItemMetric_defined; rewrite Hkey; assumption.
Qed.

(** X11. The metric of a history item with a key is resolved once: what the
    first resolution gives, a second one gives again, and the second one
    changes nothing, forwards nothing and logs nothing.  In particular a
    metric made from a glob is forwarded the first time only. *)
Theorem metric_resolution_is_stable (item : HistoryItem)
    (metric : option MetricRecord) (h h' : Handler) :
  hi_Key item <> "" ->
  matchHistoryItemMetric item h = Ok (metric, h') ->
  matchHistoryItemMetric item h' = Ok (metric, h').
Proof.
  intros Hkey. unfold matchHistoryItemMetric at 1.
  destruct (HasPrefix (hi_Key item) "_") eqn:Hpre.
  { intros E. inversion E; subst. unfold matchHistoryItemMetric.
    rewrite Hpre. reflexivity. }
  destruct (metricHandler h) as [mh|] eqn:Hmh; [|discriminate].
  cbn [deref mbind outcome_bind].
  destruct (definedMetrics mh !! hi_Key item) as [m|] eqn:Hd.
  { intros E. inversion E; subst.
    apply matchHistoryItemMetric_defined; [exact Hpre|]. exists mh. auto. }
  unfold createMatchingGlobMetric.
  destruct (firstMatchingGlob (globMetrics mh) (hi_Key item)) as [m|] eqn:Hg.
  2:{ intros E. inversion E; subst. unfold matchHistoryItemMetric.
      rewrite Hpre, Hmh. cbn [deref mbind outcome_bind].
      unfold createMatchingGlobMetric. rewrite Hd, Hg. reflexivity. }
  destruct (firstMatchingGlob_from _ _ _ Hg) as (Hname & Hglob & _).
  match goal with
  | |- context [handleMetric ?r m h] =>
      destruct (handleMetric_named r m h mh Hmh Hglob) as (h1 & E1 & _ & Hdef & _);
      [rewrite Hname; exact Hkey|]; rewrite E1
  end.
  cbn [mbind outcome_bind]. intros E. inversion E; subst.
  apply matchHistoryItemMetric_defined; [exact Hpre|].
  rewrite <- Hname. exact Hdef.
Qed.

(** ** History records and the accumulator *)

(** X12. A history record is flushed on its own: it is forwarded as one
    record with the internal items, or not at all when it has no items, and
    the accumulator it leaves is empty, has the step of the record and no
    flush callback, whatever the accumulator held before. *)
Theorem history_record_replaces_accumulator (history : HistoryRecord)
    (h : Handler) :
  (is_Some (metricHandler h) -> is_Some (summaryHandler h)) ->
  exists h',
    handleHistory history h = Ok h' /\
    activeHistory h' =
      Some (NewActiveHistory (Some (GetNum (hr_Step history))) None) /\
    match hr_Item history with
    | [] => fwdChan h' = fwdChan h
    | _ =>
        flushedAs (hr_Step history) (hr_Item history)
          (internalItems history (recordAccumulator history) h) h h'
    end.
Proof.
  intros Hsum. unfold handleHistory. fold (recordAccumulator history).
  set (h1 := set_activeHistory (Some (recordAccumulator history)) h).
  destruct (flushHistory_frame history h1 (recordAccumulator history) eq_refl Hsum)
    as (h2 & E2 & F2 & R2).
  rewrite E2. cbn [mbind outcome_bind].
  assert (Hsum2 : is_Some (metricHandler h2) -> is_Some (summaryHandler h2)).
  { intros X. apply (ff_summaryHandler _ _ F2), Hsum, (ff_metricHandler _ _ F2), X. }
  destruct (ActiveHistory_Flush_spec h2 Hsum2) as (h3 & E3 & F3 & A3 & R3).
  exists h3. split; [exact E3|].
  pose proof (ff_activeHistory _ _ F2) as Ha2. cbn in Ha2.
  destruct Ha2 as (ah2 & Ea2 & Es2 & Ef2).
  rewrite Ea2 in A3, R3. cbn in A3. rewrite Ef2 in R3. cbn in R3.
  split.
  { rewrite A3. unfold Clear. rewrite Es2, Ef2. reflexivity. }
  destruct (hr_Item history) as [|it its] eqn:Hit.
  - rewrite R3. subst h2. reflexivity.
  - destruct R2 as (imputed & Hrec). exists imputed. rewrite R3, Hrec.
    reflexivity.
Qed.

(** X13. In the synchronous mode a request for a later step first flushes
    what is pending as one record at the step it was collected for; the
    items of the request are then pending at the later step. *)
Theorem later_step_flushes_pending (request : PartialHistoryRequest)
    (h : Handler) (ah : ActiveHistory) (c : Z) (s : HistoryStep) :
  syncReady h ->
  activeHistory h = Some ah ->
  step ah = Some {| Num := c |} ->
  flush ah = Some FlushWithStep ->
  GetValues ah <> [] ->
  ph_Step request = Some s ->
  c < Num s ->
  GetFlush (ph_Action request) = false ->
  exists h',
    handleRequestPartialHistory request h = Ok h' /\
    flushedAs (Some {| Num := c |}) (GetValues ah)
      (internalItems (callbackRecord FlushWithStep ah) ah h) h h' /\
    activeHistory h' =
      Some (UpdateValues (UpdateStep (Clear ah) (Num s)) (ph_Item request)).
Proof.
  intros (Hsync & Hstep & Hsum) Hah Hs Hf Hvals Hreq Hlt Hflush.
  unfold handleRequestPartialHistory. rewrite Hsync.
  unfold handlePartialHistorySync, ensureActiveHistorySync. rewrite Hah, Hreq.
  rewrite (currentStep_Some h ah c Hah Hs). cbn [mbind outcome_bind].
  destruct (Z.gtb_spec (Num s) c) as [_|Hle]; [|lia].
  destruct (ActiveHistory_Flush_spec h Hsum) as (hf & Ef & Ff & Af & Rf).
  rewrite Ef. cbn [mbind outcome_bind].
  rewrite Hah in Af, Rf. cbn in Af. rewrite Hf in Rf.
  unfold updateStep. rewrite Af. cbn [deref mbind outcome_bind].
  unfold updateValues. cbn [activeHistory set_activeHistory deref mbind outcome_bind].
  unfold flushRequested. rewrite Hreq, Hflush. cbn.
  eexists. split; [reflexivity|]. split; [|reflexivity].
  unfold flushedAs. cbn [fwdChan set_activeHistory].
  destruct (GetValues ah) as [|v vs] eqn:Hv; [congruence|].
  destruct Rf as (imputed & Hrec). exists imputed. rewrite Hrec.
  unfold internalItems. cbn [callbackRecord hr_Step]. rewrite Hs. reflexivity.
Qed.

Lemma sharedAccumulator_spec (h : Handler) :
  exists h0,
    (match activeHistory h with
     | None =>
         set_activeHistory
           (Some (NewActiveHistory None (Some FlushWithoutStep))) h
     | Some _ => h
     end) = h0 /\
    activeHistory h0 = Some (sharedAccumulator h) /\
    set_activeHistory (Some (sharedAccumulator h)) h = h0.
Proof.
  unfold sharedAccumulator. destruct (activeHistory h) as [ah|] eqn:Hah.
  - exists h. split; [reflexivity|]. split; [exact Hah|].
    destruct h. cbn in *. subst. reflexivity.
  - eexists. split; [reflexivity|]. split; reflexivity.
Qed.

(** X14. In the shared mode the items of a request are put into the
    accumulator; a request without action, or with [flush], then flushes it
    as one record that has no step and gets [_runtime] but no [_step], and
    leaves the accumulator empty; a request whose action says not to flush
    forwards nothing. *)
Theorem shared_mode_flush (request : PartialHistoryRequest) (h : Handler) :
  sharedReady h ->
  exists h',
    handleRequestPartialHistory request h = Ok h' /\
    (ph_Action request = None \/ GetFlush (ph_Action request) = true ->
     activeHistory h' = Some (Clear (sharedPending request h)) /\
     match GetValues (sharedPending request h) with
     | [] => fwdChan h' = fwdChan h
     | _ => flushedAs None (GetValues (sharedPending request h))
              [runtimeItem (flushRunTime (sharedPending request h) h)] h h'
     end) /\
    (ph_Action request <> None -> GetFlush (ph_Action request) = false ->
     h' = set_activeHistory (Some (sharedPending request h)) h).
Proof.
  intros (Hshared & Hcb & Hsum). unfold handleRequestPartialHistory.
  rewrite Hshared. unfold handlePartialHistoryAsync.
  destruct (sharedAccumulator_spec h) as (h0 & -> & Ha0 & Eh0).
  rewrite Ha0. cbn [deref mbind outcome_bind].
  set (acc := UpdateValues (sharedAccumulator h) (ph_Item request)).
  assert (E1 : set_activeHistory (Some acc) h0 = set_activeHistory (Some acc) h).
  { rewrite <- Eh0. reflexivity. }
  rewrite E1. set (h1 := set_activeHistory (Some acc) h).
  assert (Hfl : flush acc = Some FlushWithoutStep).
  { unfold acc, sharedAccumulator. cbn [flush UpdateValues].
    destruct (activeHistory h) as [ah|] eqn:Hah; [apply Hcb; reflexivity|].
    reflexivity. }
  destruct (ActiveHistory_Flush_spec h1 Hsum) as (hf & Ef & Ff & Af & Rf).
  cbn [activeHistory h1 set_activeHistory] in Af, Rf. cbn in Af.
  rewrite Hfl in Rf.
  destruct (bool_decide (ph_Action request = None) || GetFlush (ph_Action request))
    eqn:Hcond.
  - exists hf. split; [exact Ef|]. unfold sharedPending. fold acc. split.
    + intros _. split; [exact Af|].
      destruct (GetValues acc) as [|v vs] eqn:Hv; [exact Rf|].
      destruct Rf as (imputed & Hrec). exists imputed.
      cbn [fwdChan h1 set_activeHistory] in Hrec. rewrite Hrec.
      unfold internalItems. cbn [settings h1 set_activeHistory].
      rewrite Hshared. reflexivity.
    + intros Hsome Hno. apply orb_true_iff in Hcond as [Hc|Hc].
      * apply bool_decide_eq_true in Hc. contradiction.
      * congruence.
  - exists h1. split; [reflexivity|]. unfold sharedPending. fold acc.
    apply orb_false_iff in Hcond as [Hc1 Hc2].
    apply bool_decide_eq_false in Hc1. split.
    + intros [Hn|Hf]; [contradiction | congruence].
    + intros _ _. reflexivity.
Qed.

(** X15. The history of a run starts at its starting step: the first
    request of the synchronous mode that flushes, when it names no step,
    is forwarded at the starting step of the run of the handler (step 0
    without a run), and the step after it is the next one. *)
Theorem history_starts_at_starting_step (request : PartialHistoryRequest)
    (h : Handler) :
  syncReady h ->
  activeHistory h = None ->
  ph_Step request = None ->
  ph_Item request <> [] ->
  GetFlush (ph_Action request) = true ->
  exists h' r,
    handleRequestPartialHistory request h = Ok h' /\
    historyRecords (fwdChan h') = historyRecords (fwdChan h) ++ [r] /\
    hr_Step r = Some {| Num := GetStartingStep (runRecord h) |} /\
    (forall it, it ∈ requestValues (ph_Item request) -> it ∈ hr_Item r) /\
    currentStep h' = Ok (wrap64 (GetStartingStep (runRecord h) + 1)).
Proof.
  intros Hready Hnone Hstep Hitems Hflush.
  assert (Hidle : syncIdle h).
  { split; [exact Hready|]. intros ah E. congruence. }
  assert (Hnb : notBehind request h).
  { intros s c E. congruence. }
  destruct (sync_flush_run request h Hidle Hflush Hnb)
    as (h1 & ah0 & c0 & Ha0 & Hs0 & Hrun).
  cbv zeta in Hrun. rewrite Hstep in Hrun.
  destruct Hrun as (E & _ & Hc & _ & Hrec).
  unfold ensureActiveHistorySync in Ha0. rewrite Hnone in Ha0.
  cbn in Ha0. inversion Ha0; subst ah0. cbn in Hs0. inversion Hs0; subst c0.
  pose proof (requestValues_nonempty _ Hitems) as Hne.
  destruct (requestValues (ph_Item request)) as [|v vs] eqn:Hrv; [congruence|].
  destruct Hrec as (r & Hr & Hsr & Hin).
  exists h1, r. repeat split; assumption.
Qed.

(** X16. What a flush forwards is what it merges into the summary: the
    consolidated summary and the delta after the flush are the ones before
    it with the items of the forwarded record merged in, the last item of a
    key winning; the items of the record handed to the flush come first in
    the forwarded record. *)
Theorem flushed_items_reach_the_summary (history : HistoryRecord)
    (h : Handler) (ah : ActiveHistory) (sh : SummaryHandler) :
  hr_Item history <> [] ->
  activeHistory h = Some ah ->
  summaryHandler h = Some sh ->
  exists h' flushed sh' rest,
    flushHistory history h = Ok h' /\
    last (fwdChan h') = Some (newRecord (Record_History flushed) None) /\
    hr_Item flushed = hr_Item history ++ rest /\
    summaryHandler h' = Some sh' /\
    (forall k, consolidatedSummary sh' !! k =
               merged (consolidatedSummary sh) (hr_Item flushed) k) /\
    (forall k, summaryDelta sh' !! k =
               merged (summaryDelta sh) (hr_Item flushed) k).
Proof.
  intros Hitems Hah Hsh.
  destruct (flushHistory_spec history h ah Hitems Hah)
    as (imputed & hm & E & F & _); [intros _; eauto|].
  eexists _, _, _, _. split; [exact E|].
  split; [rewrite fwdChan_emitHistory; apply last_snoc|].
  split; [reflexivity|].
  unfold emitHistory. rewrite (frame_summaryHandler _ _ F), Hsh.
  split; [reflexivity|]. cbn [summaryAfter consolidatedSummary summaryDelta].
  split; intros k; exact (lookup_fold_insert (T := HistoryItem) _ k _).
Qed.

(** ** The keys of a flushed record *)

Lemma imputedItem_fresh (metric : option MetricRecord) (ah : ActiveHistory)
    (sh : SummaryHandler) (hi : HistoryItem) :
  imputedItem metric ah sh = Some hi -> GetItem ah (hi_Key hi) = None.
Proof.
  unfold imputedItem.
  destruct (GetStepSync (GetOptions metric)
            && negb (String.eqb (GetStepMetric metric) "")); [|discriminate].
  destruct (GetItem ah (GetStepMetric metric)) eqn:Hg; [discriminate|].
  destruct (consolidatedSummary sh !! GetStepMetric metric); [|discriminate].
  intros E. inversion E. exact Hg.
Qed.

Lemma GetItem_UpdateValues_one (ah : ActiveHistory) (hi : HistoryItem)
    (key : string) :
  GetItem (UpdateValues ah [hi]) key = None ->
  GetItem ah key = None /\ key <> hi_Key hi.
Proof.
  unfold GetItem, UpdateValues. cbn. intros Hn.
  apply lookup_insert_None in Hn as [Hn Hne]. split; [exact Hn | congruence].
Qed.

(** The items the loop of [flushHistory] imputes have keys that differ
    from one another and that the accumulator did not have. *)
Lemma imputeStepMetrics_fresh (items : list HistoryItem) :
  forall (history : HistoryRecord) (h : Handler) (ah : ActiveHistory),
    is_Some (metricHandler h) ->
    activeHistory h = Some ah ->
    is_Some (summaryHandler h) ->
    exists imputed h',
      imputeStepMetrics items history h = Ok (appendItems history imputed, h') /\
      NoDup (keysOf imputed) /\
      Forall (fun hi => GetItem ah (hi_Key hi) = None) imputed.
Proof.
  induction items as [|item rest IH]; intros history h ah Hmh Hah Hsh.
  - exists [], h. simpl. split; [|split; constructor].
    unfold appendItems. rewrite app_nil_r. destruct history; reflexivity.
  - destruct Hmh as [mh Hmh], Hsh as [sh Hsh].
    destruct (imputeStepMetric_spec item h mh ah sh Hmh Hah Hsh)
      as (h1 & E1 & F1 & A1 & _).
    simpl. rewrite E1. simpl.
    set (step := imputedItem (resolvedMetric mh item) ah sh) in *.
    destruct (IH (match step with
                  | Some s => appendItems history [s]
                  | None => history
                  end) h1 (UpdateValues ah (option_list step)))
      as (imputed & h' & E' & Hnd & Hfresh).
    + apply (proj1 (frame_metricHandler _ _ F1)). rewrite Hmh. eauto.
    + exact A1.
    + rewrite (frame_summaryHandler _ _ F1), Hsh. eauto.
    + exists (option_list step ++ imputed), h'. split; [|split].
      * rewrite E'. f_equal. f_equal. unfold appendItems.
        destruct step; simpl; [rewrite <- app_assoc|]; reflexivity.
      * destruct step as [hi|] eqn:Hstep; simpl; [|exact Hnd].
        unfold keysOf. cbn [map]. constructor; [|exact Hnd].
        intros Hin. apply list_elem_of_In, in_map_iff in Hin as (x & Hk & Hx).
        apply list_elem_of_In in Hx.
        rewrite Forall_forall in Hfresh. specialize (Hfresh x Hx).
        cbn [option_list] in Hfresh.
        apply GetItem_UpdateValues_one in Hfresh as [_ Hne]. congruence.
      * apply Forall_app. split.
        -- destruct step as [hi|] eqn:Hstep; simpl; [|constructor].
           constructor; [|constructor].
           eapply imputedItem_fresh. exact Hstep.
        -- eapply Forall_impl; [exact Hfresh|]. intros x Hx.
           destruct step as [hi|]; cbn [option_list] in Hx.
           ++ apply GetItem_UpdateValues_one in Hx as [Hx _]. exact Hx.
           ++ destruct ah. exact Hx.
Qed.

(** X17. A flushed record has no key twice, if the record handed to the
    flush has no key twice, the accumulator has an item for each of its
    keys, and neither its items nor the step metrics are named [_runtime]
    or [_step]: what is imputed are keys the accumulator does not have, each
    once. *)
Theorem flushed_keys_are_distinct (history : HistoryRecord) (h : Handler)
    (ah : ActiveHistory) :
  hr_Item history <> [] ->
  activeHistory h = Some ah ->
  (is_Some (metricHandler h) -> is_Some (summaryHandler h)) ->
  NoDup (keysOf (hr_Item history)) ->
  holds ah (hr_Item history) ->
  Forall (fun it => hi_Key it <> "_runtime" /\ hi_Key it <> "_step")
    (hr_Item history) ->
  stepMetricsAvoid "_runtime" h ->
  stepMetricsAvoid "_step" h ->
  exists h' flushed,
    flushHistory history h = Ok h' /\
    last (fwdChan h') = Some (newRecord (Record_History flushed) None) /\
    NoDup (keysOf (hr_Item flushed)).
Proof.
  intros Hitems Hah Hsum Hnd Hholds Huser Hrt Hst.
  destruct (flushHistory_spec history h ah Hitems Hah Hsum)
    as (imputed & hm & E & F & Hnone & Hav).
  eexists _, _. split; [exact E|].
  split; [rewrite fwdChan_emitHistory; apply last_snoc|].
  cbn [hr_Item].
  assert (Himp : NoDup (keysOf imputed) /\
                 Forall (fun hi => GetItem ah (hi_Key hi) = None) imputed).
  { destruct (metricHandler h) as [mh|] eqn:Hmh.
    2:{ rewrite (Hnone eq_refl). split; constructor. }
    rewrite (flushHistory_unfold history h ah Hitems Hah) in E.
    destruct (imputeFrame_afterTimestamp ah h) as (F0 & Hmh0 & Hah0).
    rewrite Hmh0, Hmh in E.
    destruct (imputeStepMetrics_fresh (hr_Item (withInternalItems history ah h))
                (withInternalItems history ah h) (afterTimestamp ah h) ah)
      as (imputed' & h1 & E1 & Hnd1 & Hf1).
    { rewrite Hmh0, Hmh. eauto. }
    { rewrite Hah0. exact Hah. }
    { rewrite (frame_summaryHandler _ _ F0). apply Hsum. eauto. }
    rewrite E1 in E. cbn [mbind outcome_bind] in E.
    assert (Eq : imputed' = imputed).
    { inversion E as [Ee].
      assert (Hrec : forall a b x y, emitHistory a x = emitHistory b y ->
                                     hr_Item a = hr_Item b).
      { intros a b x y Hxy.
        assert (Hl : last (fwdChan (emitHistory a x)) =
                     last (fwdChan (emitHistory b y))) by (rewrite Hxy; reflexivity).
        rewrite !fwdChan_emitHistory, !last_snoc in Hl. inversion Hl. reflexivity. }
      apply Hrec in Ee. unfold appendItems, withInternalItems in Ee.
      cbn [hr_Item] in Ee. rewrite <- app_assoc in Ee.
      apply app_inv_head in Ee.
      apply (app_inv_head (internalItems history ah h)) in Ee. exact Ee. }
    subst imputed'. split; assumption. }
  destruct Himp as [Hndi Hfresh].
  destruct (Hav "_runtime") as [_ Hirt]; [discriminate | exact Hrt|].
  destruct (Hav "_step") as [_ Hist]; [discriminate | exact Hst|].
  unfold keysOf in *. rewrite !map_app.
  assert (Hdisj : forall k, In k (map hi_Key (hr_Item history)) ->
                            In k (map hi_Key imputed) -> False).
  { intros k H1 H2. apply in_map_iff in H1 as (x & <- & Hx).
    apply in_map_iff in H2 as (y & Hk & Hy).
    unfold holds in Hholds. rewrite Forall_forall in Hholds, Hfresh.
    apply list_elem_of_In in Hx, Hy.
    specialize (Hholds x Hx). specialize (Hfresh y Hy).
    rewrite Hk in Hfresh. rewrite Hfresh in Hholds. destruct Hholds; discriminate. }
  assert (Huser' : forall k, In k (map hi_Key (hr_Item history)) ->
                             k <> "_runtime" /\ k <> "_step").
  { intros k H1. apply in_map_iff in H1 as (x & <- & Hx).
    rewrite Forall_forall in Huser. apply Huser, list_elem_of_In, Hx. }
  assert (Himp' : forall k, In k (map hi_Key imputed) ->
                            k <> "_runtime" /\ k <> "_step").
  { intros k H1. apply in_map_iff in H1 as (x & <- & Hx).
    rewrite Forall_forall in Hirt, Hist. apply list_elem_of_In in Hx. auto. }
  apply NoDup_ListNoDup. apply NoDup_ListNoDup in Hnd, Hndi.
  unfold internalItems.
  destruct (XShared (settings h)); cbn [map app hi_Key runtimeItem stepItem].
  - apply List.NoDup_app; [exact Hnd | |].
    + constructor; [|exact Hndi]. intros Hin. apply Himp' in Hin. tauto.
    + intros k H1 [<-|H2]; [apply Huser' in H1; tauto | eauto].
  - apply List.NoDup_app; [exact Hnd | |].
    + constructor; [|constructor; [|exact Hndi]].
      * intros [Hin|Hin]; [discriminate | apply Himp' in Hin; tauto].
      * intros Hin. apply Himp' in Hin. tauto.
    + intros k H1 [<-|[<-|H2]];
        [apply Huser' in H1; tauto | apply Huser' in H1; tauto | eauto].
Qed.

(** ** Files *)

Lemma announcing_intro (w : World) (h h' : Handler)
    (forwarded : list ServiceRecord) (written : list FileWrite) :
  settings h' = settings h ->
  fwdChan h' = fwdChan h ++ forwarded ->
  files h' = files h ++ written ->
  (forall p,
     In p (announcedPaths forwarded) ->
     In (Join (FilesDir (settings h)) p) (map fw_path written) \/
     (saved_program_exists w = true /\
      p = Join "code" (ProgramRelpath (settings h)))) ->
  announcing w h h'.
Proof. intros. split; [assumption|]. eauto. Qed.

Lemma announcing_refl (w : World) (h : Handler) : announcing w h h.
Proof.
  apply (announcing_intro w h h [] []); rewrite ?app_nil_r; try reflexivity.
  intros p [].
Qed.

Lemma announcedPaths_app (a b : list ServiceRecord) :
  announcedPaths (a ++ b) = announcedPaths a ++ announcedPaths b.
Proof. unfold announcedPaths. apply flat_map_app. Qed.

Lemma announcing_trans (w : World) (h1 h2 h3 : Handler) :
  announcing w h1 h2 -> announcing w h2 h3 -> announcing w h1 h3.
Proof.
  intros (S1 & f1 & w1 & F1 & W1 & A1) (S2 & f2 & w2 & F2 & W2 & A2).
  apply (announcing_intro w h1 h3 (f1 ++ f2) (w1 ++ w2)).
  - congruence.
  - rewrite F2, F1, app_assoc. reflexivity.
  - rewrite W2, W1, app_assoc. reflexivity.
  - intros p Hp. rewrite announcedPaths_app in Hp. rewrite map_app.
    apply in_app_or in Hp as [Hp|Hp].
    + destruct (A1 p Hp) as [Hw|Hs]; [left; apply in_or_app; auto | right; exact Hs].
    + rewrite S1 in A2.
      destruct (A2 p Hp) as [Hw|Hs]; [left; apply in_or_app; auto | right; exact Hs].
Qed.

(** A step that forwards no files record and writes what it likes. *)
Ltac announces_nothing :=
  eapply announcing_intro;
  [ reflexivity
  | cbn; first [ symmetry; apply app_nil_r | reflexivity ]
  | cbn; first [ symmetry; apply app_nil_r | reflexivity ]
  | cbn; tauto ].

Lemma Join_code (dir relative : string) :
  Join (Join dir "code") relative = Join dir (Join "code" relative).
Proof. unfold Join. rewrite string_append_assoc. reflexivity. Qed.

Lemma handleCodeSave_announcing (w : World) (h : Handler) :
  announcing w h (handleCodeSave w h).
Proof.
  unfold handleCodeSave.
  destruct (String.eqb (ProgramRelpath (settings h)) ""); [announces_nothing|].
  destruct (negb (program_exists w)); [announces_nothing|].
  destruct (negb (mkdir_ok w)); [apply announcing_refl|].
  destruct (saved_program_exists w) eqn:Hsaved.
  - eapply announcing_intro;
      [reflexivity | reflexivity | cbn; symmetry; apply app_nil_r |].
    cbn. intros p [<-|[]]. right. split; [exact Hsaved | reflexivity].
  - destruct (copy_ok w); [|apply announcing_refl].
    eapply announcing_intro; [reflexivity | reflexivity | reflexivity |].
    cbn. intros p [<-|[]]. left. left. apply Join_code.
Qed.

Lemma handlePatchSave_announcing (w : World) (h : Handler) :
  announcing w h (handlePatchSave w h).
Proof.
  unfold handlePatchSave.
  destruct (DisableGit (settings h)); [apply announcing_refl|].
  destruct (negb (git_available w)); [apply announcing_refl|].
  destruct (patch_head_ok w); destruct (latest_commit w) as [c|];
    try destruct (patch_upstream_ok w); cbn [app];
    try (announces_nothing; fail);
    (eapply announcing_intro;
     [ reflexivity
     | cbn; rewrite <- ?app_assoc; reflexivity
     | cbn; rewrite <- ?app_assoc; reflexivity
     | cbn; intros p Hp; left; intuition (subst; auto) ]).
Qed.

Lemma handleMetadata_announcing (w : World) (request : MetadataRequest)
    (merged : option MetadataRequest) (h : Handler) :
  announcing w h (handleMetadata w request merged h).
Proof.
  unfold handleMetadata.
  destruct (XDisableMeta (settings h)); [apply announcing_refl|].
  destruct (negb (marshal_metadata_ok w)); [announces_nothing|].
  destruct (negb (write_metadata_ok w)); [announces_nothing|].
  eapply announcing_intro; [reflexivity | reflexivity | reflexivity |].
  cbn. intros p Hp. left. intuition (subst; auto).
Qed.

Lemma handleRequestPythonPackages_announcing (w : World)
    (request : PythonPackagesRequest) (h : Handler) :
  announcing w h (handleRequestPythonPackages w request h).
Proof.
  unfold handleRequestPythonPackages.
  destruct (negb (create_requirements_ok w)); [announces_nothing|].
  destruct (requirements_fail_at w) as [n|];
    [destruct (n <? _)%nat|];
    (eapply announcing_intro;
     [ reflexivity
     | cbn; first [ symmetry; apply app_nil_r | reflexivity ]
     | reflexivity
     | cbn; intros p Hp; left; intuition (subst; auto) ]).
Qed.


(** ** What is pending *)

(** X19. In the defer state [FLUSH_PARTIAL_HISTORY] what is pending in an
    accumulator with a flush callback is forwarded as one record with the
    internal items, the accumulator is left empty, and the defer request is
    forwarded after the record. *)
Theorem pending_history_is_flushed_at_defer (w : World)
    (record : ServiceRecord) (request : DeferRequest) (h : Handler)
    (ah : ActiveHistory) (cb : FlushCallback) :
  GetRecordType record = Some (Record_Request (Some (Request_Defer request))) ->
  State request = FLUSH_PARTIAL_HISTORY ->
  (is_Some (metricHandler h) -> is_Some (summaryHandler h)) ->
  activeHistory h = Some ah ->
  flush ah = Some cb ->
  GetValues ah <> [] ->
  exists h' forwarded,
    handleRequestDefer w record request h = Ok h' /\
    flushedAs (hr_Step (callbackRecord cb ah)) (GetValues ah)
      (internalItems (callbackRecord cb ah) ah h) h h' /\
    last (fwdChan h') = Some forwarded /\
    GetRecordType forwarded = GetRecordType record /\
    activeHistory h' = Some (Clear ah).
Proof.
  intros Hty Hstate Hsum Hah Hcb Hvals.
  unfold handleRequestDefer. rewrite Hstate. cbn [deferSideEffect].
  destruct (ActiveHistory_Flush_spec h Hsum) as (hf & Ef & Ff & Af & Rf).
  rewrite Ef. cbn [mbind outcome_bind].
  rewrite Hah in Af, Rf. cbn in Af. rewrite Hcb in Rf.
  eexists _, _. split; [reflexivity|].
  split; [|split; [apply last_snoc | split; [reflexivity | exact Af]]].
  unfold flushedAs. cbn [fwdChan fwdRecordWithControl fwdRecord set_fwdChan].
  destruct (GetValues ah) as [|v vs] eqn:Hv; [congruence|].
  destruct Rf as (imputed & Hrec). exists imputed.
  rewrite historyRecords_app, Hrec.
  unfold historyRecords at 3. cbn. rewrite Hty. cbn. rewrite app_nil_r.
  unfold internalItems. destruct cb; reflexivity.
Qed.

Lemma UpdateValues_app (ah : ActiveHistory) (a b : list HistoryItem) :
  UpdateValues (UpdateValues ah a) b = UpdateValues ah (a ++ b).
Proof. unfold UpdateValues. cbn. rewrite fold_left_app. reflexivity. Qed.

(** X20. In the synchronous mode the items of requests for the same step
    are merged into one record: a request that says not to flush forwards
    nothing, and the request with [flush] that follows it forwards one
    record, at the current step, with what both requests put into the
    accumulator. *)
Theorem partial_requests_are_merged (first second : PartialHistoryRequest)
    (h : Handler) :
  syncIdle h ->
  ph_Step first = None ->
  ph_Action first = Some {| Flush := false |} ->
  ph_Step second = None ->
  GetFlush (ph_Action second) = true ->
  ph_Item first ++ ph_Item second <> [] ->
  exists h1 h2 r c,
    currentStep (ensureActiveHistorySync h) = Ok c /\
    handleRequestPartialHistory first h = Ok h1 /\
    fwdChan h1 = fwdChan h /\
    handleRequestPartialHistory second h1 = Ok h2 /\
    historyRecords (fwdChan h2) = historyRecords (fwdChan h) ++ [r] /\
    hr_Step r = Some {| Num := c |} /\
    (forall it,
       it ∈ requestValues (ph_Item first ++ ph_Item second) -> it ∈ hr_Item r) /\
    currentStep h2 = Ok (wrap64 (c + 1)).
Proof.
  intros Hidle Hs1 Ha1 Hs2 Hf2 Hitems.
  destruct (syncIdle_ensure h Hidle) as (ah0 & c0 & Ha0 & Hst0 & Hv0 & Hfl0 & _).
  destruct Hidle as [(Hsync & Hstep & Hsum) _].
  assert (Hnb : forall request hx, ph_Step request = None -> notBehind request hx).
  { intros request hx Hn s c E. congruence. }
  (* the first request *)
  destruct (acceptRequest_spec first h Hstep Hsum)
    as (hm & ah0' & ahm & c0' & Ha0' & _ & Ehm & Ahm & Fl & [Hset _] & Hsm & Shape).
  rewrite Ha0 in Ha0'. inversion Ha0'; subst ah0'; clear Ha0'.
  rewrite Hs1 in Shape. destruct Shape as [Hahm Hfwd].
  assert (E1 : handleRequestPartialHistory first h = Ok hm).
  { unfold handleRequestPartialHistory. rewrite Hsync.
    rewrite (handlePartialHistorySync_accept first h (Hnb _ _ Hs1)), Ehm.
    cbn [mbind outcome_bind]. unfold flushRequested. rewrite Hs1, Ha1.
    reflexivity. }
  (* the second request *)
  assert (Hstep1 : forall ah, activeHistory hm = Some ah -> is_Some (step ah)).
  { intros ah E. rewrite Ahm in E. inversion E; subst ah. rewrite Hahm.
    cbn. rewrite Hst0. eauto. }
  destruct (acceptRequest_spec second hm Hstep1 Hsm)
    as (hm2 & ah1 & ahm2 & c1 & Ha1' & Hst1 & Ehm2 & Ahm2 & Fl2 & [Hset2 _]
        & Hsm2 & Shape2).
  assert (Eens : ensureActiveHistorySync hm = hm).
  { unfold ensureActiveHistorySync. rewrite Ahm. reflexivity. }
  rewrite Eens, Ahm in Ha1'. inversion Ha1'; subst ah1; clear Ha1'.
  rewrite Hs2 in Shape2. destruct Shape2 as [Hahm2 Hfwd2].
  assert (Hc1 : c1 = c0).
  { rewrite Hahm in Hst1. cbn in Hst1. rewrite Hst0 in Hst1.
    inversion Hst1. reflexivity. }
  subst c1.
  assert (Hstm2 : step ahm2 = Some {| Num := c0 |}).
  { rewrite Hahm2. cbn. exact Hst1. }
  destruct (flushThenIncrement_spec hm2 ahm2 c0 Ahm2 Hstm2 Hsm2)
    as (hf & Ef & Ff & Cf & Af & Einc).
  destruct (ActiveHistory_Flush_spec hm2 Hsm2) as (hf' & Ef' & _ & _ & Rf).
  rewrite Ef in Ef'. inversion Ef'; subst hf'; clear Ef'.
  assert (Hvals : GetValues ahm2 = requestValues (ph_Item first ++ ph_Item second)).
  { rewrite Hahm2, Hahm, UpdateValues_app. apply requestValues_of. exact Hv0. }
  assert (Hfl : flush ahm2 = Some FlushWithStep) by congruence.
  rewrite Ahm2, Hfl, Hvals in Rf.
  pose proof (requestValues_nonempty _ Hitems) as Hne.
  destruct (requestValues (ph_Item first ++ ph_Item second)) as [|v vs] eqn:Hrv;
    [congruence|].
  destruct Rf as (imputed & Hrec).
  eexists hm, _, _, c0.
  split; [apply (currentStep_Some _ ah0 c0 Ha0 Hst0)|].
  split; [exact E1|]. split; [exact Hfwd|].
  split.
  { unfold handleRequestPartialHistory. rewrite Hset, Hsync.
    rewrite (handlePartialHistorySync_accept second hm (Hnb _ _ Hs2)), Ehm2.
    cbn [mbind outcome_bind]. unfold flushRequested. rewrite Hf2, orb_true_r.
    exact Einc. }
  cbn [fwdChan set_activeHistory]. rewrite Hrec, Hfwd2, Hfwd.
  split; [reflexivity|]. cbn [hr_Step hr_Item callbackRecord].
  split; [exact Hstm2|]. split; [|reflexivity].
  intros it Hin. apply elem_of_app. left. exact Hin.
Qed.

End Properties.

(** * Examples *)

Section Examples.
#[local] Existing Instance ExamplePlatform.

(** Replaces the left-hand side of an equation by its value. *)
Ltac evaluate_in H :=
  match type of H with
  | ?l = _ => let v := eval vm_compute in l in change l with v in H
  end.
Ltac evaluate :=
  match goal with
  | |- ?l = _ => let v := eval vm_compute in l in change l with v
  end.

(** The request for step 3 at current step 5 is dropped; the message names
    3 and 5. *)
Lemma step_regression_dropped_witness :
  exists h',
    handleRequestPartialHistory regressionRequest exampleHandlerAtStep5 = Ok h' /\
    fwdChan h' = [] /\
    activeHistory h' = activeHistory exampleHandlerAtStep5 /\
    internalPrinter h' = [stepRegressionMessage 3 5] /\
    contains (stepRegressionMessage 3 5) "3" /\
    contains (stepRegressionMessage 3 5) "5".
Proof.
  destruct (step_regression_dropped regressionRequest exampleHandlerAtStep5
              {| Num := 3 |} 5)
    as (h' & E & Hf & _ & Ha & _ & _ & _ & _ & _ & _ & Hp & H3 & H5);
    [reflexivity | reflexivity | reflexivity | simpl; lia |].
  exists h'. repeat split; assumption.
Defined.

(** A time stamp of 20 in a run started at 5 gives a run time of 15. *)
Lemma flush_appends_runtime_witness :
  exists h' flushed rest,
    flushHistory timedRecord timedHandler = Ok h' /\
    last (fwdChan h') = Some (newRecord (Record_History flushed) None) /\
    hr_Item flushed = hr_Item timedRecord ++ item "_runtime" "15.000000" :: rest.
Proof.
  destruct (flush_appends_runtime timedRecord timedHandler timedAccumulator)
    as (h' & flushed & rt & rest & E & Hl & Hi & _ & Hrt);
    [vm_compute; discriminate | reflexivity | intros _; eexists; reflexivity |].
  specialize (Hrt (item "_timestamp" "20") eq_refl).
  exists h', flushed, rest. split; [exact E|]. split; [exact Hl|].
  rewrite Hi, Hrt. reflexivity.
Defined.

(** The request for step 3 at current step 5 asks for a flush and is
    neither flushed nor followed by an increment: the handler it leaves is
    not the result of a flush followed by an increment of any handler. *)
Lemma dropped_request_is_not_flushed :
  specFlushCondition regressionRequest /\
  exists h',
    handleRequestPartialHistory regressionRequest exampleHandlerAtStep5 = Ok h' /\
    fwdChan h' = fwdChan exampleHandlerAtStep5 /\
    currentStep h' = Ok 5 /\
    ~ (exists hm, flushThenIncrement hm = Ok h').
Proof.
  split.
  { right. eexists. split; reflexivity. }
  eexists. split; [evaluate; reflexivity|].
  split; [reflexivity|]. split; [reflexivity|].
  intros (hm & E). apply flushThenIncrement_empties in E as (ah' & Ha & Hv).
  evaluate_in Ha. inversion Ha; subst ah'. evaluate_in Hv. discriminate.
Qed.

(** A request without step and with [flush] is flushed at step 0 and
    leaves the accumulator at step 1. *)
Lemma sync_flush_condition_witness :
  exists hm h',
    acceptRequest flushRequest exampleHandler = Ok hm /\
    currentStep hm = Ok 0 /\
    handleRequestPartialHistory flushRequest exampleHandler = Ok h' /\
    currentStep h' = Ok 1.
Proof.
  destruct (sync_flush_condition flushRequest exampleHandler)
    as (hm & current & Eacc & Ecur & Hyes & _).
  - split; [reflexivity|]. split; [intros ah E; inversion E|].
    intros _. eexists. reflexivity.
  - intros s current Hs. inversion Hs.
  - destruct Hyes as (hf & h' & _ & _ & _ & Eh & Ec & _).
    { right. eexists. split; reflexivity. }
    assert (current = 0) as ->.
    { evaluate_in Eacc. inversion Eacc; subst hm.
      evaluate_in Ecur. inversion Ecur. reflexivity. }
    exists hm, h'. split; [exact Eacc|]. split; [exact Ecur|].
    split; [exact Eh | exact Ec].
Defined.



(** C5.  The defer request in state [END] on a handler that was made
    without file-transfer statistics: the call of [SetDone] dereferences
    nil, the handler panics and the request is not forwarded.  A poll-exit
    request on the same handler is answered, with [done] set: there the
    missing statistics are provided for. *)
Theorem defer_end_without_statistics :
  fileTransferStats handlerWithoutStats = None /\
  handleRequestDefer exampleWorld deferEndRecord deferEnd handlerWithoutStats =
    Panic "nil pointer dereference: fileTransferStats" /\
  handleRecord exampleWorld deferEndRecord handlerWithoutStats =
    Panic "nil pointer dereference: fileTransferStats" /\
  exists h' result,
    handleRecord exampleWorld pollExitRecord handlerWithoutStats = Ok h' /\
    outChan h' = [result] /\
    res_Response result =
      {| GetResponseType :=
           Some (Response_PollExitResponse
                   {| PusherStats := None; GetFileCounts_ := None;
                      Done := true |}) |}.
Proof.
  split; [reflexivity|].
  split; [evaluate; reflexivity|].
  split; [evaluate; reflexivity|].
  eexists _, _. split; [evaluate; reflexivity|].
  split; reflexivity.
Qed.

(** [END] marks the statistics done and forwards the request once. *)
Lemma defer_side_effect_then_forward_witness :
  exists h' forwarded c stats,
    handleRequestDefer exampleWorld deferEndRecord deferEnd exampleHandler = Ok h' /\
    fwdChan h' = [forwarded] /\
    GetControl forwarded = Some c /\ AlwaysSend c = true /\ Local c = true /\
    fileTransferStats h' = Some stats /\ IsDone stats = true.
Proof.
  destruct (defer_side_effect_then_forward exampleWorld deferEndRecord deferEnd
              exampleHandler)
    as (hs & forwarded & c & Es & Eh & _ & _ & Hc & Ha & Hl & _ & _ & _ & _ & _
        & _ & _ & _ & _ & Hend);
    [eexists; reflexivity|].
  destruct (Hend eq_refl) as (stats & Hst & Hhs & Hdone & Hfwd).
  eexists _, forwarded, c, (SetDone stats). split; [exact Eh|].
  simpl. rewrite Hfwd. split; [reflexivity|].
  split; [exact Hc|]. split; [exact Ha|]. split; [exact Hl|].
  split; [rewrite Hhs; reflexivity | exact Hdone].
Defined.

(** A history record in which the client sends [_runtime] is forwarded with
    two items of that key. *)
Lemma client_runtime_item_is_doubled :
  exists h' flushed,
    handleRecord exampleWorld clientRuntimeRecord exampleHandler = Ok h' /\
    historyRecords (fwdChan h') = [flushed] /\
    countKey "_runtime" (hr_Item flushed) = 2%nat.
Proof.
  eexists _, _. split; [evaluate; reflexivity|].
  split; evaluate; reflexivity.
Qed.

(** A record with one item of the user gets [_runtime] and [_step] once. *)
Lemma flushed_record_internal_items_witness :
  exists h' flushed,
    flushHistory timedRecord timedHandler = Ok h' /\
    fwdChan h' = [newRecord (Record_History flushed) None] /\
    countKey "_runtime" (hr_Item flushed) = 1%nat /\
    countKey "_step" (hr_Item flushed) = 1%nat.
Proof.
  destruct (flushed_record_internal_items timedRecord timedHandler timedAccumulator)
    as [(h' & flushed & ms & E & Hf & Hms & _ & _ & Hrt & Hst) _];
    [vm_compute; discriminate | reflexivity | intros _; eexists; reflexivity |].
  assert (Hav : forall key, stepMetricsAvoid key timedHandler).
  { intros key mh Hmh. vm_compute in Hmh. inversion Hmh; subst mh. split.
    - intros k m Hk. vm_compute in Hk. discriminate.
    - intros p m Hin. inversion Hin. }
  assert (ms = []) as ->.
  { pose proof (f_equal (fun o => match o with
                                  | Ok x => length (fwdChan x)
                                  | Panic _ => 0%nat
                                  end) E) as Hlen.
    cbn beta in Hlen. evaluate_in Hlen. cbn beta iota in Hlen.
    rewrite Hf, !length_app in Hlen.
    destruct ms as [|m ms]; [reflexivity|]. cbn in Hlen. lia. }
  exists h', flushed. split; [exact E|]. split; [exact Hf|].
  split; [apply Hrt; [reflexivity | apply Hav]|].
  destruct (Hst eq_refl) as (_ & _ & Hone). apply Hone; [reflexivity | apply Hav].
Defined.



(** A request with one item and [flush], handled twice on a fresh handler:
    the second record has the item as well; the same request without items
    forwards nothing at all. *)
Lemma replay_forwards_the_items_again :
  (exists h2 r1 r2,
     (h1 ← handleRequestPartialHistory flushRequest exampleHandler;
      handleRequestPartialHistory flushRequest h1) = Ok h2 /\
     historyRecords (fwdChan h2) = [r1; r2] /\
     item "loss" "5" ∈ hr_Item r2 /\
     HasPrefix (hi_Key (item "loss" "5")) "_" = false) /\
  (exists h2,
     (h1 ← handleRequestPartialHistory emptyFlushRequest exampleHandler;
      handleRequestPartialHistory emptyFlushRequest h1) = Ok h2 /\
     fwdChan h2 = []).
Proof.
  split.
  - eexists _, _, _. split; [evaluate; reflexivity|].
    split; [evaluate; reflexivity|]. split; [left | reflexivity].
  - eexists. split; [evaluate; reflexivity | reflexivity].
Qed.

(** The replay of a request with one item and without step. *)
Lemma replay_of_flush_request_witness :
  exists h1 h2 r1 r2,
    handleRequestPartialHistory flushRequest exampleHandler = Ok h1 /\
    handleRequestPartialHistory flushRequest h1 = Ok h2 /\
    historyRecords (fwdChan h2) = [r1; r2] /\
    hr_Step r1 = Some {| Num := 0 |} /\
    hr_Step r2 = Some {| Num := 1 |}.
Proof.
  destruct (replay_of_flush_request flushRequest exampleHandler)
    as (h1 & h2 & c0 & Hc & E1 & E2 & _ & Hitems).
  - split; [split; [reflexivity|split]|].
    + intros ah E. inversion E.
    + intros _. eexists. reflexivity.
    + intros ah E. inversion E.
  - reflexivity.
  - intros s current Hs. inversion Hs.
  - intros s Hs. inversion Hs.
  - destruct Hitems as (r1 & Hh1 & _ & _ & Hs1 & r2 & Hh2 & Hs2 & _);
      [discriminate|].
    evaluate_in Hc. inversion Hc; subst c0.
    exists h1, h2, r1, r2. split; [exact E1|]. split; [exact E2|].
    split; [exact Hh2|]. split; [exact Hs1 | exact Hs2].
Defined.

(** The handler of the examples has its collaborators and nothing
    pending. *)
Lemma exampleHandler_ready : ready exampleHandler.
Proof.
  split; [eexists; reflexivity|]. split; [eexists; reflexivity|].
  split; [eexists; reflexivity|]. intros _ ah E. inversion E.
Qed.

Lemma exampleHandler_syncIdle : syncIdle exampleHandler.
Proof.
  split; [split; [reflexivity|split]|].
  - intros ah E. inversion E.
  - intros _. eexists. reflexivity.
  - intros ah E. inversion E.
Qed.

(** The defer request in state [END] is handled, and the handler is ready
    afterwards. *)
Lemma handleRecord_ok_iff_witness :
  exists h',
    handleRecord exampleWorld deferEndRecord exampleHandler = Ok h' /\ ready h'.
Proof.
  apply (proj2 (handleRecord_ok_iff exampleWorld deferEndRecord exampleHandler
                  exampleHandler_ready)).
  exact I.
Defined.

(** A metric, a partial history, a summary and three requests in a row. *)
Lemma handleRecords_never_panic_witness :
  exists h',
    handleRecords [(exampleWorld, lossMetricRecord);
                   (exampleWorld, flushRequestRecord);
                   (exampleWorld, lossSummaryRecord);
                   (exampleWorld, runStartRecord);
                   (exampleWorld, deferFlushSumRecord);
                   (exampleWorld, deferEndRecord)] exampleHandler = Ok h' /\
    ready h'.
Proof.
  apply handleRecords_never_panic; [exact exampleHandler_ready|].
  repeat constructor. cbn. eexists. reflexivity.
Defined.

(** Of a poll-exit request, a partial history and an attach request, the
    first and the last are answered, in that order. *)
Lemma requests_answered_in_order_witness :
  exists h' first second,
    handleRecords [(exampleWorld, pollExitRecord);
                   (exampleWorld, flushRequestRecord);
                   (exampleWorld, attachRecord)] exampleHandler = Ok h' /\
    outChan h' = [resultFor pollExitRecord first; resultFor attachRecord second].
Proof.
  assert (E : exists h',
             handleRecords [(exampleWorld, pollExitRecord);
                            (exampleWorld, flushRequestRecord);
                            (exampleWorld, attachRecord)] exampleHandler = Ok h')
    by (eexists; evaluate; reflexivity).
  destruct E as [h' E].
  destruct (requests_answered_in_order _ _ _ E) as (responses & Hl & Ho).
  destruct responses as [|first [|second [|third more]]]; try discriminate Hl.
  exists h', first, second. split; [exact E | exact Ho].
Defined.

(** A metric, a partial history and the defer request in state [END] write
    no file and leave the uploader alone. *)
Lemma files_and_uploads_only_on_request_witness :
  exists h',
    handleRecords [(exampleWorld, lossMetricRecord);
                   (exampleWorld, flushRequestRecord);
                   (exampleWorld, deferEndRecord)] exampleHandler = Ok h' /\
    files h' = [] /\
    runfilesUploaderOrNil h' = Some [].
Proof.
  assert (E : exists h',
             handleRecords [(exampleWorld, lossMetricRecord);
                            (exampleWorld, flushRequestRecord);
                            (exampleWorld, deferEndRecord)] exampleHandler = Ok h')
    by (eexists; evaluate; reflexivity).
  destruct E as [h' E].
  destruct (files_and_uploads_only_on_request _ _ _ E) as [Hf Hu].
  exists h'. split; [exact E|]. split.
  - apply Hf. repeat constructor; cbn; try tauto; discriminate.
  - apply Hu. repeat constructor; cbn; try tauto; intros [?|?]; discriminate.
Defined.

(** The run a run start request carries is the answer to an attach request
    that comes after a partial history. *)
Lemma attach_answers_the_run_witness :
  exists h',
    handleRecords [(exampleWorld, runStartRecord);
                   (exampleWorld, flushRequestRecord);
                   (exampleWorld, attachRecord)] exampleHandler = Ok h' /\
    last (outChan h') =
      Some (resultFor attachRecord (attachResponse (Some exampleRun))).
Proof.
  assert (E : exists h',
             handleRecords ((exampleWorld, runStartRecord) ::
                            [(exampleWorld, flushRequestRecord)] ++
                            [(exampleWorld, attachRecord)]) exampleHandler = Ok h')
    by (eexists; evaluate; reflexivity).
  destruct E as [h' E]. exists h'. split; [exact E|].
  apply (attach_answers_the_run exampleWorld exampleWorld runStartRecord
           attachRecord exampleRun [(exampleWorld, flushRequestRecord)]
           exampleHandler h'); [reflexivity | | reflexivity | exact E].
  repeat constructor. intros [r Hr]. discriminate Hr.
Defined.

(** After a partial history and a summary record, the summary record the
    handler forwards agrees with the consolidated summary. *)
Lemma summary_delta_is_current_witness :
  exists h' h'' sh r,
    handleRecords [(exampleWorld, flushRequestRecord);
                   (exampleWorld, lossSummaryRecord)] exampleHandler = Ok h' /\
    fwdSummary h' = Ok h'' /\
    summaryHandler h' = Some sh /\
    fwdChan h'' = fwdChan h' ++ [r] /\
    currentIn (consolidatedSummary sh) r.
Proof.
  assert (E : exists h',
             handleRecords [(exampleWorld, flushRequestRecord);
                            (exampleWorld, lossSummaryRecord)] exampleHandler
             = Ok h')
    by (eexists; evaluate; reflexivity).
  destruct E as [h' E].
  destruct (summary_delta_is_current
              [(exampleWorld, flushRequestRecord);
               (exampleWorld, lossSummaryRecord)] exampleHandler h')
    as [_ Hcur];
    [intros sh Hsh; inversion Hsh; apply map_empty_subseteq | exact E |].
  assert (E' : exists h'', fwdSummary h' = Ok h'').
  { pose proof E as E0. evaluate_in E0. injection E0 as <-.
    eexists. evaluate. reflexivity. }
  destruct E' as [h'' E'].
  destruct (Hcur h'' E') as (sh & r & Hsh & Hf & Hc).
  exists h', h'', sh, r. repeat split; assumption.
Defined.

(** The entry of the delta is forwarded, and a second flush forwards an
    empty update. *)
Lemma summary_flush_drains_delta_witness :
  exists h' items h'',
    fwdSummary deltaHandler = Ok h' /\
    fwdChan h' = [summaryRecord items] /\
    {| si_Key := "loss"; si_ValueJson := "5" |} ∈ items /\
    fwdSummary h' = Ok h'' /\
    fwdChan h'' = [summaryRecord items; summaryRecord []].
Proof.
  destruct (summary_flush_drains_delta deltaHandler deltaSummary)
    as (h' & items & h'' & E & Hf & [_ Hl] & _ & E' & Hf'); [reflexivity|].
  exists h', items, h''. split; [exact E|]. split; [exact Hf|].
  split; [apply Hl; reflexivity|]. split; [exact E'|].
  rewrite Hf', Hf. reflexivity.
Defined.



(** The metric [loss] is defined, a record for its step metric [_step] goes
    first, and an item [loss] resolves to the metric. *)
Lemma defined_metric_is_resolved_witness :
  exists h',
    handleMetric lossMetricRecord lossMetric exampleHandler = Ok h' /\
    fwdChan h' = [stepMetricRecord "_step"; lossMetricRecord] /\
    matchHistoryItemMetric (item "loss" "5") h' = Ok (Some lossMetric, h').
Proof.
  destruct (defined_metric_is_resolved lossMetricRecord lossMetric
              (item "loss" "5") exampleHandler
              {| definedMetrics := ∅; globMetrics := [] |})
    as (h' & E & Hf & _ & Hm);
    [reflexivity | reflexivity | discriminate | reflexivity | reflexivity |].
  exists h'. split; [exact E|]. split; [exact Hf | exact Hm].
Defined.

(** [train/loss] resolves to a metric made from the glob [train/*], and
    resolves to it again without a change. *)
Lemma metric_resolution_is_stable_witness :
  exists metric h',
    matchHistoryItemMetric (item "train/loss" "1") trainHandler =
      Ok (Some metric, h') /\
    matchHistoryItemMetric (item "train/loss" "1") h' = Ok (Some metric, h').
Proof.
  assert (E : exists metric h',
             matchHistoryItemMetric (item "train/loss" "1") trainHandler =
               Ok (Some metric, h'))
    by (eexists _, _; evaluate; reflexivity).
  destruct E as (metric & h' & E). exists metric, h'. split; [exact E|].
  apply (metric_resolution_is_stable _ _ trainHandler); [discriminate | exact E].
Defined.

(** A history record for step 7 is forwarded at step 7 and leaves an empty
    accumulator of that step without callback, whatever was pending. *)
Lemma history_record_replaces_accumulator_witness :
  exists h' r,
    handleHistory lossHistory exampleHandlerAtStep5 = Ok h' /\
    activeHistory h' = Some (NewActiveHistory (Some 7) None) /\
    historyRecords (fwdChan h') = [r] /\
    hr_Step r = Some {| Num := 7 |}.
Proof.
  destruct (history_record_replaces_accumulator lossHistory
              exampleHandlerAtStep5)
    as (h' & E & Ha & imputed & Hr); [intros _; eexists; reflexivity|].
  eexists h', _. split; [exact E|]. split; [exact Ha|].
  split; [exact Hr | reflexivity].
Defined.

(** At step 5 with one item pending, a request for step 8 forwards the
    pending item at step 5. *)
Lemma later_step_flushes_pending_witness :
  exists h' r,
    handleRequestPartialHistory laterRequest exampleHandlerAtStep5 = Ok h' /\
    historyRecords (fwdChan h') = [r] /\
    hr_Step r = Some {| Num := 5 |} /\
    currentStep h' = Ok 8.
Proof.
  destruct (later_step_flushes_pending laterRequest exampleHandlerAtStep5
              (UpdateValues (NewActiveHistory (Some 5) (Some FlushWithStep))
                 [item "acc" "1"]) 5 {| Num := 8 |})
    as (h' & E & (imputed & Hr) & Ha).
  - split; [reflexivity|]. split.
    + intros ah Hah. inversion Hah. eexists. reflexivity.
    + intros _. eexists. reflexivity.
  - reflexivity.
  - reflexivity.
  - reflexivity.
  - vm_compute. discriminate.
  - reflexivity.
  - simpl. lia.
  - reflexivity.
  - eexists h', _. split; [exact E|]. split; [exact Hr|].
    split; [reflexivity|]. unfold currentStep. rewrite Ha. reflexivity.
Defined.

(** In the shared mode a request with [flush] is forwarded without step. *)
Lemma shared_mode_flush_witness :
  exists h' r,
    handleRequestPartialHistory flushRequest sharedHandler = Ok h' /\
    historyRecords (fwdChan h') = [r] /\
    hr_Step r = None /\
    activeHistory h' = Some (Clear (sharedPending flushRequest sharedHandler)).
Proof.
  destruct (shared_mode_flush flushRequest sharedHandler) as (h' & E & Hyes & _).
  - split; [reflexivity|]. split.
    + intros ah Hah. inversion Hah.
    + intros _. eexists. reflexivity.
  - destruct Hyes as [Ha Hr]; [right; reflexivity|].
    destruct (GetValues (sharedPending flushRequest sharedHandler)) eqn:Hv;
      [vm_compute in Hv; discriminate Hv|].
    destruct Hr as (imputed & Hr).
    eexists h', _. split; [exact E|]. split; [exact Hr|].
    split; [reflexivity | exact Ha].
Defined.

(** In a run that starts at step 10 the first record is forwarded at step
    10, and the next step is 11. *)
Lemma history_starts_at_starting_step_witness :
  exists h' r,
    handleRequestPartialHistory flushRequest startedHandler = Ok h' /\
    historyRecords (fwdChan h') = [r] /\
    hr_Step r = Some {| Num := 10 |} /\
    currentStep h' = Ok 11.
Proof.
  destruct (history_starts_at_starting_step flushRequest startedHandler)
    as (h' & r & E & Hr & Hs & _ & Hc).
  - split; [reflexivity|]. split.
    + intros ah Hah. inversion Hah.
    + intros _. eexists. reflexivity.
  - reflexivity.
  - reflexivity.
  - discriminate.
  - reflexivity.
  - exists h', r. split; [exact E|]. split; [exact Hr|].
    split; [exact Hs | exact Hc].
Defined.

(** The item [loss] of the flushed record is in the summary afterwards. *)
Lemma flushed_items_reach_the_summary_witness :
  exists h' sh',
    flushHistory timedRecord timedHandler = Ok h' /\
    summaryHandler h' = Some sh' /\
    consolidatedSummary sh' !! "loss" = Some "5".
Proof.
  destruct (flushed_items_reach_the_summary timedRecord timedHandler
              timedAccumulator {| consolidatedSummary := ∅; summaryDelta := ∅ |})
    as (h' & flushed & sh' & rest & E & Hl & _ & Hsh & Hc & _);
    [vm_compute; discriminate | reflexivity | reflexivity |].
  exists h', sh'. split; [exact E|]. split; [exact Hsh|].
  rewrite Hc. clear Hc Hsh.
  pose proof E as E0. evaluate_in E0. injection E0 as <-.
  evaluate_in Hl. injection Hl as <-. reflexivity.
Defined.

(** The record flushed for the items [loss] and [_timestamp] has four
    keys, each once. *)
Lemma flushed_keys_are_distinct_witness :
  exists h' flushed,
    flushHistory timedRecord timedHandler = Ok h' /\
    last (fwdChan h') = Some (newRecord (Record_History flushed) None) /\
    NoDup (keysOf (hr_Item flushed)).
Proof.
  assert (Hav : forall key, stepMetricsAvoid key timedHandler).
  { intros key mh Hmh. vm_compute in Hmh. inversion Hmh; subst mh. split.
    - intros k m Hk. vm_compute in Hk. discriminate.
    - intros p m Hin. inversion Hin. }
  apply (flushed_keys_are_distinct timedRecord timedHandler timedAccumulator).
  - vm_compute. discriminate.
  - reflexivity.
  - intros _. eexists. reflexivity.
  - apply (bool_decide_unpack _). vm_compute. exact I.
  - apply (bool_decide_unpack _). vm_compute. exact I.
  - apply (bool_decide_unpack _). vm_compute. exact I.
  - apply Hav.
  - apply Hav.
Defined.


(** The item pending at step 5 is forwarded at step 5, and the defer
    request after it. *)
Lemma pending_history_is_flushed_at_defer_witness :
  exists h' r forwarded,
    handleRequestDefer exampleWorld deferFlushPartialRecord deferFlushPartial
      exampleHandlerAtStep5 = Ok h' /\
    historyRecords (fwdChan h') = [r] /\
    hr_Step r = Some {| Num := 5 |} /\
    last (fwdChan h') = Some forwarded /\
    GetRecordType forwarded = GetRecordType deferFlushPartialRecord.
Proof.
  destruct (pending_history_is_flushed_at_defer exampleWorld
              deferFlushPartialRecord deferFlushPartial exampleHandlerAtStep5
              (UpdateValues (NewActiveHistory (Some 5) (Some FlushWithStep))
                 [item "acc" "1"]) FlushWithStep)
    as (h' & forwarded & E & (imputed & Hr) & Hl & Ht & _);
    [reflexivity | reflexivity | intros _; eexists; reflexivity | reflexivity
     | reflexivity | vm_compute; discriminate |].
  eexists h', _, forwarded. split; [exact E|]. split; [exact Hr|].
  split; [reflexivity|]. split; [exact Hl | exact Ht].
Defined.

(** The item of a request that says not to flush and the item of the
    request with [flush] after it are forwarded in one record at step 0. *)
Lemma partial_requests_are_merged_witness :
  exists h1 h2 r,
    handleRequestPartialHistory keepRequest exampleHandler = Ok h1 /\
    fwdChan h1 = [] /\
    handleRequestPartialHistory flushRequest h1 = Ok h2 /\
    historyRecords (fwdChan h2) = [r] /\
    hr_Step r = Some {| Num := 0 |} /\
    item "acc" "1" ∈ hr_Item r /\
    item "loss" "5" ∈ hr_Item r.
Proof.
  destruct (partial_requests_are_merged keepRequest flushRequest exampleHandler)
    as (h1 & h2 & r & c & Hc & E1 & Hf1 & E2 & Hr & Hs & Hin & _);
    [exact exampleHandler_syncIdle | reflexivity | reflexivity | reflexivity
     | reflexivity | discriminate |].
  evaluate_in Hc. injection Hc as <-.
  exists h1, h2, r. split; [exact E1|]. split; [exact Hf1|].
  split; [exact E2|]. split; [exact Hr|]. split; [exact Hs|].
  split; apply Hin; vm_compute; repeat constructor.
Defined.

End Examples.
